(** * GoRE: a shallow embedding of the file handle, the PE reader and the
      package classifier, with the properties of its specification.

    Sources embedded here:
    - [file.go]: [Open], [GoFile], [initModuleData], [initPackages],
      [enumPackages], [PCLNTab], [Bytes], [SourceInfo];
    - the package file: [Package], [GetSourceFiles], [PathPackageClassifier],
      [IsStandardLibrary], [isGeneratedPackage];
    - the PE reader: [openPE], [initSymTab], [searchForPCLNTab],
      [getSectionDataFromAddress], [getPCLNTABDataImpl].

    Machine integers are [Z] with the wrap-around written out; Go maps are
    [gmap]; pointers to packages are addresses into a heap of packages. *)

From Stdlib Require Import ZArith Lia Ascii String List.
From Stdlib Require OrderedTypeEx.
From stdpp Require Import base option list gmap strings.

Local Open Scope string_scope.
Local Open Scope list_scope.

(** ** Go values shared by the three source files *)

(** The errors of the package.  The sentinels ([ErrNoPCLNTab], ...) are
    package-level variables of the repository; [EOF] is [io.EOF];
    [ErrNew] is [errors.New] or [fmt.Errorf] without a wrapped error,
    [ErrWrap] is [fmt.Errorf] with [%w]; [ErrOS] stands for the errors
    of the operating system and of the parsers of the [debug] packages. *)
Inductive error : Type :=
| ErrNotEnoughBytesRead
| ErrUnsupportedFile
| ErrNoPCLNTab
| ErrSectionDoesNotExist
| ErrSymbolNotFound
| ErrInvalidGoVersion
| EOF
| ErrNew (msg : string)
| ErrWrap (msg : string) (e : error)
| ErrOS (code : nat).

(** A Go call either returns or panics with a value. *)
Inductive outcome (A : Type) : Type :=
| Returned (a : A)
| Panicked (r : string).
Arguments Returned {A} a.
Arguments Panicked {A} r.

Definition byte := Z.

(** Unsigned machine arithmetic. *)
Module U.
Definition wrap (w : Z) (x : Z) : Z := (x mod 2 ^ w)%Z.
Definition add32 (x y : Z) : Z := wrap 32 (x + y).
Definition add64 (x y : Z) : Z := wrap 64 (x + y).
Definition sub64 (x y : Z) : Z := wrap 64 (x - y).
End U.

(** ** The functions of Go's [strings] and [path] that the sources call *)

Module GoStrings.

(** [strings.HasPrefix s prefix]. *)
Definition HasPrefix (s pre : string) : bool := String.prefix pre s.

(** [strings.Contains s substr]. *)
Fixpoint Contains (s substr : string) : bool :=
  String.prefix substr s ||
  match s with
  | EmptyString => false
  | String _ s' => Contains s' substr
  end.

(** [strings.Split s sep] at index 0, for a separator that is not empty:
    the part of [s] before the first occurrence of [sep], all of [s]
    when there is none. *)
Fixpoint SplitFirst (s sep : string) : string :=
  if String.prefix sep s then EmptyString
  else match s with
       | EmptyString => EmptyString
       | String c s' => String c (SplitFirst s' sep)
       end.

(** The pieces of [s] between the occurrences of the byte [c]. *)
Fixpoint fields (c : ascii) (s : string) : list string :=
  match s with
  | EmptyString => [EmptyString]
  | String a s' =>
      if Ascii.eqb a c then EmptyString :: fields c s'
      else match fields c s' with
           | [] => [String a EmptyString]
           | f :: fs => String a f :: fs
           end
  end.

(** [strings.Join elems sep]. *)
Fixpoint Join (elems : list string) (sep : string) : string :=
  match elems with
  | [] => EmptyString
  | [e] => e
  | e :: rest => e ++ sep ++ Join rest sep
  end.

End GoStrings.

Module GoBytes.

(** [bytes.HasPrefix s prefix]. *)
Fixpoint HasPrefix (s pre : list byte) {struct pre} : bool :=
  match pre, s with
  | [], _ => true
  | x :: pre', y :: s' => (x =? y)%Z && HasPrefix s' pre'
  | _ :: _, [] => false
  end.

End GoBytes.

Module GoPath.
Import GoStrings.

Definition slash : ascii := "/"%char.

Definition rooted (p : string) : bool :=
  match p with
  | String c _ => Ascii.eqb c slash
  | EmptyString => false
  end.

(** One turn of the loop of [path.Clean] on the element [e]; [out] is
    the output buffer as the list of its elements, last one first. *)
Definition clean_step (root : bool) (out : list string) (e : string) : list string :=
  if String.eqb e "" then out
  else if String.eqb e "." then out
  else if String.eqb e ".." then
    match out with
    | top :: rest =>
        if String.eqb top ".." then (if root then out else ".." :: out)
        else rest
    | [] => if root then [] else [".."]
    end
  else e :: out.

(** [path.Clean]. *)
Definition Clean (p : string) : string :=
  if String.eqb p "" then "."
  else
    let root := rooted p in
    let out := rev (fold_left (clean_step root) (fields slash p) []) in
    if root then "/" ++ Join out "/"
    else match out with
         | [] => "."
         | _ => Join out "/"
         end.

(** [path.Split] at its first component: [p] up to and with its last
    slash. *)
Definition SplitDir (p : string) : string :=
  match fields slash p with
  | [] | [_] => EmptyString
  | fs => Join (removelast fs) "/" ++ "/"
  end.

(** [path.Dir]. *)
Definition Dir (p : string) : string := Clean (SplitDir p).

Fixpoint strip_empty (rfs : list string) : list string :=
  match rfs with
  | f :: rest => if String.eqb f "" then strip_empty rest else rfs
  | [] => []
  end.

(** [path.Base]. *)
Definition Base (p : string) : string :=
  if String.eqb p "" then "."
  else match strip_empty (rev (fields slash p)) with
       | [] => "/"
       | f :: _ => f
       end.

End GoPath.

(** ** Packages and their classification (the package file) *)

(** [Function], [Method] and [Package].  [Offset] and [End] are [uint64]. *)
Record Function : Type := mkFunction {
  fn_Name : string;
  fn_Offset : Z;
  fn_End : Z;
  fn_PackageName : string
}.

Record Method : Type := mkMethod {
  m_Function : Function;
  m_Receiver : string
}.

Record Package : Type := mkPackage {
  Name : string;
  Filepath : string;
  Functions : list Function;
  Methods : list Method
}.

Inductive PackageClass : Type :=
| ClassUnknown
| ClassSTD
| ClassMain
| ClassVendor
| ClassGenerated.

#[global] Instance PackageClass_eq_dec : EqDecision PackageClass.
Proof. solve_decision. Defined.

Definition knownRepos : list string := ["golang.org"; "github.com"; "gitlab.com"].

Record PathPackageClassifier : Type := mkPathPackageClassifier {
  mainFilepath : string;
  mainFolders : list string
}.

(** [NewPathPackageClassifier]. *)
Definition NewPathPackageClassifier (mainPkgFilepath : string) : PathPackageClassifier :=
  {| mainFilepath := mainPkgFilepath;
     mainFolders := [GoPath.Dir mainPkgFilepath; GoPath.Clean mainPkgFilepath] |}.

(** [isGeneratedPackage]. *)
Definition isGeneratedPackage (pkg : Package) : bool :=
  if String.eqb (Filepath pkg) "<autogenerated>" then true
  else if String.eqb (Name pkg) "" && String.eqb (Filepath pkg) "" then true
  else if String.eqb (Filepath pkg) "" &&
          (String.eqb (Name pkg) "__x86" || String.eqb (Name pkg) "__i686") then true
  else false.

Section Classifier.

(** The generated table [stdPkgs] of the names of the standard library
    is not part of the embedded files: it is a parameter. *)
Variable stdPkgs : gset string.

(** [IsStandardLibrary] calls itself on the part of [pkg] before its
    first dot, and only when that part is shorter than [pkg]: the
    length of the argument is the fuel. *)
Fixpoint IsStandardLibrary_rec (fuel : nat) (pkg : string) : bool :=
  if bool_decide (pkg ∈ stdPkgs) then true
  else
    let tmp := GoStrings.SplitFirst pkg "." in
    if (String.length tmp <? String.length pkg)%nat then
      match fuel with
      | O => false
      | S fuel' => if IsStandardLibrary_rec fuel' tmp then true else false
      end
    else false.

Definition IsStandardLibrary (pkg : string) : bool :=
  IsStandardLibrary_rec (String.length pkg) pkg.

(** The part of [Classify] before the loop over the main folders: it
    returns the class when one of these rules decides. *)
Definition classify_before_folders (c : PathPackageClassifier) (pkg : Package)
  : option PackageClass :=
  if String.eqb (Name pkg) "type" || GoStrings.HasPrefix (Name pkg) "type.." then
    Some ClassGenerated
  else if IsStandardLibrary (Name pkg) then Some ClassSTD
  else if isGeneratedPackage pkg then Some ClassGenerated
  else
    let tmp := GoStrings.SplitFirst (Name pkg) "/golang.org" in
    if (String.length tmp <? String.length (Name pkg))%nat && IsStandardLibrary tmp
    then Some ClassSTD
    else if GoStrings.HasPrefix (Name pkg) "_cgo_" || GoStrings.HasPrefix (Name pkg) "x_cgo_"
    then Some ClassSTD
    else if GoStrings.Contains (Filepath pkg) "@v" then Some ClassVendor
    else if GoStrings.HasPrefix (Filepath pkg) (mainFilepath c ++ "/vendor/")
            || GoStrings.HasPrefix (Filepath pkg) (GoPath.Dir (mainFilepath c) ++ "/vendor/")
            || GoStrings.HasPrefix (Filepath pkg)
                 (GoPath.Dir (GoPath.Dir (mainFilepath c)) ++ "/vendor/")
    then Some ClassVendor
    else None.

(** The part of [Classify] after the loop over the main folders. *)
Definition classify_after_folders (c : PathPackageClassifier) (pkg : Package)
  : PackageClass :=
  if GoStrings.HasPrefix (Name pkg) "vendor/" then ClassVendor
  else if existsb (fun url => GoStrings.HasPrefix (Name pkg) url
                              && GoStrings.Contains (Filepath pkg) url) knownRepos
  then ClassVendor
  else if negb (GoStrings.Contains (Filepath pkg) "vendor/")
          && String.eqb (GoPath.Base (GoPath.Dir (Filepath pkg)))
                        (GoPath.Base (mainFilepath c))
  then ClassMain
  else if String.eqb (Name pkg) "" && String.eqb (GoPath.Base (Filepath pkg)) "runtime"
  then ClassSTD
  else if GoStrings.HasPrefix (Filepath pkg) (mainFilepath c) then ClassMain
  else if negb (String.eqb (Name pkg) "")
          && (negb (GoStrings.Contains (Name pkg) "/")
              && GoStrings.Contains (mainFilepath c) (Name pkg))
  then ClassMain
  else if String.eqb (mainFilepath c) "command-line-arguments" then ClassMain
  else ClassUnknown.

(** [PathPackageClassifier.Classify]. *)
Definition Classify (c : PathPackageClassifier) (pkg : Package) : PackageClass :=
  match classify_before_folders c pkg with
  | Some class => class
  | None =>
      let parentFolder := GoPath.Dir (Filepath pkg) in
      if existsb (fun folder => String.eqb parentFolder folder) (mainFolders c)
      then ClassMain
      else classify_after_folders c pkg
  end.

End Classifier.

(** The main folders as the specification words them: the directory of
    the main package's filepath and the directory of that directory. *)
Definition spec_mainFolders (mainPkgFilepath : string) : list string :=
  [GoPath.Dir mainPkgFilepath; GoPath.Dir (GoPath.Dir mainPkgFilepath)].

(** [debug.BuildInfo] as the module classifier reads it: the path, the
    path of the main module and the dependencies with their versions. *)
Record Module_ : Type := mkModule {
  mod_Path : string;
  mod_Version : string
}.

Record DebugBuildInfo : Type := mkDebugBuildInfo {
  bi_Path : string;
  bi_Main : Module_;
  bi_Deps : list Module_
}.

Record ModPackageClassifier : Type := mkModPackageClassifier {
  modInfo : DebugBuildInfo
}.

(** [NewModPackageClassifier]. *)
Definition NewModPackageClassifier (buildInfo : DebugBuildInfo) : ModPackageClassifier :=
  {| modInfo := buildInfo |}.

Section ModClassifier.

Variable stdPkgs : gset string.

(** The loop of [ModPackageClassifier.Classify] over the direct
    dependencies: the class of the first one that matches. *)
Fixpoint classify_deps (pkg : Package) (deps : list Module_) : option PackageClass :=
  match deps with
  | [] => None
  | dep :: rest =>
      if GoStrings.HasPrefix (Filepath pkg) (mod_Path dep)
         || GoStrings.HasPrefix (Name pkg) (mod_Path dep)
      then (if String.eqb (mod_Version dep) "(devel)" then Some ClassMain
            else Some ClassVendor)
      else classify_deps pkg rest
  end.

(** [ModPackageClassifier.Classify]. *)
Definition ModClassify (c : ModPackageClassifier) (pkg : Package) : PackageClass :=
  if IsStandardLibrary stdPkgs (Name pkg) then ClassSTD
  else if String.eqb (Name pkg) "main" then ClassMain
  else if negb (String.eqb (bi_Path (modInfo c)) "")
          && (GoStrings.HasPrefix (Filepath pkg) (bi_Path (modInfo c))
              || GoStrings.HasPrefix (Name pkg) (bi_Path (modInfo c)))
  then ClassMain
  else if negb (String.eqb (mod_Path (bi_Main (modInfo c))) "")
          && (GoStrings.HasPrefix (Filepath pkg) (mod_Path (bi_Main (modInfo c)))
              || GoStrings.HasPrefix (Name pkg) (mod_Path (bi_Main (modInfo c))))
  then ClassMain
  else match classify_deps pkg (bi_Deps (modInfo c)) with
       | Some class => class
       | None =>
           if isGeneratedPackage pkg then ClassGenerated
           else if GoStrings.HasPrefix (Name pkg) "_cgo_"
                   || GoStrings.HasPrefix (Name pkg) "x_cgo_"
           then ClassSTD
           else ClassVendor
       end.

End ModClassifier.

(** ** The line table of [debug/gosym], as the sources use it *)

Module GoSym.

(** A [gosym.Func]: its entry and end, and what the methods
    [PackageName], [ReceiverName] and [BaseName] of its symbol return. *)
Record Func : Type := mkFunc {
  Entry : Z;
  End_ : Z;
  PackageName : string;
  ReceiverName : string;
  BaseName : string
}.

(** A [gosym.Table]: its functions and the file and line of [PCToLine]. *)
Record Table : Type := mkTable {
  Funcs : list Func;
  fileLine : Z -> string * Z
}.

(** The method [PCToLine] of a table through a pointer that may be nil: the method
    reads [t.Funcs] first, which panics on the nil pointer. *)
Definition PCToLine (t : option Table) (pc : Z) : outcome (string * Z) :=
  match t with
  | None => Panicked "invalid memory address or nil pointer dereference"
  | Some tab => Returned (fileLine tab pc)
  end.

End GoSym.

(** ** The file handle ([file.go]) *)

Record GoVersion : Type := mkGoVersion { gv_Name : string }.

Inductive ByteOrder : Type := LittleEndian | BigEndian.

Record FileInfo : Type := mkFileInfo {
  Arch : string;
  OS : string;
  fi_ByteOrder : ByteOrder;
  WordSize : Z;
  goversion : option GoVersion
}.

Record BuildInfo : Type := mkBuildInfo {
  Compiler : option GoVersion;
  ModInfo : option DebugBuildInfo
}.

(** The normalized moduledata; [PCLNTab] reads its text address. *)
Record moduledata : Type := mkModuledata {
  TextAddr : Z;
  PCLNTabAddr : Z;
  PCLNTabLen : Z
}.

Definition moduledata_zero : moduledata := mkModuledata 0 0 0.

(** The interface [fileHandler], at the methods the embedded functions
    call.  Go's [(uint64, []byte, error)] is a triple. *)
Class fileHandler (H : Type) : Type := {
  getPCLNTABData : H -> Z * list byte * option error;
  getSectionDataFromAddress : H -> Z -> Z * list byte * option error;
  getFileInfo : H -> FileInfo;
  getBuildID : H -> string * option error
}.

(** The expensive derivations, logged where the code runs them. *)
Inductive event : Type :=
| EvExtractModuledata
| EvParsePCLNTab
| EvEnumPackages.

#[global] Instance event_eq_dec : EqDecision event.
Proof. solve_decision. Defined.

Definition count_event (e : event) (tr : list event) : nat :=
  length (filter (fun e' => e' = e) tr).

(** An address of the heap of packages: a [*Package]. *)
Abbreviation addr := nat (only parsing).

(** [GoFile].  The two [sync.Once] are their done flags.  [heap] holds
    the packages the slices point to; [trace] is the log of the
    derivations that ran.  Both are ghost state of the model. *)
Record GoFile (H : Type) : Type := mkGoFile {
  gf_BuildInfo : option BuildInfo;
  gf_FileInfo : FileInfo;
  gf_BuildID : string;
  fh : H;
  gf_stdPkgs : list addr;
  generated : list addr;
  pkgs : list addr;
  vendors : list addr;
  unknown : list addr;
  pclntab : option GoSym.Table;
  initPackagesOnce : bool;
  initPackagesError : option error;
  gf_moduledata : moduledata;
  versionError : option error;
  initModuleDataOnce : bool;
  initModuleDataError : option error;
  heap : list Package;
  trace : list event
}.
Arguments mkGoFile {H}.
Arguments gf_BuildInfo {H}. Arguments gf_FileInfo {H}. Arguments gf_BuildID {H}.
Arguments fh {H}. Arguments gf_stdPkgs {H}. Arguments generated {H}.
Arguments pkgs {H}. Arguments vendors {H}. Arguments unknown {H}.
Arguments pclntab {H}. Arguments initPackagesOnce {H}.
Arguments initPackagesError {H}. Arguments gf_moduledata {H}.
Arguments versionError {H}. Arguments initModuleDataOnce {H}.
Arguments initModuleDataError {H}. Arguments heap {H}. Arguments trace {H}.

(** [new(GoFile)] with its handler, as [Open] fills it. *)
Definition new_GoFile {H} (h : H) (fi : FileInfo) : GoFile H :=
  mkGoFile None fi "" h [] [] [] [] [] None false None moduledata_zero None
           false None [] [].

Section FieldUpdates.
Context {H : Type}.
Implicit Type f : GoFile H.

Definition set_goversion (v : option GoVersion) f : GoFile H :=
  mkGoFile (gf_BuildInfo f)
    (mkFileInfo (Arch (gf_FileInfo f)) (OS (gf_FileInfo f))
                (fi_ByteOrder (gf_FileInfo f)) (WordSize (gf_FileInfo f)) v)
    (gf_BuildID f) (fh f) (gf_stdPkgs f) (generated f) (pkgs f) (vendors f)
    (unknown f) (pclntab f) (initPackagesOnce f) (initPackagesError f)
    (gf_moduledata f) (versionError f) (initModuleDataOnce f)
    (initModuleDataError f) (heap f) (trace f).

Definition set_BuildID (id : string) f : GoFile H :=
  mkGoFile (gf_BuildInfo f) (gf_FileInfo f) id (fh f) (gf_stdPkgs f) (generated f)
    (pkgs f) (vendors f) (unknown f) (pclntab f) (initPackagesOnce f)
    (initPackagesError f) (gf_moduledata f) (versionError f)
    (initModuleDataOnce f) (initModuleDataError f) (heap f) (trace f).

Definition set_BuildInfo (bi : option BuildInfo) f : GoFile H :=
  mkGoFile bi (gf_FileInfo f) (gf_BuildID f) (fh f) (gf_stdPkgs f) (generated f)
    (pkgs f) (vendors f) (unknown f) (pclntab f) (initPackagesOnce f)
    (initPackagesError f) (gf_moduledata f) (versionError f)
    (initModuleDataOnce f) (initModuleDataError f) (heap f) (trace f).

Definition set_versionError (e : option error) f : GoFile H :=
  mkGoFile (gf_BuildInfo f) (gf_FileInfo f) (gf_BuildID f) (fh f) (gf_stdPkgs f)
    (generated f) (pkgs f) (vendors f) (unknown f) (pclntab f)
    (initPackagesOnce f) (initPackagesError f) (gf_moduledata f) e
    (initModuleDataOnce f) (initModuleDataError f) (heap f) (trace f).

(** The assignment [f.moduledata, f.initModuleDataError = ...] and the
    end of [initModuleDataOnce.Do]. *)
Definition set_moduledata (md : moduledata) (e : option error) f : GoFile H :=
  mkGoFile (gf_BuildInfo f) (gf_FileInfo f) (gf_BuildID f) (fh f) (gf_stdPkgs f)
    (generated f) (pkgs f) (vendors f) (unknown f) (pclntab f)
    (initPackagesOnce f) (initPackagesError f) md (versionError f)
    (initModuleDataOnce f) e (heap f) (trace f).

Definition set_initModuleDataOnce (b : bool) f : GoFile H :=
  mkGoFile (gf_BuildInfo f) (gf_FileInfo f) (gf_BuildID f) (fh f) (gf_stdPkgs f)
    (generated f) (pkgs f) (vendors f) (unknown f) (pclntab f)
    (initPackagesOnce f) (initPackagesError f) (gf_moduledata f) (versionError f)
    b (initModuleDataError f) (heap f) (trace f).

Definition set_pclntab (t : option GoSym.Table) f : GoFile H :=
  mkGoFile (gf_BuildInfo f) (gf_FileInfo f) (gf_BuildID f) (fh f) (gf_stdPkgs f)
    (generated f) (pkgs f) (vendors f) (unknown f) t
    (initPackagesOnce f) (initPackagesError f) (gf_moduledata f) (versionError f)
    (initModuleDataOnce f) (initModuleDataError f) (heap f) (trace f).

Definition set_initPackagesError (e : option error) f : GoFile H :=
  mkGoFile (gf_BuildInfo f) (gf_FileInfo f) (gf_BuildID f) (fh f) (gf_stdPkgs f)
    (generated f) (pkgs f) (vendors f) (unknown f) (pclntab f)
    (initPackagesOnce f) e (gf_moduledata f) (versionError f)
    (initModuleDataOnce f) (initModuleDataError f) (heap f) (trace f).

Definition set_initPackagesOnce (b : bool) f : GoFile H :=
  mkGoFile (gf_BuildInfo f) (gf_FileInfo f) (gf_BuildID f) (fh f) (gf_stdPkgs f)
    (generated f) (pkgs f) (vendors f) (unknown f) (pclntab f)
    b (initPackagesError f) (gf_moduledata f) (versionError f)
    (initModuleDataOnce f) (initModuleDataError f) (heap f) (trace f).

Definition set_heap (h : list Package) f : GoFile H :=
  mkGoFile (gf_BuildInfo f) (gf_FileInfo f) (gf_BuildID f) (fh f) (gf_stdPkgs f)
    (generated f) (pkgs f) (vendors f) (unknown f) (pclntab f)
    (initPackagesOnce f) (initPackagesError f) (gf_moduledata f) (versionError f)
    (initModuleDataOnce f) (initModuleDataError f) h (trace f).

Definition log_event (e : event) f : GoFile H :=
  mkGoFile (gf_BuildInfo f) (gf_FileInfo f) (gf_BuildID f) (fh f) (gf_stdPkgs f)
    (generated f) (pkgs f) (vendors f) (unknown f) (pclntab f)
    (initPackagesOnce f) (initPackagesError f) (gf_moduledata f) (versionError f)
    (initModuleDataOnce f) (initModuleDataError f) (heap f) (trace f ++ [e]).

(** The [switch class] of [enumPackages]: [p] is appended to the slice
    of its class. *)
Definition append_class (class : PackageClass) (p : addr) f : GoFile H :=
  let add (c : PackageClass) (l : list addr) :=
    if decide (class = c) then l ++ [p] else l in
  mkGoFile (gf_BuildInfo f) (gf_FileInfo f) (gf_BuildID f) (fh f)
    (add ClassSTD (gf_stdPkgs f)) (add ClassGenerated (generated f))
    (add ClassMain (pkgs f)) (add ClassVendor (vendors f))
    (add ClassUnknown (unknown f)) (pclntab f)
    (initPackagesOnce f) (initPackagesError f) (gf_moduledata f) (versionError f)
    (initModuleDataOnce f) (initModuleDataError f) (heap f) (trace f).

End FieldUpdates.

(** The monad of calls that may panic. *)
#[global] Instance outcome_ret : MRet outcome := fun _ a => Returned a.
#[global] Instance outcome_bind : MBind outcome :=
  fun _ _ k o => match o with Returned a => k a | Panicked r => Panicked r end.

(** [SourceFile] and [FileEntry]. *)
Record FileEntry : Type := mkFileEntry {
  fe_Name : string;
  fe_Start : Z;
  fe_End : Z
}.

Record SourceFile : Type := mkSourceFile {
  sf_Name : string;
  entries : list FileEntry
}.

(** [sort.Slice] of the source files by name, as an insertion sort (the
    order Go gives to files of equal name is not specified). *)
Fixpoint insert_by_name (sf : SourceFile) (l : list SourceFile) : list SourceFile :=
  match l with
  | [] => [sf]
  | x :: rest =>
      if String.ltb (sf_Name x) (sf_Name sf) then x :: insert_by_name sf rest
      else sf :: l
  end.

Definition sort_by_name (l : list SourceFile) : list SourceFile :=
  fold_right insert_by_name [] l.

(** The state of the first loop of [enumPackages]: the map [packages],
    the slice [allPackages] and the heap the map points into. *)
Record enum_state : Type := mkEnum {
  packages : gmap string addr;
  allPackages : list string;
  e_heap : list Package
}.

(** The [switch fp] that gives a new package its [Filepath]. *)
Definition new_filepath (fp : string) : string :=
  if String.eqb fp "<autogenerated>" || String.eqb fp "" then fp
  else GoPath.Dir fp.

Definition set_Filepath (fp : string) (p : Package) : Package :=
  mkPackage (Name p) fp (Functions p) (Methods p).

Definition set_Name (n : string) (p : Package) : Package :=
  mkPackage n (Filepath p) (Functions p) (Methods p).

(** The method or the function that [enumPackages] appends to [p] for
    the symbol [n]. *)
Definition add_symbol (n : GoSym.Func) (p : Package) : Package :=
  let fn := mkFunction (GoSym.BaseName n) (GoSym.Entry n) (GoSym.End_ n)
                       (GoSym.PackageName n) in
  if negb (String.eqb (GoSym.ReceiverName n) "") then
    mkPackage (Name p) (Filepath p) (Functions p)
              (Methods p ++ [mkMethod fn (GoSym.ReceiverName n)])
  else
    mkPackage (Name p) (Filepath p) (Functions p ++ [fn]) (Methods p).

(** One turn of [for _, n := range tab.Funcs]. *)
Definition enum_step (tab : GoSym.Table) (st : enum_state) (n : GoSym.Func) : enum_state :=
  let name := GoSym.PackageName n in
  let '(st1, p, needFilepath) :=
    match packages st !! name with
    | Some p => (st, p, false)
    | None =>
        let p := length (e_heap st) in
        (mkEnum (<[name := p]> (packages st)) (allPackages st ++ [name])
                (e_heap st ++ [mkPackage "" "" [] []]),
         p, true)
    end in
  let h2 := alter (add_symbol n) p (e_heap st1) in
  let h3 :=
    if needFilepath then
      alter (set_Filepath (new_filepath (GoSym.fileLine tab (GoSym.Entry n)).1)) p h2
    else h2 in
  mkEnum (packages st1) (allPackages st1) h3.

Definition enum_loop (tab : GoSym.Table) (funcs : list GoSym.Func) (st : enum_state)
  : enum_state :=
  fold_left (enum_step tab) funcs st.

Definition nil_deref : string := "invalid memory address or nil pointer dereference".

Section FileOps.

Context {H : Type} `{fileHandler H}.

(** What the embedded functions call and the embedded files do not
    hold: the table of the standard library, the moduledata extractor,
    the search for the compiler version, the parser of [debug/gosym]
    ([NewLineTable] then [NewTable]) and [findSourceLines]. *)
Variable stdPkgs : gset string.
Variable extractModuledata : FileInfo -> H -> moduledata * option error.
Variable findGoCompilerVersion : GoFile H -> GoVersion + error.
Variable NewTable : list byte -> Z -> GoSym.Table + error.
Variable findSourceLines : Z -> Z -> GoSym.Table -> Z * Z.

Implicit Type f : GoFile H.

(** [tryExtractCompilerVersion]. *)
Definition tryExtractCompilerVersion f : GoFile H :=
  match goversion (gf_FileInfo f) with
  | Some _ => f
  | None =>
      match findGoCompilerVersion f with
      | inr err => set_versionError (Some err) f
      | inl v => set_goversion (Some v) f
      end
  end.

(** [ensureCompilerVersion]. *)
Definition ensureCompilerVersion f : GoFile H * option error :=
  let f1 := match goversion (gf_FileInfo f) with
            | None => tryExtractCompilerVersion f
            | Some _ => f
            end in
  (f1, versionError f1).

(** [initModuleData]. *)
Definition initModuleData f : GoFile H * option error :=
  let f' :=
    if initModuleDataOnce f then f
    else
      let f1 := (ensureCompilerVersion f).1 in
      let '(md, err) := extractModuledata (gf_FileInfo f1) (fh f1) in
      set_initModuleDataOnce true
        (set_moduledata md err (log_event EvExtractModuledata f1)) in
  (f', initModuleDataError f').


(** [PCLNTab].  The parser returns a table or an error, never both nil. *)
Definition PCLNTab f : GoFile H * (GoSym.Table + error) :=
  let '(f1, err) := initModuleData f in
  match err with
  | Some e => (f1, inr e)
  | None =>
      let '(_, data, err) := getPCLNTABData (fh f1) in
      match err with
      | Some e => (f1, inr e)
      | None =>
          (log_event EvParsePCLNTab f1,
           NewTable data (TextAddr (gf_moduledata f1)))
      end
  end.

(** One turn of [for n, p := range packages]. *)
Definition classify_step (classify : Package -> PackageClass) f (np : string * addr)
  : GoFile H :=
  let f1 := set_heap (alter (set_Name np.1) np.2 (heap f)) f in
  match heap f1 !! np.2 with
  | Some pk => append_class (classify pk) np.2 f1
  | None => f1
  end.

(** The choice of the classifier in [enumPackages]: the module
    classifier with build information, else the path classifier of the
    filepath of the package [main]; [None] is the return of the error
    "no main package found". *)
Definition choose_classifier (bi : option BuildInfo) (st : enum_state)
  : option (Package -> PackageClass) :=
  match bi with
  | Some (mkBuildInfo _ (Some mi)) =>
      Some (ModClassify stdPkgs (NewModPackageClassifier mi))
  | _ =>
      match packages st !! "main" with
      | None => None
      | Some mainPkg =>
          match e_heap st !! mainPkg with
          | Some mp => Some (Classify stdPkgs (NewPathPackageClassifier (Filepath mp)))
          | None => None
          end
      end
  end.

(** [enumPackages], with [tab := f.pclntab] the table that
    [initPackages] has just stored.  [allPackages.Sort()] sorts a slice
    that is not read again.  Go leaves the order of [range] over a map
    open; here it is the order of [map_to_list]. *)
Definition enumPackages (tab : GoSym.Table) f : GoFile H * option error :=
  let f0 := log_event EvEnumPackages f in
  let st := enum_loop tab (GoSym.Funcs tab) (mkEnum ∅ [] (heap f0)) in
  let f1 := set_heap (e_heap st) f0 in
  match choose_classifier (gf_BuildInfo f1) st with
  | None => (f1, Some (ErrNew "no main package found"))
  | Some classify =>
      (fold_left (classify_step classify) (map_to_list (packages st)) f1, None)
  end.

(** [initPackages]. *)
Definition initPackages f : GoFile H * option error :=
  let f' :=
    if initPackagesOnce f then f
    else
      let '(f1, r) := PCLNTab f in
      set_initPackagesOnce true
        match r with
        | inr err => set_initPackagesError (Some err) f1
        | inl tab =>
            let f2 := set_pclntab (Some tab) f1 in
            let '(f3, err) := enumPackages tab f2 in
            set_initPackagesError err f3
        end in
  (f', initPackagesError f').

(** [GetPackages], [GetVendors], [GetSTDLib], [GetGeneratedPackages]
    and [GetUnknown]. *)
Definition GetPackages f : GoFile H * (list addr * option error) :=
  let '(f1, err) := initPackages f in (f1, (pkgs f1, err)).
Definition GetVendors f : GoFile H * (list addr * option error) :=
  let '(f1, err) := initPackages f in (f1, (vendors f1, err)).
Definition GetSTDLib f : GoFile H * (list addr * option error) :=
  let '(f1, err) := initPackages f in (f1, (gf_stdPkgs f1, err)).
Definition GetGeneratedPackages f : GoFile H * (list addr * option error) :=
  let '(f1, err) := initPackages f in (f1, (generated f1, err)).
Definition GetUnknown f : GoFile H * (list addr * option error) :=
  let '(f1, err) := initPackages f in (f1, (unknown f1, err)).

(** [findSourceLines] is handed the pointer [f.pclntab]; it is reached
    only after [PCToLine] has returned on the same pointer. *)
Definition source_lines f (entry end_ : Z) : outcome (Z * Z) :=
  match pclntab f with
  | Some tab => Returned (findSourceLines entry end_ tab)
  | None => Panicked nil_deref
  end.


(** The closure [getSourceFile] of [GetSourceFiles]. *)
Definition getSourceFile (tmp : gmap string SourceFile) (fileName : string) : SourceFile :=
  match tmp !! fileName with
  | None => mkSourceFile (GoPath.Base fileName) []
  | Some sf => sf
  end.

(** One turn of the two loops of [GetSourceFiles], for the entry of
    name [name]. *)
Definition source_file_step f (name : string) (entry end_ : Z)
    (tmp : gmap string SourceFile) : outcome (gmap string SourceFile) :=
  r ← GoSym.PCToLine (pclntab f) entry;
  se ← source_lines f entry end_;
  let e := mkFileEntry name se.1 se.2 in
  let sf := getSourceFile tmp r.1 in
  mret (<[r.1 := mkSourceFile (sf_Name sf) (entries sf ++ [e])]> tmp).

Fixpoint loop_functions f (fns : list Function) (tmp : gmap string SourceFile)
  : outcome (gmap string SourceFile) :=
  match fns with
  | [] => mret tmp
  | fn :: rest =>
      tmp1 ← source_file_step f (fn_Name fn) (fn_Offset fn) (fn_End fn) tmp;
      loop_functions f rest tmp1
  end.

Fixpoint loop_methods f (ms : list Method) (tmp : gmap string SourceFile)
  : outcome (gmap string SourceFile) :=
  match ms with
  | [] => mret tmp
  | m :: rest =>
      tmp1 ← source_file_step f (m_Receiver m ++ fn_Name (m_Function m))
               (fn_Offset (m_Function m)) (fn_End (m_Function m)) tmp;
      loop_methods f rest tmp1
  end.

(** [GetSourceFiles]. *)
Definition GetSourceFiles f (p : Package) : outcome (list SourceFile) :=
  tmp1 ← loop_functions f (Functions p) ∅;
  tmp2 ← loop_methods f (Methods p) tmp1;
  mret (sort_by_name (map_to_list tmp2).*2).

(** The slice expression [s[lo:hi]] on a slice whose capacity is its
    length. *)
Definition slice (s : list byte) (lo hi : Z) : outcome (list byte) :=
  if ((0 <=? lo) && (lo <=? hi) && (hi <=? Z.of_nat (length s)))%Z
  then Returned (take (Z.to_nat (hi - lo)) (drop (Z.to_nat lo) s))
  else Panicked "slice bounds out of range".

(** [Bytes]; [address] and [length] are [uint64]. *)
Definition Bytes f (address len : Z) : outcome (list byte * option error) :=
  let '(base, section, err) := getSectionDataFromAddress (fh f) address in
  match err with
  | Some e => Returned ([], Some e)
  | None =>
      if (Z.of_nat (length section) <? U.sub64 (U.add64 address len) base)%Z
      then Returned ([], Some (ErrNew "length out of bounds"))
      else
        bs ← slice section (U.sub64 address base)
                           (U.sub64 (U.add64 address len) base);
        mret (bs, None)
  end.

End FileOps.

(** ** The PE reader *)

(** [sort.Search]: the binary search of Go's library.  The interval
    shrinks at every turn, so [n + 1] turns are enough. *)
Fixpoint search_loop (fuel : nat) (i j : Z) (f : Z -> bool) : Z :=
  match fuel with
  | O => i
  | S fuel' =>
      if (i <? j)%Z then
        let h := Z.shiftr (i + j) 1 in
        if negb (f h) then search_loop fuel' (h + 1)%Z j f
        else search_loop fuel' i h f
      else i
  end.

Definition Search (n : Z) (f : Z -> bool) : Z :=
  search_loop (S (Z.to_nat n)) 0%Z n f.

(** [slices.Sort] on addresses, as an insertion sort. *)
Fixpoint insert_sorted (x : Z) (l : list Z) : list Z :=
  match l with
  | [] => [x]
  | y :: rest => if (x <=? y)%Z then x :: l else y :: insert_sorted x rest
  end.

Definition Sort (l : list Z) : list Z := fold_right insert_sorted [] l.

Module PE.

(** [pe.Section]: the fields of its header that the reader uses, and
    what its method [Data] returns. *)
Record Section_ : Type := mkSection {
  sec_Name : string;
  VirtualAddress : Z;
  Size : Z;
  Offset : Z;
  Data : list byte + error
}.

(** [pe.Symbol]: [Value] is [uint32], [SectionNumber] is [int16]. *)
Record Symbol : Type := mkSymbol {
  sym_Name : string;
  sym_Value : Z;
  SectionNumber : Z
}.

Inductive OptionalHeader : Type :=
| OptionalHeader32 (ImageBase : Z)
| OptionalHeader64 (ImageBase : Z)
| OptionalHeaderNone.

(** [pe.File]. *)
Record File : Type := mkFile {
  Machine : Z;
  Header : OptionalHeader;
  Sections : list Section_;
  Symbols : list Symbol
}.

(** [(f *File) Section(name)]: the first section of that name. *)
Definition Section (f : File) (name : string) : option Section_ :=
  List.find (fun s => String.eqb (sec_Name s) name) (Sections f).

Definition IMAGE_FILE_MACHINE_I386 : Z := 0x14c.

(** [sec.Data()] as the pair Go returns. *)
Definition Data_pair (s : Section_) : list byte * option error :=
  match Data s with
  | inl d => (d, None)
  | inr e => ([], Some e)
  end.

End PE.

(** The entry of the normalized symbol table. *)
Record symbol : Type := mksymbol {
  symName : string;
  symValue : Z;
  symSize : Z
}.

(** Modelled from the spec: the declarations of [symbolTableOnce] and
    [pclntabOnce] are not among the embedded files.  Each is the
    one-shot gate of the specification, section 5, "the computation runs
    at most once; subsequent callers observe the memoized result (success
    or the sticky error)": a done flag with the memoized table and error,
    and a done flag with the memoized result of the loader. *)
Record symbolTableOnce : Type := mkSymbolTableOnce {
  symtab_done : bool;
  table : gmap string symbol;
  symtab_err : option error
}.

Record pclntabOnce : Type := mkPclntabOnce {
  pcln_done : bool;
  pcln_result : Z * list byte * option error
}.

Definition newSymbolTableOnce : symbolTableOnce := mkSymbolTableOnce false ∅ None.
Definition newPclnTabOnce : pclntabOnce := mkPclntabOnce false (0%Z, [], None).

(** [peFile]; [osFile] is the path of the file it holds open. *)
Record peFile : Type := mkpeFile {
  file : PE.File;
  osFile : string;
  imageBase : Z;
  pcln : pclntabOnce;
  symtab : symbolTableOnce
}.

Definition set_symtab (t : symbolTableOnce) (p : peFile) : peFile :=
  mkpeFile (file p) (osFile p) (imageBase p) (pcln p) t.

Definition set_pcln (c : pclntabOnce) (p : peFile) : peFile :=
  mkpeFile (file p) (osFile p) (imageBase p) c (symtab p).

Definition NUndef : Z := 0.
Definition NAbs : Z := -1.
Definition NDebug : Z := -2.

Definition zero_section : PE.Section_ := PE.mkSection "" 0 0 0 (inl []).

(** The test of [initSymTab] on a section number that is none of
    [NUndef], [NAbs] and [NDebug]. *)
Definition invalid_section_number (p : peFile) (n : Z) : bool :=
  ((n <? 0) || (Z.of_nat (length (PE.Sections (file p))) <? n))%Z.

Definition is_special_section_number (n : Z) : bool :=
  ((n =? NUndef) || (n =? NAbs) || (n =? NDebug))%Z.

(** The first loop of [initSymTab]: [None] is its [return] with the
    error set.  The index [SectionNumber - 1] is in range after the test. *)
Fixpoint collect_symbols (p : peFile) (ss : list PE.Symbol)
    (syms : list symbol) (addrs : list Z) : option (list symbol * list Z) :=
  match ss with
  | [] => Some (syms, addrs)
  | s :: rest =>
      let sym := mksymbol (PE.sym_Name s) (PE.sym_Value s) 0 in
      if is_special_section_number (PE.SectionNumber s) then
        collect_symbols p rest (syms ++ [sym]) (addrs ++ [symValue sym])
      else if invalid_section_number p (PE.SectionNumber s) then None
      else
        let sect := nth (Z.to_nat (PE.SectionNumber s - 1)) (PE.Sections (file p))
                        zero_section in
        let sym' := mksymbol (symName sym)
                      (U.add64 (symValue sym)
                         (U.add64 (imageBase p) (PE.VirtualAddress sect)))
                      0 in
        collect_symbols p rest (syms ++ [sym']) (addrs ++ [symValue sym'])
  end.

(** The second loop: the size of a symbol from the next address. *)
Definition size_symbol (addrs : list Z) (sym : symbol) : symbol :=
  let j := Search (Z.of_nat (length addrs))
             (fun x => (symValue sym <? nth (Z.to_nat x) addrs 0)%Z) in
  if (j <? Z.of_nat (length addrs))%Z then
    mksymbol (symName sym) (symValue sym)
             (U.sub64 (nth (Z.to_nat j) addrs 0%Z) (symValue sym))
  else sym.

(** The third loop: [p.symtab.table[sym.Name] = sym]. *)
Definition fill_table (syms : list symbol) (t : gmap string symbol) : gmap string symbol :=
  fold_left (fun t sym => <[symName sym := sym]> t) syms t.

Definition invalid_section_error : error :=
  ErrNew "invalid section number in symbol table".

(** [initSymTab]. *)
Definition initSymTab (p : peFile) : peFile * option error :=
  let p' :=
    if symtab_done (symtab p) then p
    else
      match collect_symbols p (PE.Symbols (file p)) [] [] with
      | None =>
          set_symtab (mkSymbolTableOnce true (table (symtab p))
                        (Some invalid_section_error)) p
      | Some (syms, addrs) =>
          let addrs' := Sort addrs in
          let syms' := map (size_symbol addrs') syms in
          set_symtab (mkSymbolTableOnce true (fill_table syms' (table (symtab p)))
                        (symtab_err (symtab p))) p
      end in
  (p', symtab_err (symtab p')).

(** [hasSymbolTable]. *)
Definition hasSymbolTable (p : peFile) : peFile * (bool * option error) :=
  let '(p1, err) := initSymTab p in
  match err with
  | Some e => (p1, (false, Some e))
  | None => (p1, (bool_decide (0 < size (table (symtab p1))), None))
  end.

(** [getSymbol]. *)
Definition getSymbol (p : peFile) (name : string) : peFile * (Z * Z * option error) :=
  let '(p1, err) := initSymTab p in
  match err with
  | Some e => (p1, (0%Z, 0%Z, Some e))
  | None =>
      match table (symtab p1) !! name with
      | None => (p1, (0%Z, 0%Z, Some ErrSymbolNotFound))
      | Some sym => (p1, (symValue sym, symSize sym, None))
      end
  end.

Definition intSize32 : Z := 4.
Definition intSize64 : Z := 8.
Definition ArchAMD64 : string := "amd64".
Definition Arch386 : string := "i386".

(** [(p *peFile) getFileInfo]. *)
Definition pe_getFileInfo (p : peFile) : FileInfo :=
  if (PE.Machine (file p) =? PE.IMAGE_FILE_MACHINE_I386)%Z
  then mkFileInfo Arch386 "windows" LittleEndian intSize32 None
  else mkFileInfo ArchAMD64 "windows" LittleEndian intSize64 None.

(** The test of [getSectionDataFromAddress] on a section: the sum of
    the virtual address and the size is a [uint32] sum. *)
Definition section_holds (imageBase : Z) (section : PE.Section_) (address : Z) : bool :=
  ((U.add64 imageBase (PE.VirtualAddress section) <=? address)
   && (address <? U.add64 imageBase
                    (U.add32 (PE.VirtualAddress section) (PE.Size section))))%Z.

(** [(p *peFile) getSectionDataFromAddress]: the loop over the sections. *)
Fixpoint section_from_address (imageBase : Z) (secs : list PE.Section_) (address : Z)
  : Z * list byte * option error :=
  match secs with
  | [] => (0%Z, [], Some ErrSectionDoesNotExist)
  | section :: rest =>
      if (PE.Offset section =? 0)%Z then section_from_address imageBase rest address
      else if section_holds imageBase section address then
        let '(data, err) := PE.Data_pair section in
        (U.add64 imageBase (PE.VirtualAddress section), data, err)
      else section_from_address imageBase rest address
  end.

Definition pe_getSectionDataFromAddress (p : peFile) (address : Z)
  : Z * list byte * option error :=
  section_from_address (imageBase p) (PE.Sections (file p)) address.

(** [(p *peFile) getCodeSection]. *)
Definition pe_getCodeSection (p : peFile) : Z * list byte * option error :=
  match PE.Section (file p) ".text" with
  | None => (0%Z, [], Some ErrSectionDoesNotExist)
  | Some section =>
      let '(data, err) := PE.Data_pair section in
      (U.add64 (imageBase p) (PE.VirtualAddress section), data, err)
  end.

Section PEReader.

(** [searchSectionForTab] and [parseBuildIDFromRaw] are functions of
    the repository that the embedded files call and do not hold. *)
Variable searchSectionForTab : list byte -> ByteOrder -> list byte + error.
Variable parseBuildIDFromRaw : list byte -> string * option error.

(** The loop of [searchForPCLNTab] over the names of the sections. *)
Fixpoint search_sections (p : peFile) (names : list string)
  : Z * list byte * option error :=
  match names with
  | [] => (0%Z, [], Some ErrNoPCLNTab)
  | s :: rest =>
      match PE.Section (file p) s with
      | None => search_sections p rest
      | Some sec =>
          match PE.Data sec with
          | inr err => (0%Z, [], Some err)
          | inl secData =>
              match searchSectionForTab secData (fi_ByteOrder (pe_getFileInfo p)) with
              | inr _ => search_sections p rest
              | inl tab =>
                  let addr :=
                    U.add32 (PE.VirtualAddress sec)
                      (U.wrap 32 (Z.of_nat (length secData) - Z.of_nat (length tab))) in
                  (addr, tab, None)
              end
          end
      end
  end.

(** [searchForPCLNTab]. *)
Definition searchForPCLNTab (p : peFile) : Z * list byte * option error :=
  search_sections p [".rdata"; ".text"].

(** [getPCLNTABDataImpl]. *)
Definition getPCLNTABDataImpl (p : peFile) : Z * list byte * option error :=
  let '(start, data, err) := searchForPCLNTab p in
  (U.add64 (imageBase p) start, data, err).

(** The method [load] of the gate [p.pcln]. *)
Definition pcln_load (p : peFile) : peFile * (Z * list byte * option error) :=
  if pcln_done (pcln p) then (p, pcln_result (pcln p))
  else
    let r := getPCLNTABDataImpl p in
    (set_pcln (mkPclntabOnce true r) p, r).

(** [(p *peFile) getPCLNTABData]. *)
Definition pe_getPCLNTABData (p : peFile) : Z * list byte * option error :=
  (pcln_load p).2.

(** [(p *peFile) getBuildID]. *)
Definition pe_getBuildID (p : peFile) : string * option error :=
  let '(_, data, err) := pe_getCodeSection p in
  match err with
  | Some e => ("", Some (ErrWrap "failed to get code section: " e))
  | None => parseBuildIDFromRaw data
  end.

(** [peFile] implements [fileHandler]. *)
#[export] Instance peFile_fileHandler : fileHandler peFile := {|
  getPCLNTABData := pe_getPCLNTABData;
  getSectionDataFromAddress := pe_getSectionDataFromAddress;
  getFileInfo := pe_getFileInfo;
  getBuildID := pe_getBuildID
|}.

End PEReader.

(** Modelled from the spec: [searchSectionForTab] is not among the
    embedded files.  Section 4.1: "The header begins with one of the
    known magics (a 4-byte magic followed by two zero bytes, then a 1- or
    2-byte quantum and ptrSize, each a power of two ≤ 8).  The scan
    returns the tail of the matched region (trimmed to begin at the
    magic)"; a section without such a header is a decode failure.  The
    known magics are a parameter. *)
Module SpecScan.

Definition pow2_le8 (b : byte) : bool :=
  ((b =? 1) || (b =? 2) || (b =? 4) || (b =? 8))%Z.

Definition header_at (magics : list (list byte)) (d : list byte) : bool :=
  existsb (fun m => GoBytes.HasPrefix d m) magics &&
  match drop 4 d with
  | z1 :: z2 :: q :: ps :: _ => (z1 =? 0)%Z && (z2 =? 0)%Z && pow2_le8 q && pow2_le8 ps
  | _ => false
  end.

Fixpoint scan (magics : list (list byte)) (d : list byte) : list byte + error :=
  if header_at magics d then inl d
  else match d with
       | [] => inr ErrNoPCLNTab
       | _ :: d' => scan magics d'
       end.

Definition searchSectionForTab (magics : list (list byte))
    (secData : list byte) (_ : ByteOrder) : list byte + error :=
  scan magics secData.

End SpecScan.

(** ** Panics and [recover] *)

(** Where a call of [recover] stands.  Go's [recover] returns the value
    of the panic only when a function deferred by the panicking
    goroutine calls it; in a goroutine started by [go] there is no panic
    to recover and it returns nil. *)
Inductive recover_site : Type :=
| InDeferredCall
| InNewGoroutine.

Definition recover (site : recover_site) (panicking : option string) : option string :=
  match site with
  | InDeferredCall => panicking
  | InNewGoroutine => None
  end.

(** The named results of [openPE]. *)
Definition openPE_results : Type := option peFile * option error.

(** The function literal at the head of [openPE]: it assigns the named
    result [err] when [recover] returns a value. *)
Definition openPE_recover (site : recover_site) (panicking : option string)
    (res : openPE_results) : openPE_results :=
  match recover site panicking with
  | Some r =>
      (res.1, Some (ErrNew ("error when processing PE file, probably corrupt: " ++ r)))
  | None => res
  end.

Section OpenPE.

(** The file system ([os.Open] gives the content of a regular file or
    an error) and the parser [pe.NewFile], which may panic. *)
Variable os_Open : string -> list byte + error.
Variable pe_NewFile : list byte -> outcome (PE.File + error).

(** The statements of [openPE] after the function literal. *)
Definition openPE_body (fp : string) : outcome openPE_results :=
  match os_Open fp with
  | inr err => Returned (None, Some (ErrWrap "error when opening the file: " err))
  | inl content =>
      r ← pe_NewFile content;
      match r with
      | inr err => Returned (None, Some (ErrWrap "error when parsing the PE file: " err))
      | inl f =>
          match PE.Header f with
          | PE.OptionalHeader32 hdrImageBase
          | PE.OptionalHeader64 hdrImageBase =>
              Returned (Some (mkpeFile f fp hdrImageBase newPclnTabOnce newSymbolTableOnce),
                        None)
          | PE.OptionalHeaderNone =>
              Returned (None, Some (ErrNew "unknown optional header type"))
          end
      end
  end.

(** [openPE].  The function literal is started with [go]: it runs in a
    goroutine of its own, where [recover] finds no panic, and [openPE]
    itself defers nothing, so a panic of the body leaves [openPE]. *)
Definition openPE (fp : string) : outcome openPE_results :=
  match openPE_body fp with
  | Returned res => Returned (openPE_recover InNewGoroutine None res)
  | Panicked r => Panicked r
  end.

(** [openPE] as its comment describes it: the function literal is
    deferred, runs while the body panics and turns the panic into the
    error result. *)
Definition openPE_deferred (fp : string) : outcome openPE_results :=
  match openPE_body fp with
  | Returned res => Returned (openPE_recover InDeferredCall None res)
  | Panicked r => Returned (openPE_recover InDeferredCall (Some r) (None, None))
  end.

End OpenPE.

(** ** [Open] *)

Definition elfMagic : list byte := [0x7f; 0x45; 0x4c; 0x46]%Z.
Definition peMagic : list byte := [0x4d; 0x5a]%Z.
Definition maxMagicBufLen : Z := 4.
Definition machoMagic1 : list byte := [0xfe; 0xed; 0xfa; 0xce]%Z.
Definition machoMagic2 : list byte := [0xfe; 0xed; 0xfa; 0xcf]%Z.
Definition machoMagic3 : list byte := [0xce; 0xfa; 0xed; 0xfe]%Z.
Definition machoMagic4 : list byte := [0xcf; 0xfa; 0xed; 0xfe]%Z.

(** [fileMagicMatch]: [bytes.HasPrefix]. *)
Definition fileMagicMatch (buf magic : list byte) : bool :=
  GoBytes.HasPrefix buf magic.

(** [f.Read(buf)] at the start of a regular file of content [content],
    for a buffer of [n] zero bytes: the bytes read, the buffer and the
    error, which is [io.EOF] when the file has no byte to give. *)
Definition file_Read (content : list byte) (n : Z) : Z * list byte * option error :=
  let got := take (Z.to_nat n) content in
  let buf := got ++ replicate (Z.to_nat n - length got) 0%Z in
  (Z.of_nat (length got), buf,
   if (0 <? n)%Z && (Z.of_nat (length got) =? 0)%Z then Some EOF else None).

(** The handler of an open file: one of the three readers. *)
Inductive anyHandler (E M : Type) : Type :=
| HandlerELF (e : E)
| HandlerPE (p : peFile)
| HandlerMachO (m : M).
Arguments HandlerELF {E M} e.
Arguments HandlerPE {E M} p.
Arguments HandlerMachO {E M} m.

Section OpenFile.

(** The ELF and Mach-O readers are not among the embedded files:
    their types, their [fileHandler] methods and their openers are
    parameters, like the file system, [pe.NewFile], the scanner of the
    PE reader and [extractBuildInfo]. *)
Context {elfFile machoFile : Type}.
Context `{HE : fileHandler elfFile} `{HM : fileHandler machoFile}.
Variable os_Open : string -> list byte + error.
Variable pe_NewFile : list byte -> outcome (PE.File + error).
Variable openELF : string -> elfFile + error.
Variable openMachO : string -> machoFile + error.
Variable searchSectionForTab : list byte -> ByteOrder -> list byte + error.
Variable parseBuildIDFromRaw : list byte -> string * option error.
Variable extractBuildInfo : GoFile (anyHandler elfFile machoFile) -> BuildInfo + error.

Let handler : Type := anyHandler elfFile machoFile.
Let HP : fileHandler peFile := peFile_fileHandler searchSectionForTab parseBuildIDFromRaw.
#[local] Existing Instance HP.

#[export] Instance anyHandler_fileHandler : fileHandler handler := {|
  getPCLNTABData h :=
    match h with
    | HandlerELF e => getPCLNTABData e
    | HandlerPE p => getPCLNTABData p
    | HandlerMachO m => getPCLNTABData m
    end;
  getSectionDataFromAddress h a :=
    match h with
    | HandlerELF e => getSectionDataFromAddress e a
    | HandlerPE p => getSectionDataFromAddress p a
    | HandlerMachO m => getSectionDataFromAddress m a
    end;
  getFileInfo h :=
    match h with
    | HandlerELF e => getFileInfo e
    | HandlerPE p => getFileInfo p
    | HandlerMachO m => getFileInfo m
    end;
  getBuildID h :=
    match h with
    | HandlerELF e => getBuildID e
    | HandlerPE p => getBuildID p
    | HandlerMachO m => getBuildID m
    end
|}.

(** The end of [Open], once the handler [h] is there. *)
Definition finish_Open (h : handler) : GoFile handler :=
  let gofile := new_GoFile h (getFileInfo h) in
  let '(buildID, err) := getBuildID (fh gofile) in
  let gofile1 := match err with
                 | None => set_BuildID buildID gofile
                 | Some _ => gofile
                 end in
  match extractBuildInfo gofile1 with
  | inl bi =>
      let gofile2 := set_BuildInfo (Some bi) gofile1 in
      match Compiler bi with
      | Some v => set_goversion (Some v) gofile2
      | None => gofile2
      end
  | inr _ => gofile1
  end.

(** [Open].  The file is a regular file: [f.Seek(0, io.SeekStart)]
    on the file just opened succeeds, and [f.Close()] has its result
    dropped by the code. *)
Definition Open (filePath : string) : outcome (GoFile handler + error) :=
  match os_Open filePath with
  | inr err => Returned (inr err)
  | inl content =>
      let '(n, buf, err) := file_Read content maxMagicBufLen in
      match err with
      | Some e => Returned (inr e)
      | None =>
          if (n <? maxMagicBufLen)%Z then Returned (inr ErrNotEnoughBytesRead)
          else if fileMagicMatch buf elfMagic then
            match openELF filePath with
            | inr e => Returned (inr e)
            | inl elf => Returned (inl (finish_Open (HandlerELF elf)))
            end
          else if fileMagicMatch buf peMagic then
            r ← openPE os_Open pe_NewFile filePath;
            match r with
            | (_, Some e) => Returned (inr e)
            | (Some pe, None) => Returned (inl (finish_Open (HandlerPE pe)))
            | (None, None) => Panicked nil_deref
            end
          else if fileMagicMatch buf machoMagic1 || fileMagicMatch buf machoMagic2
                  || fileMagicMatch buf machoMagic3 || fileMagicMatch buf machoMagic4
          then
            match openMachO filePath with
            | inr e => Returned (inr e)
            | inl macho => Returned (inl (finish_Open (HandlerMachO macho)))
            end
          else Returned (inr ErrUnsupportedFile)
      end
  end.

End OpenFile.

(** ** Predicates of the statements and concrete inputs *)

(** The first function of package [q] among [pre]. *)
Definition first_of (q : string) (pre : list GoSym.Func) : option GoSym.Func :=
  List.find (fun n => String.eqb (GoSym.PackageName n) q) pre.

(** The invariant of the first loop of [enumPackages], after the
    functions [pre]: the pointers of the map are distinct and valid, a
    package is in the map when one of its functions has been seen, and
    its filepath comes from the first of them. *)
Definition enum_inv (tab : GoSym.Table) (pre : list GoSym.Func) (st : enum_state) : Prop :=
  (∀ q a, packages st !! q = Some a → a < length (e_heap st)) ∧
  (∀ q1 q2 a, packages st !! q1 = Some a → packages st !! q2 = Some a → q1 = q2) ∧
  (∀ q, match first_of q pre with
        | None => packages st !! q = None
        | Some n0 =>
            ∃ a p, packages st !! q = Some a ∧ e_heap st !! a = Some p ∧
                   Filepath p = new_filepath (GoSym.fileLine tab (GoSym.Entry n0)).1
        end).

(** A line table of four functions: [main.main], [fmt.Println], the
    method [run] of [*T] in package [main], whose file lies in another
    directory than that of [main.main], and a generated wrapper. *)
Module Sample.

Definition f_main : GoSym.Func := GoSym.mkFunc 0x401000 0x401010 "main" "" "main".
Definition f_println : GoSym.Func := GoSym.mkFunc 0x401010 0x401020 "fmt" "" "Println".
Definition f_run : GoSym.Func := GoSym.mkFunc 0x401020 0x401030 "main" "*T" "run".
Definition f_eq : GoSym.Func := GoSym.mkFunc 0x401030 0x401040 "type..eq" "" "T".

Definition fileLine (pc : Z) : string * Z :=
  if (pc =? 0x401000)%Z then ("/home/u/proj/cmd/main.go", 10%Z)
  else if (pc =? 0x401010)%Z then ("/usr/local/go/src/fmt/print.go", 200%Z)
  else if (pc =? 0x401020)%Z then ("/home/u/proj/cmd/other/t.go", 5%Z)
  else if (pc =? 0x401030)%Z then ("<autogenerated>", 1%Z)
  else ("", 0%Z).

Definition tab : GoSym.Table := GoSym.mkTable [f_main; f_println; f_run; f_eq] fileLine.

(** The same table without the functions of package [main]. *)
Definition tab_no_main : GoSym.Table := GoSym.mkTable [f_println; f_eq] fileLine.

Definition stdPkgs : gset string := {["fmt"]}.

(** A PE image at base 0x400000: 64 bytes of code at 0x1000, read-only
    data at 0x2000 with a line-table header at offset 0x200, and a
    section that exists in memory only. *)
Definition magic : list byte := [0xf1; 0xff; 0xff; 0xff]%Z.
Definition header : list byte := magic ++ [0; 0; 1; 8]%Z ++ replicate 24 0%Z.
Definition text_data : list byte := replicate 64 0x90%Z.
Definition rdata_data : list byte := replicate 0x200 0%Z ++ header.

Definition sec_text : PE.Section_ := PE.mkSection ".text" 0x1000 64 0x400 (inl text_data).
Definition sec_rdata : PE.Section_ :=
  PE.mkSection ".rdata" 0x2000 0x220 0x600 (inl rdata_data).
Definition sec_bss : PE.Section_ := PE.mkSection ".bss" 0x3000 0x100 0 (inl []).

Definition symbols : list PE.Symbol :=
  [PE.mkSymbol "main.main" 0 1; PE.mkSymbol "runtime.rodata" 0x10 2;
   PE.mkSymbol "main.run" 0x20 1].

Definition pe_of (secs : list PE.Section_) (syms : list PE.Symbol) : peFile :=
  mkpeFile (PE.mkFile 0x8664 (PE.OptionalHeader64 0x400000) secs syms)
           "sample.exe" 0x400000 newPclnTabOnce newSymbolTableOnce.

Definition pe : peFile := pe_of [sec_text; sec_rdata; sec_bss] symbols.

(** The functions the file operations take as parameters. *)
Definition scanner : list byte -> ByteOrder -> list byte + error :=
  SpecScan.searchSectionForTab [magic].
Definition parseBuildID (_ : list byte) : string * option error := ("sample-id", None).
Definition extractModuledata (_ : FileInfo) (_ : peFile) : moduledata * option error :=
  (mkModuledata 0x401000 0x402200 32, None).
Definition findVersion (_ : GoFile peFile) : GoVersion + error :=
  inl (mkGoVersion "go1.20").
Definition NewTable (t : GoSym.Table) (_ : list byte) (_ : Z) : GoSym.Table + error :=
  inl t.
Definition findSourceLines (entry end_ : Z) (t : GoSym.Table) : Z * Z :=
  ((GoSym.fileLine t entry).2, (GoSym.fileLine t entry).2 + 3)%Z.

#[global] Instance handler : fileHandler peFile := peFile_fileHandler scanner parseBuildID.

(** The handle of the sample image, as [Open] leaves it. *)
Definition gofile_of (p : peFile) : GoFile peFile := new_GoFile p (pe_getFileInfo p).
Definition gofile : GoFile peFile := gofile_of pe.

End Sample.


(** A handle on which no gate has run yet. *)
Definition fresh {H} (f : GoFile H) : Prop :=
  initPackagesOnce f = false ∧ initModuleDataOnce f = false ∧
  pclntab f = None ∧ trace f = [].

(** [f.BuildInfo != nil && f.BuildInfo.ModInfo != nil]. *)
Definition has_ModInfo (bi : option BuildInfo) : bool :=
  match bi with
  | Some (mkBuildInfo _ (Some _)) => true
  | _ => false
  end.

(** A package that lies next to the grandparent of the main package of
    ["/home/u/proj/cmd"]. *)
Definition pkg_beside_grandparent : Package := mkPackage "x" "/home/u/x" [] [].

(** The fields that the gates and the log read are untouched by a change
    of the version, of the moduledata, of the heap or of the classes. *)
Definition same_gates {H} (f g : GoFile H) : Prop :=
  trace g = trace f ∧ initModuleDataOnce g = initModuleDataOnce f ∧
  initPackagesOnce g = initPackagesOnce f ∧ pclntab g = pclntab f ∧ fh g = fh f.

(** What [searchForPCLNTab] meets at a section name. *)
Inductive scan_result : Type :=
| ScanAbsent
| ScanUnreadable (e : error)
| ScanNoHeader
| ScanFound (sec : PE.Section_) (secData tab : list byte).

Definition scan_of (scanner : list byte -> ByteOrder -> list byte + error)
    (p : peFile) (name : string) : scan_result :=
  match PE.Section (file p) name with
  | None => ScanAbsent
  | Some sec =>
      match PE.Data sec with
      | inr e => ScanUnreadable e
      | inl d =>
          match scanner d (fi_ByteOrder (pe_getFileInfo p)) with
          | inr _ => ScanNoHeader
          | inl tab => ScanFound sec d tab
          end
      end
  end.

(** The address [getPCLNTABDataImpl] gives to the table [tab] found in
    the data [secData] of [sec]: a [uint32] sum, then a [uint64] sum. *)
Definition found_address (p : peFile) (sec : PE.Section_) (secData tab : list byte) : Z :=
  U.add64 (imageBase p)
    (U.add32 (PE.VirtualAddress sec)
       (U.wrap 32 (Z.of_nat (length secData) - Z.of_nat (length tab)))).

(** A symbol whose section number [initSymTab] rejects. *)
Definition rejected_symbol (p : peFile) (s : PE.Symbol) : bool :=
  negb (is_special_section_number (PE.SectionNumber s))
  && invalid_section_number p (PE.SectionNumber s).

Definition out_of_bounds : error := ErrNew "length out of bounds".

(** More sample inputs for the PE reader. *)
Module SamplePE.

(** A section that starts where the code of the sample image ends. *)
Definition sec_next : PE.Section_ :=
  PE.mkSection ".text2" 0x1040 16 0x440 (inl (replicate 16 0xcc%Z)).

Definition pe_adjacent : peFile :=
  Sample.pe_of [Sample.sec_text; sec_next] Sample.symbols.

(** The sample image with read-only data that cannot be read. *)
Definition sec_rdata_unreadable : PE.Section_ :=
  PE.mkSection ".rdata" 0x2000 0x220 0x600 (inr (ErrOS 5)).

Definition pe_unreadable : peFile :=
  Sample.pe_of [Sample.sec_text; sec_rdata_unreadable] Sample.symbols.

(** The sample image with a symbol of section number 7 between two
    symbols in range; the image has three sections. *)
Definition symbols_bad : list PE.Symbol :=
  [PE.mkSymbol "main.main" 0 1; PE.mkSymbol "broken" 0x10 7;
   PE.mkSymbol "main.run" 0x20 1].

Definition pe_bad_symbol : peFile :=
  Sample.pe_of [Sample.sec_text; Sample.sec_rdata; Sample.sec_bss] symbols_bad.

(** A function whose end lies past the 64 bytes of code. *)
Definition fn_past_end : Function := mkFunction "last" 0x401030 0x401050 "main".

(** A function whose end lies before its entry. *)
Definition fn_inverted : Function := mkFunction "odd" 0x401030 0x401020 "main".

End SamplePE.

(** A file system and a PE parser for [Open]: a file with the PE magic,
    an empty file, a file of three bytes and a text file.  The parser is
    a stand-in with a panic put into it: [pe.NewFile] is a parameter of
    [openPE], and the sample panics on the first file to show a parser
    that panics, whatever the bytes on which a given version of
    [debug/pe] does.  The sample has no ELF and no Mach-O reader. *)
Module SampleOpen.

Definition corrupt_pe : list byte := [0x4d; 0x5a; 0x90; 0x00; 0xff; 0xff]%Z.

Definition os_Open (path : string) : list byte + error :=
  if String.eqb path "corrupt.exe" then inl corrupt_pe
  else if String.eqb path "empty" then inl []
  else if String.eqb path "short" then inl [0x4d; 0x5a; 0x90]%Z
  else if String.eqb path "notes.txt" then inl [0x68; 0x65; 0x6c; 0x6c; 0x6f]%Z
  else inr (ErrOS 2).

Definition parser_panic : string := "runtime error: slice bounds out of range".

Definition pe_NewFile (content : list byte) : outcome (PE.File + error) :=
  if GoBytes.HasPrefix content [0x4d; 0x5a; 0x90; 0x00]%Z then Panicked parser_panic
  else Returned (inr (ErrOS 1)).

Definition no_reader : fileHandler Empty_set := {|
  getPCLNTABData := fun e : Empty_set =>
    match e return Z * list byte * option error with end;
  getSectionDataFromAddress := fun (e : Empty_set) (_ : Z) =>
    match e return Z * list byte * option error with end;
  getFileInfo := fun e : Empty_set => match e return FileInfo with end;
  getBuildID := fun e : Empty_set => match e return string * option error with end
|}.

Definition open_none (_ : string) : Empty_set + error := inr (ErrOS 0).

Definition extractBuildInfo (_ : GoFile (anyHandler Empty_set Empty_set))
  : BuildInfo + error := inr (ErrOS 0).

Definition open (path : string)
  : outcome (GoFile (anyHandler Empty_set Empty_set) + error) :=
  @Open Empty_set Empty_set no_reader no_reader os_Open pe_NewFile open_none open_none
        Sample.scanner Sample.parseBuildID extractBuildInfo path.

End SampleOpen.

(** ** The rest of the embedded files *)

(** [GoType], at the two fields that [sortTypes] reads; the rest of its
    declaration is not among the embedded files. *)
Record GoType : Type := mkGoType {
  gt_PackagePath : string;
  gt_Name : string
}.

(** [sort.Slice] with the comparison [less], as an insertion sort (the
    order Go gives to elements that compare equal is not specified). *)
Fixpoint insert_by {A : Type} (less : A -> A -> bool) (v : A) (l : list A) : list A :=
  match l with
  | [] => [v]
  | x :: rest => if less x v then x :: insert_by less v rest else v :: l
  end.

Definition sort_by {A : Type} (less : A -> A -> bool) (l : list A) : list A :=
  fold_right (insert_by less) [] l.

(** The comparison that [sortTypes] hands to [sort.Slice]. *)
Definition type_less (a b : GoType) : bool :=
  if String.eqb (gt_PackagePath a) (gt_PackagePath b)
  then String.ltb (gt_Name a) (gt_Name b)
  else String.ltb (gt_PackagePath a) (gt_PackagePath b).

(** [sortTypes]: the types of the map, in the order of [range] (here
    that of [map_to_list]), then sorted. *)
Definition sortTypes (types : gmap Z GoType) : list GoType :=
  sort_by type_less (map_to_list types).*2.

Section MoreFileOps.

Context {H : Type} `{HH : fileHandler H}.

(** [ResolveGoVersion] and [getTypes] are functions of the repository
    that the embedded files call and do not hold. *)
Variable stdPkgs : gset string.
Variable extractModuledata : FileInfo -> H -> moduledata * option error.
Variable findGoCompilerVersion : GoFile H -> GoVersion + error.
Variable NewTable : list byte -> Z -> GoSym.Table + error.
Variable ResolveGoVersion : string -> option GoVersion.
Variable getTypes : FileInfo -> H -> moduledata -> gmap Z GoType + error.

Implicit Type f : GoFile H.

(** [GetCompilerVersion]. *)
Definition GetCompilerVersion f : GoFile H * (option GoVersion * option error) :=
  let '(f1, err) := ensureCompilerVersion findGoCompilerVersion f in
  match err with
  | Some e => (f1, (None, Some e))
  | None => (f1, (goversion (gf_FileInfo f1), None))
  end.

(** [SetGoVersion]. *)
Definition SetGoVersion (version : string) f : GoFile H * option error :=
  match ResolveGoVersion version with
  | None => (f, Some ErrInvalidGoVersion)
  | Some gv => (set_goversion (Some gv) f, None)
  end.

(** [GetTypes]. *)
Definition GetTypes f : GoFile H * (list GoType * option error) :=
  let '(f1, err) := ensureCompilerVersion findGoCompilerVersion f in
  match err with
  | Some e => (f1, ([], Some e))
  | None =>
      let '(f2, err) := initModuleData extractModuledata findGoCompilerVersion f1 in
      match err with
      | Some e => (f2, ([], Some e))
      | None =>
          let md := gf_moduledata f2 in
          match getTypes (gf_FileInfo f2) (fh f2) md with
          | inr e => (f2, ([], Some e))
          | inl t =>
              let '(f3, err) :=
                initPackages stdPkgs extractModuledata findGoCompilerVersion NewTable f2 in
              match err with
              | Some e => (f3, ([], Some e))
              | None => (f3, (sortTypes t, None))
              end
          end
      end
  end.

End MoreFileOps.

(** [(p *peFile) getRData]. *)
Definition pe_getRData (p : peFile) : list byte * option error :=
  match PE.Section (file p) ".rdata" with
  | None => ([], Some ErrSectionDoesNotExist)
  | Some section => PE.Data_pair section
  end.

(** [(p *peFile) getSectionData]. *)
Definition pe_getSectionData (p : peFile) (name : string) : Z * list byte * option error :=
  match PE.Section (file p) name with
  | None => (0%Z, [], Some ErrSectionDoesNotExist)
  | Some section =>
      let '(data, err) := PE.Data_pair section in
      (U.add64 (imageBase p) (PE.VirtualAddress section), data, err)
  end.

(** ** Predicates of the further statements *)

(** The [Function] and the [Method] that [enumPackages] builds from a
    function of the line table. *)
Definition to_function (n : GoSym.Func) : Function :=
  mkFunction (GoSym.BaseName n) (GoSym.Entry n) (GoSym.End_ n) (GoSym.PackageName n).

Definition to_method (n : GoSym.Func) : Method :=
  mkMethod (to_function n) (GoSym.ReceiverName n).

(** The functions of the line table that belong to package [q], without
    and with a receiver, in the order of the table. *)
Definition functions_of (q : string) (funcs : list GoSym.Func) : list Function :=
  map to_function
    (List.filter (fun n => String.eqb (GoSym.PackageName n) q
                           && String.eqb (GoSym.ReceiverName n) "") funcs).

Definition methods_of (q : string) (funcs : list GoSym.Func) : list Method :=
  map to_method
    (List.filter (fun n => String.eqb (GoSym.PackageName n) q
                           && negb (String.eqb (GoSym.ReceiverName n) "")) funcs).

(** The slice of the handle that holds the packages of a class. *)
Definition class_list {H} (c : PackageClass) (f : GoFile H) : list nat :=
  match c with
  | ClassSTD => gf_stdPkgs f
  | ClassGenerated => generated f
  | ClassMain => pkgs f
  | ClassVendor => vendors f
  | ClassUnknown => unknown f
  end.

(** The value [initSymTab] gives to a symbol whose section number it
    accepts. *)
Definition biased_value (p : peFile) (s : PE.Symbol) : Z :=
  if is_special_section_number (PE.SectionNumber s) then PE.sym_Value s
  else U.add64 (PE.sym_Value s)
         (U.add64 (imageBase p)
            (PE.VirtualAddress
               (nth (Z.to_nat (PE.SectionNumber s - 1)) (PE.Sections (file p))
                    zero_section))).

(** The least element of [l] above [v]. *)
Definition least_above (v : Z) (l : list Z) : option Z :=
  fold_right (fun a acc =>
                if (v <? a)%Z then
                  match acc with
                  | Some m => Some (Z.min a m)
                  | None => Some a
                  end
                else acc) None l.

(** The last symbol of the file that carries the name [name]. *)
Definition last_named (name : string) (ss : list PE.Symbol) : option PE.Symbol :=
  List.find (fun s => String.eqb (PE.sym_Name s) name) (rev ss).

(** No element is followed by one that [less] puts before it. *)
Definition ordered_by {A : Type} (less : A -> A -> bool) (l : list A) : Prop :=
  ∀ i j a b, (i < j)%nat → l !! i = Some a → l !! j = Some b → less b a = false.

(** The number of entries of a list of source files. *)
Definition count_entries (l : list SourceFile) : nat :=
  sum_list (map (fun sf => length (entries sf)) l).

(** The record of package [q] after the first loop of [enumPackages] has
    seen the functions [pre]: each package of the map has the filepath of
    its first function and the functions and methods of [q] among [pre],
    in their order; the name is not set yet. *)
Definition enum_content (tab : GoSym.Table) (pre : list GoSym.Func) (st : enum_state) : Prop :=
  ∀ q a, packages st !! q = Some a →
    ∃ n0, first_of q pre = Some n0 ∧
          e_heap st !! a
          = Some (mkPackage "" (new_filepath (GoSym.fileLine tab (GoSym.Entry n0)).1)
                            (functions_of q pre) (methods_of q pre)).

(** The package that the second loop of [enumPackages] classifies at the
    entry [np] of the map, in the heap [h] left by the first loop. *)
Definition named_at (h : list Package) (np : string * nat) : option Package :=
  set_Name np.1 <$> h !! np.2.

(** The comparison that [GetSourceFiles] hands to [sort.Slice]. *)
Definition name_less (a b : SourceFile) : bool := String.ltb (sf_Name a) (sf_Name b).

(** A file that starts with the PE magic and that [pe.NewFile] parses
    into the sample image. *)
Module SampleOpenPE.

Definition image : list byte := [0x4d; 0x5a; 0x90; 0x00]%Z.

Definition os_Open (_ : string) : list byte + error := inl image.

Definition pe_NewFile (_ : list byte) : outcome (PE.File + error) :=
  Returned (inl (file Sample.pe)).

Definition open (path : string)
  : outcome (GoFile (anyHandler Empty_set Empty_set) + error) :=
  @Open Empty_set Empty_set SampleOpen.no_reader SampleOpen.no_reader os_Open pe_NewFile
        SampleOpen.open_none SampleOpen.open_none
        Sample.scanner Sample.parseBuildID SampleOpen.extractBuildInfo path.

End SampleOpenPE.

(** What the five getters of the package lists return on a handle, one
    after the other. *)
Definition all_packages {H} (getters : list (GoFile H -> GoFile H * (list nat * option error)))
    (f : GoFile H) : list nat :=
  concat (map (fun get => (get f).2.1) getters).

(** The section that holds an address for [getSectionDataFromAddress]:
    the first one, in the order of the section table, that is kept in
    the file (its offset is not 0) and whose range holds the address. *)
Definition holding_section (imageBase : Z) (secs : list PE.Section_) (address : Z)
    (sec : PE.Section_) : Prop :=
  ∃ i : nat,
    secs !! i = Some sec ∧ PE.Offset sec ≠ 0%Z ∧
    section_holds imageBase sec address = true ∧
    ∀ (j : nat) (sec' : PE.Section_), (j < i)%nat → secs !! j = Some sec' →
      PE.Offset sec' = 0%Z ∨ section_holds imageBase sec' address = false.

(** No section kept in the file holds the address. *)
Definition no_holding_section (imageBase : Z) (secs : list PE.Section_) (address : Z)
  : Prop :=
  ∀ sec, sec ∈ secs → PE.Offset sec ≠ 0%Z → section_holds imageBase sec address = false.

(** * Properties *)

(** ** Package enumeration *)

Lemma first_of_snoc q pre n :
  first_of q (pre ++ [n]) =
  match first_of q pre with
  | Some n0 => Some n0
  | None => if String.eqb (GoSym.PackageName n) q then Some n else None
  end.
Proof.
  unfold first_of. induction pre as [|x pre IH]; simpl.
  - reflexivity.
  - destruct (String.eqb (GoSym.PackageName x) q); [reflexivity | exact IH].
Qed.

Lemma first_of_app q l1 l2 :
  first_of q (l1 ++ l2) =
  match first_of q l1 with
  | Some n0 => Some n0
  | None => first_of q l2
  end.
Proof.
  unfold first_of. induction l1 as [|x l1 IH]; simpl.
  - reflexivity.
  - destruct (String.eqb (GoSym.PackageName x) q); [reflexivity | exact IH].
Qed.

Lemma first_of_None q pre :
  first_of q pre = None ↔ ∀ n, n ∈ pre → GoSym.PackageName n ≠ q.
Proof.
  unfold first_of. induction pre as [|x pre IH]; simpl.
  - split; [intros _ n Hn; inversion Hn | reflexivity].
  - destruct (String.eqb_spec (GoSym.PackageName x) q) as [Heq|Hne].
    + split; [discriminate|]. intros Hall. exfalso. apply (Hall x); [left | exact Heq].
    + rewrite IH. split.
      * intros Hall n Hn. apply elem_of_cons in Hn as [->|Hn]; auto.
      * intros Hall n Hn. apply Hall. by right.
Qed.

Lemma Filepath_add_symbol n p : Filepath (add_symbol n p) = Filepath p.
Proof. unfold add_symbol. by destruct (negb _). Qed.

Lemma enum_inv_init tab h : enum_inv tab [] (mkEnum ∅ [] h).
Proof.
  split; [|split]; simpl.
  - intros q a Hq. by rewrite lookup_empty in Hq.
  - intros q1 q2 a Hq. by rewrite lookup_empty in Hq.
  - intros q. apply lookup_empty.
Qed.

Lemma enum_step_seen tab st n a :
  packages st !! GoSym.PackageName n = Some a →
  enum_step tab st n =
  mkEnum (packages st) (allPackages st) (alter (add_symbol n) a (e_heap st)).
Proof. intros Hq. unfold enum_step. cbv zeta. by rewrite Hq. Qed.

Lemma enum_step_new tab st n :
  packages st !! GoSym.PackageName n = None →
  enum_step tab st n =
  mkEnum (<[GoSym.PackageName n := length (e_heap st)]> (packages st))
         (allPackages st ++ [GoSym.PackageName n])
         (e_heap st ++
          [set_Filepath (new_filepath (GoSym.fileLine tab (GoSym.Entry n)).1)
             (add_symbol n (mkPackage "" "" [] []))]).
Proof.
  intros Hq. unfold enum_step. cbv zeta. rewrite Hq. simpl. f_equal.
  rewrite !alter_app_r_alt by (rewrite ?length_alter, ?length_app; simpl; lia).
  rewrite Nat.sub_diag. reflexivity.
Qed.

Lemma enum_step_inv tab pre st n :
  enum_inv tab pre st → enum_inv tab (pre ++ [n]) (enum_step tab st n).
Proof.
  intros (Hlt & Hinj & Hfp).
  destruct (packages st !! GoSym.PackageName n) as [a|] eqn:Hq.
  - rewrite (enum_step_seen _ _ _ _ Hq). split; [|split]; simpl.
    + intros q b Hb. rewrite length_alter. eauto.
    + exact Hinj.
    + intros q. rewrite first_of_snoc. specialize (Hfp q).
      destruct (first_of q pre) as [n0|].
      * destruct Hfp as (b & p & Hb & Hp & Hf).
        destruct (decide (a = b)) as [->|Hne].
        -- exists b, (add_symbol n p). split; [done|]. split.
           ++ by rewrite list_lookup_alter_eq, Hp.
           ++ by rewrite Filepath_add_symbol.
        -- exists b, p. split; [done|]. split; [|done].
           by rewrite list_lookup_alter_ne.
      * destruct (String.eqb_spec (GoSym.PackageName n) q) as [<-|Hne]; [congruence | done].
  - rewrite (enum_step_new _ _ _ Hq). split; [|split]; simpl.
    + intros q b Hb. rewrite length_app. simpl.
      apply lookup_insert_Some in Hb as [[_ <-]|[_ Hb]]; [lia|].
      apply Hlt in Hb. lia.
    + intros q1 q2 b H1 H2.
      apply lookup_insert_Some in H1 as [[<- <-]|[Hn1 H1]];
        apply lookup_insert_Some in H2 as [[<- Hb]|[Hn2 H2]]; try done.
      * apply Hlt in H2. lia.
      * apply Hlt in H1. lia.
      * eauto.
    + intros q. rewrite first_of_snoc. specialize (Hfp q).
      destruct (first_of q pre) as [n0|].
      * destruct Hfp as (b & p & Hb & Hp & Hf).
        exists b, p. split.
        -- rewrite lookup_insert_ne; [done|]. congruence.
        -- split; [|done]. rewrite lookup_app_l; [done|]. by eapply lookup_lt_Some.
      * destruct (String.eqb_spec (GoSym.PackageName n) q) as [<-|Hne].
        -- eexists _, _. split; [apply lookup_insert_eq|]. split.
           ++ by rewrite list_lookup_middle.
           ++ simpl. reflexivity.
        -- by rewrite lookup_insert_ne.
Qed.

Lemma enum_loop_inv tab l : ∀ pre st,
  enum_inv tab pre st → enum_inv tab (pre ++ l) (enum_loop tab l st).
Proof.
  induction l as [|n l IH]; intros pre st Hinv; simpl.
  - by rewrite app_nil_r.
  - replace (pre ++ n :: l) with ((pre ++ [n]) ++ l) by (by rewrite <- app_assoc).
    apply IH. by apply enum_step_inv.
Qed.

(** A package keeps its pointer through the rest of the loop. *)
Lemma enum_step_keeps tab st n q a :
  packages st !! q = Some a → packages (enum_step tab st n) !! q = Some a.
Proof.
  intros Hq.
  destruct (packages st !! GoSym.PackageName n) as [b|] eqn:Hn.
  - by rewrite (enum_step_seen _ _ _ _ Hn).
  - rewrite (enum_step_new _ _ _ Hn). simpl.
    rewrite lookup_insert_ne; [done|]. congruence.
Qed.

Lemma enum_loop_keeps tab l : ∀ st q a,
  packages st !! q = Some a → packages (enum_loop tab l st) !! q = Some a.
Proof.
  induction l as [|n l IH]; intros st q a Hq; simpl; [done|].
  apply IH. by apply enum_step_keeps.
Qed.

(** After the functions [l], the map holds the packages seen in [l]. *)
Lemma enum_loop_dom tab l h q :
  is_Some (packages (enum_loop tab l (mkEnum ∅ [] h)) !! q) ↔
  ∃ n, n ∈ l ∧ GoSym.PackageName n = q.
Proof.
  destruct (enum_loop_inv tab l [] _ (enum_inv_init tab h)) as (_ & _ & Hfp).
  simpl in Hfp. specialize (Hfp q).
  destruct (first_of q l) as [n0|] eqn:Hfirst.
  - destruct Hfp as (a & p & Ha & _). split; [intros _|by eauto].
    apply find_some in Hfirst as [Hin Heq]. exists n0.
    split; [by apply list_elem_of_In | by apply String.eqb_eq].
  - rewrite Hfp. split; [by intros [? ?]|].
    intros (n & Hin & Heq). exfalso.
    by apply (proj1 (first_of_None q l) Hfirst n).
Qed.

Lemma enum_loop_app tab l1 l2 st :
  enum_loop tab (l1 ++ l2) st = enum_loop tab l2 (enum_loop tab l1 st).
Proof. apply fold_left_app. Qed.

Lemma new_filepath_sentinel fp :
  fp = "<autogenerated>" ∨ fp = "" → new_filepath fp = fp.
Proof. by intros [-> | ->]. Qed.

Lemma new_filepath_dir fp :
  fp ≠ "<autogenerated>" → fp ≠ "" → new_filepath fp = GoPath.Dir fp.
Proof.
  intros H1 H2. unfold new_filepath.
  destruct (String.eqb_spec fp "<autogenerated>"); [done|].
  by destruct (String.eqb_spec fp "").
Qed.

(** The second loop of [enumPackages] writes the names only: every
    package of the heap keeps its filepath. *)
Lemma classify_step_filepath {H : Type} (classify : Package → PackageClass)
    (f : GoFile H) (np : string * nat) (a : nat) :
  Filepath <$> heap (classify_step classify f np) !! a = Filepath <$> heap f !! a.
Proof.
  unfold classify_step. simpl.
  assert (Hh : Filepath <$> alter (set_Name np.1) np.2 (heap f) !! a
               = Filepath <$> heap f !! a).
  { destruct (decide (np.2 = a)) as [<-|Hne].
    - rewrite list_lookup_alter_eq. by destruct (heap f !! np.2).
    - by rewrite list_lookup_alter_ne. }
  by destruct (alter (set_Name np.1) np.2 (heap f) !! np.2).
Qed.

Lemma classify_loop_filepath {H : Type} (classify : Package → PackageClass)
    (l : list (string * nat)) (a : nat) : ∀ f : GoFile H,
  Filepath <$> heap (fold_left (classify_step classify) l f) !! a
  = Filepath <$> heap f !! a.
Proof.
  induction l as [|np l IH]; intros f; simpl; [done|].
  by rewrite IH, classify_step_filepath.
Qed.

Lemma enumPackages_filepath {H : Type} (stdPkgs : gset string) (tab : GoSym.Table)
    (f : GoFile H) (a : nat) :
  Filepath <$> heap (enumPackages stdPkgs tab f).1 !! a
  = Filepath <$> e_heap (enum_loop tab (GoSym.Funcs tab) (mkEnum ∅ [] (heap f))) !! a.
Proof.
  unfold enumPackages. simpl.
  destruct (choose_classifier _ _ _) as [classify|]; simpl; [|done].
  by rewrite classify_loop_filepath.
Qed.

(** C9.  In [enumPackages] on the line table [tab], whose functions are
    [pre], then [n], then [suf1], then [suf2], with [n] the first function
    of its package (none of [pre] has its package name): after any
    functions [l] the map of the first loop holds exactly the packages
    whose name a function of [l] carries, so the package of [n] is not in
    the map before [n]; after [n] and any further functions [suf1] it is
    in the map at the pointer allocated at [n], with the filepath given at
    [n], and it has that filepath in the heap that [enumPackages] leaves;
    the filepath is the file of [PCToLine n.Entry] itself when that file
    is "<autogenerated>" or empty, its directory otherwise. *)
Theorem enumPackages_filepath_set_once
    {H : Type} (stdPkgs : gset string) (tab : GoSym.Table) (f : GoFile H)
    (pre suf1 suf2 : list GoSym.Func) (n : GoSym.Func) :
  GoSym.Funcs tab = pre ++ n :: suf1 ++ suf2 →
  (∀ n', n' ∈ pre → GoSym.PackageName n' ≠ GoSym.PackageName n) →
  let init := mkEnum ∅ [] (heap f) in
  let before := enum_loop tab pre init in
  let after := enum_loop tab (pre ++ n :: suf1) init in
  let fp := (GoSym.fileLine tab (GoSym.Entry n)).1 in
  let filepath := if String.eqb fp "<autogenerated>" || String.eqb fp ""
                  then fp else GoPath.Dir fp in
  (∀ l q, is_Some (packages (enum_loop tab l init) !! q) ↔
          ∃ n', n' ∈ l ∧ GoSym.PackageName n' = q) ∧
  packages before !! GoSym.PackageName n = None ∧
  packages after !! GoSym.PackageName n = Some (length (e_heap before)) ∧
  Filepath <$> e_heap after !! length (e_heap before) = Some filepath ∧
  Filepath <$> heap (enumPackages stdPkgs tab f).1 !! length (e_heap before)
  = Some filepath.
Proof.
  intros Hfuncs Hfirst init before after fp filepath.
  assert (Hnone : packages before !! GoSym.PackageName n = None).
  { destruct (packages before !! GoSym.PackageName n) eqn:Hq; [|done].
    exfalso. assert (Hs : is_Some (packages before !! GoSym.PackageName n)) by eauto.
    apply enum_loop_dom in Hs as (n' & Hin & Heq). by apply (Hfirst n'). }
  assert (Hat : ∀ suf, packages (enum_loop tab (pre ++ n :: suf) init)
                         !! GoSym.PackageName n = Some (length (e_heap before))).
  { intros suf. rewrite enum_loop_app. fold before. simpl.
    apply enum_loop_keeps. rewrite (enum_step_new _ _ _ Hnone). simpl.
    apply lookup_insert_eq. }
  assert (Hpath : ∀ suf, Filepath <$> e_heap (enum_loop tab (pre ++ n :: suf) init)
                           !! length (e_heap before) = Some filepath).
  { intros suf.
    destruct (enum_loop_inv tab (pre ++ n :: suf) [] _ (enum_inv_init tab (heap f)))
      as (_ & _ & Hfp).
    simpl in Hfp. specialize (Hfp (GoSym.PackageName n)).
    assert (Hfo : first_of (GoSym.PackageName n) (pre ++ n :: suf) = Some n).
    { rewrite first_of_app, (proj2 (first_of_None _ _) Hfirst).
      unfold first_of. simpl. by rewrite String.eqb_refl. }
    rewrite Hfo in Hfp. destruct Hfp as (a & p & Ha & Hp & Hf).
    fold init in Ha, Hp. rewrite Hat in Ha. injection Ha as <-.
    rewrite Hp. simpl. by rewrite Hf. }
  split; [intros l q; apply enum_loop_dom|]. split; [exact Hnone|].
  split; [apply Hat|]. split; [apply Hpath|].
  rewrite enumPackages_filepath, Hfuncs. apply Hpath.
Qed.

(** On the sample table, [main.main] is the first function of [main]:
    the package gets the directory of [main.go], and the later method
    [run], whose file lies elsewhere, does not change it. *)
Lemma enumPackages_filepath_set_once_witness :
  packages (enum_loop Sample.tab [Sample.f_main; Sample.f_println; Sample.f_run]
              (mkEnum ∅ [] [])) !! "main" = Some 0 ∧
  Filepath <$> heap (enumPackages Sample.stdPkgs Sample.tab Sample.gofile).1 !! 0
  = Some "/home/u/proj/cmd".
Proof.
  destruct (enumPackages_filepath_set_once Sample.stdPkgs Sample.tab Sample.gofile
              [] [Sample.f_println; Sample.f_run] [Sample.f_eq] Sample.f_main)
    as (_ & _ & Hm & _ & Hfinal).
  - reflexivity.
  - intros n' Hn'. inversion Hn'.
  - split; [exact Hm | exact Hfinal].
Defined.

(** ** The path classifier *)

(** The fuel of [IsStandardLibrary] is enough: the function satisfies the
    recursive equation of the source. *)
Lemma IsStandardLibrary_rec_fuel stdPkgs (fuel1 : nat) : ∀ (fuel2 : nat) (pkg : string),
  (String.length pkg ≤ fuel1)%nat → (String.length pkg ≤ fuel2)%nat →
  IsStandardLibrary_rec stdPkgs fuel1 pkg = IsStandardLibrary_rec stdPkgs fuel2 pkg.
Proof.
  induction fuel1 as [|fuel1 IH]; intros fuel2 pkg H1 H2.
  - destruct fuel2 as [|fuel2]; simpl; [done|].
    destruct (bool_decide (pkg ∈ stdPkgs)); [done|].
    destruct (Nat.ltb_spec (String.length (GoStrings.SplitFirst pkg "."))
                (String.length pkg)); [lia | done].
  - destruct fuel2 as [|fuel2]; simpl.
    + destruct (bool_decide (pkg ∈ stdPkgs)); [done|].
      destruct (Nat.ltb_spec (String.length (GoStrings.SplitFirst pkg "."))
                  (String.length pkg)); [lia | done].
    + destruct (bool_decide (pkg ∈ stdPkgs)); [done|].
      destruct (Nat.ltb_spec (String.length (GoStrings.SplitFirst pkg "."))
                  (String.length pkg)) as [Hlt|Hge]; [|done].
      rewrite (IH fuel2) by lia. done.
Qed.

Lemma IsStandardLibrary_equation stdPkgs (pkg : string) :
  IsStandardLibrary stdPkgs pkg =
  if bool_decide (pkg ∈ stdPkgs) then true
  else
    let tmp := GoStrings.SplitFirst pkg "." in
    if (String.length tmp <? String.length pkg)%nat then IsStandardLibrary stdPkgs tmp
    else false.
Proof.
  unfold IsStandardLibrary.
  rewrite (IsStandardLibrary_rec_fuel stdPkgs (String.length pkg)
             (S (String.length pkg)) pkg) by lia.
  simpl. destruct (bool_decide (pkg ∈ stdPkgs)); [done|].
  destruct (Nat.ltb_spec (String.length (GoStrings.SplitFirst pkg "."))
              (String.length pkg)) as [Hlt|Hge]; [|done].
  rewrite (IsStandardLibrary_rec_fuel stdPkgs (String.length pkg)
             (String.length (GoStrings.SplitFirst pkg "."))) by lia.
  by destruct (IsStandardLibrary_rec _ _ _).
Qed.

Lemma existsb_eqb_elem_of (x : string) (l : list string) :
  x ∈ l → existsb (fun y => String.eqb x y) l = true.
Proof.
  intros Hin. apply existsb_exists. exists x.
  split; [by apply list_elem_of_In | apply String.eqb_refl].
Qed.

Lemma has_ModInfo_false_classifier stdPkgs bi st :
  has_ModInfo bi = false →
  choose_classifier stdPkgs bi st =
  match packages st !! "main" with
  | None => None
  | Some mainPkg =>
      match e_heap st !! mainPkg with
      | Some mp => Some (Classify stdPkgs (NewPathPackageClassifier (Filepath mp)))
      | None => None
      end
  end.
Proof.
  unfold choose_classifier, has_ModInfo.
  destruct bi as [[c [mi|]]|]; [discriminate | reflexivity | reflexivity].
Qed.

(** C5, against the specification as worded.  For the main filepath
    ["/home/u/proj/cmd"] the main folders of the classifier are not the
    directory and the grandparent: the grandparent ["/home/u"] is not one
    of them, and a package whose parent directory is that grandparent is
    not classified Main. *)
Lemma path_classifier_grandparent_counterexample :
  mainFolders (NewPathPackageClassifier "/home/u/proj/cmd")
    = ["/home/u/proj"; "/home/u/proj/cmd"] ∧
  spec_mainFolders "/home/u/proj/cmd" = ["/home/u/proj"; "/home/u"] ∧
  GoPath.Dir (Filepath pkg_beside_grandparent) ∈ spec_mainFolders "/home/u/proj/cmd" ∧
  Classify ∅ (NewPathPackageClassifier "/home/u/proj/cmd") pkg_beside_grandparent
    = ClassUnknown.
Proof.
  split; [reflexivity|]. split; [reflexivity|]. split.
  - vm_compute. apply list_elem_of_In. right. by left.
  - vm_compute. reflexivity.
Qed.

(** C5, amended.  The path classifier is built from the filepath of the
    package [main], and [enumPackages] without module information fails
    with "no main package found" when no function belongs to [main];
    its main folders are the parent directory of that filepath and the
    cleaned filepath itself; a package that none of the earlier rules of
    [Classify] decides and whose parent directory is one of the main
    folders is classified Main. *)
Theorem path_classifier_main_folders
    {H : Type} (stdPkgs : gset string) (tab : GoSym.Table) (f : GoFile H)
    (m : string) (pkg : Package) :
  has_ModInfo (gf_BuildInfo f) = false →
  (first_of "main" (GoSym.Funcs tab) = None →
   (enumPackages stdPkgs tab f).2 = Some (ErrNew "no main package found")) ∧
  (∀ n0, first_of "main" (GoSym.Funcs tab) = Some n0 →
     choose_classifier stdPkgs (gf_BuildInfo f)
       (enum_loop tab (GoSym.Funcs tab) (mkEnum ∅ [] (heap f)))
     = Some (Classify stdPkgs
               (NewPathPackageClassifier
                  (new_filepath (GoSym.fileLine tab (GoSym.Entry n0)).1)))) ∧
  mainFolders (NewPathPackageClassifier m) = [GoPath.Dir m; GoPath.Clean m] ∧
  (classify_before_folders stdPkgs (NewPathPackageClassifier m) pkg = None →
   GoPath.Dir (Filepath pkg) ∈ mainFolders (NewPathPackageClassifier m) →
   Classify stdPkgs (NewPathPackageClassifier m) pkg = ClassMain).
Proof.
  intros Hbi.
  pose proof (enum_loop_inv tab (GoSym.Funcs tab) [] _ (enum_inv_init tab (heap f)))
    as (_ & _ & Hfp).
  simpl in Hfp. specialize (Hfp "main").
  split; [|split; [|split]].
  - intros Hnone. rewrite Hnone in Hfp. unfold enumPackages. simpl.
    rewrite (has_ModInfo_false_classifier _ _ _ Hbi), Hfp. reflexivity.
  - intros n0 Hsome. rewrite Hsome in Hfp. destruct Hfp as (a & p & Ha & Hp & Hf).
    rewrite (has_ModInfo_false_classifier _ _ _ Hbi), Ha, Hp, Hf. reflexivity.
  - reflexivity.
  - intros Hbefore Hin. unfold Classify. rewrite Hbefore.
    by rewrite (existsb_eqb_elem_of _ _ Hin).
Qed.

(** On the sample table the classifier is that of ["/home/u/proj/cmd"];
    a package in ["/home/u/proj/cmd/sub"], whose parent is the cleaned
    main filepath, is classified Main; without [main] enumeration fails. *)
Lemma path_classifier_main_folders_witness :
  (enumPackages Sample.stdPkgs Sample.tab_no_main (new_GoFile tt (mkFileInfo "" "" LittleEndian 8 None))).2
    = Some (ErrNew "no main package found") ∧
  choose_classifier Sample.stdPkgs None
    (enum_loop Sample.tab (GoSym.Funcs Sample.tab) (mkEnum ∅ [] []))
    = Some (Classify Sample.stdPkgs (NewPathPackageClassifier "/home/u/proj/cmd")) ∧
  Classify Sample.stdPkgs (NewPathPackageClassifier "/home/u/proj/cmd")
    (mkPackage "sub" "/home/u/proj/cmd/sub" [] []) = ClassMain.
Proof.
  destruct (path_classifier_main_folders Sample.stdPkgs Sample.tab_no_main
              (new_GoFile tt (mkFileInfo "" "" LittleEndian 8 None))
              "/home/u/proj/cmd" (mkPackage "sub" "/home/u/proj/cmd/sub" [] []) eq_refl)
    as (Herr & _ & _ & _).
  destruct (path_classifier_main_folders Sample.stdPkgs Sample.tab
              (new_GoFile tt (mkFileInfo "" "" LittleEndian 8 None))
              "/home/u/proj/cmd" (mkPackage "sub" "/home/u/proj/cmd/sub" [] []) eq_refl)
    as (_ & Hcl & _ & Hmain).
  split; [|split].
  - apply Herr. reflexivity.
  - apply (Hcl Sample.f_main). reflexivity.
  - apply Hmain.
    + vm_compute. reflexivity.
    + vm_compute. apply list_elem_of_In. right. by left.
Defined.

(** ** The one-shot gates of the file handle *)



Lemma count_event_replicate_ne e e' n : e' ≠ e → count_event e (replicate n e') = 0.
Proof.
  intros Hne. unfold count_event. induction n as [|n IH]; [done|].
  simpl. by rewrite filter_cons_False.
Qed.






Section OneShot.

Context {H : Type} `{HH : fileHandler H}.
Variable stdPkgs : gset string.
Variable extractModuledata : FileInfo -> H -> moduledata * option error.
Variable findGoCompilerVersion : GoFile H -> GoVersion + error.
Variable NewTable : list byte -> Z -> GoSym.Table + error.

Implicit Type f g : GoFile H.

Local Abbreviation initMD := (initModuleData extractModuledata findGoCompilerVersion).
Local Abbreviation pclnTab := (PCLNTab extractModuledata findGoCompilerVersion NewTable).
Local Abbreviation initPkgs :=
  (initPackages stdPkgs extractModuledata findGoCompilerVersion NewTable).

Lemma same_gates_refl f : same_gates f f.
Proof. by repeat split. Qed.

Lemma same_gates_trans f g k : same_gates f g → same_gates g k → same_gates f k.
Proof. unfold same_gates. intros (?&?&?&?&?) (?&?&?&?&?). repeat split; congruence. Qed.

Lemma ensureCompilerVersion_gates f :
  same_gates f (ensureCompilerVersion findGoCompilerVersion f).1.
Proof.
  unfold ensureCompilerVersion, tryExtractCompilerVersion. simpl.
  destruct (goversion (gf_FileInfo f)); [apply same_gates_refl|].
  destruct (findGoCompilerVersion f); by repeat split.
Qed.

Lemma initModuleData_done f :
  initModuleDataOnce f = true → initMD f = (f, initModuleDataError f).
Proof. intros Hd. unfold initModuleData. by rewrite Hd. Qed.

Lemma initModuleData_run f :
  initModuleDataOnce f = false →
  initModuleDataOnce (initMD f).1 = true ∧
  trace (initMD f).1 = trace f ++ [EvExtractModuledata] ∧
  initPackagesOnce (initMD f).1 = initPackagesOnce f ∧
  pclntab (initMD f).1 = pclntab f ∧
  fh (initMD f).1 = fh f.
Proof.
  intros Hd. unfold initModuleData. rewrite Hd.
  destruct (ensureCompilerVersion_gates f) as (Ht & _ & Hp & Hl & Hf).
  set (f1 := (ensureCompilerVersion findGoCompilerVersion f).1) in *.
  destruct (extractModuledata _ _) as [md err]. simpl.
  rewrite Ht, Hp, Hl, Hf. by repeat split.
Qed.

Lemma initModuleData_sets_done f : initModuleDataOnce (initMD f).1 = true.
Proof.
  destruct (initModuleDataOnce f) eqn:Hd.
  - by rewrite initModuleData_done.
  - by apply initModuleData_run.
Qed.





Lemma PCLNTab_frame f :
  initModuleDataOnce (pclnTab f).1 = true ∧
  initPackagesOnce (pclnTab f).1 = initPackagesOnce (initMD f).1 ∧
  pclntab (pclnTab f).1 = pclntab (initMD f).1 ∧
  fh (pclnTab f).1 = fh (initMD f).1.
Proof.
  pose proof (initModuleData_sets_done f) as Hd.
  unfold PCLNTab. destruct (initMD f) as [f1 err]. simpl in *.
  destruct err as [e|]; [done|].
  by destruct (getPCLNTABData (fh f1)) as [[a data] [e|]].
Qed.


Lemma classify_loop_gates classify l : ∀ f,
  same_gates f (fold_left (classify_step classify) l f).
Proof.
  induction l as [|np l IH]; intros f; simpl; [apply same_gates_refl|].
  eapply same_gates_trans; [|apply IH].
  unfold classify_step. simpl.
  destruct (alter (set_Name np.1) np.2 (heap f) !! np.2); by repeat split.
Qed.

Lemma enumPackages_gates tab f :
  trace (enumPackages stdPkgs tab f).1 = trace f ++ [EvEnumPackages] ∧
  initModuleDataOnce (enumPackages stdPkgs tab f).1 = initModuleDataOnce f ∧
  initPackagesOnce (enumPackages stdPkgs tab f).1 = initPackagesOnce f ∧
  pclntab (enumPackages stdPkgs tab f).1 = pclntab f.
Proof.
  unfold enumPackages.
  destruct (choose_classifier _ _ _) as [classify|]; simpl; [|done].
  match goal with
  | |- context [fold_left ?s ?l ?f0] =>
      destruct (classify_loop_gates classify l f0) as (-> & -> & -> & -> & _)
  end.
  done.
Qed.

Lemma initPackages_done f :
  initPackagesOnce f = true → initPkgs f = (f, initPackagesError f).
Proof. intros Hd. unfold initPackages. by rewrite Hd. Qed.

Lemma initPackages_sets_done f : initPackagesOnce (initPkgs f).1 = true.
Proof.
  unfold initPackages. destruct (initPackagesOnce f) eqn:Hd; [done|].
  by destruct (pclnTab f) as [f1 [tab|e]].
Qed.

Lemma initPackages_snd f : (initPkgs f).2 = initPackagesError (initPkgs f).1.
Proof. reflexivity. Qed.

Lemma initPackages_idem f : initPkgs (initPkgs f).1 = initPkgs f.
Proof.
  rewrite initPackages_done by apply initPackages_sets_done.
  rewrite <- initPackages_snd. by destruct (initPkgs f).
Qed.











End OneShot.



(** ** The line table behind [SourceInfo] and [GetSourceFiles] *)

Section SourceQueries.

Context {H : Type} `{HH : fileHandler H}.
Variable stdPkgs : gset string.
Variable extractModuledata : FileInfo -> H -> moduledata * option error.
Variable findGoCompilerVersion : GoFile H -> GoVersion + error.
Variable NewTable : list byte -> Z -> GoSym.Table + error.
Variable findSourceLines : Z -> Z -> GoSym.Table -> Z * Z.

Implicit Type f : GoFile H.

Local Abbreviation initMD := (initModuleData extractModuledata findGoCompilerVersion).
Local Abbreviation pclnTab := (PCLNTab extractModuledata findGoCompilerVersion NewTable).
Local Abbreviation initPkgs :=
  (initPackages stdPkgs extractModuledata findGoCompilerVersion NewTable).









End SourceQueries.



(** ** [Bytes] and the sections of a PE image *)

Lemma slice_length (s : list byte) (lo hi : Z) (bs : list byte) :
  slice s lo hi = Returned bs → Z.of_nat (length bs) = (hi - lo)%Z.
Proof.
  unfold slice.
  destruct ((0 <=? lo)%Z && (lo <=? hi)%Z && (hi <=? Z.of_nat (length s))%Z) eqn:Hc;
    [|discriminate].
  apply andb_true_iff in Hc as [Hc H3]. apply andb_true_iff in Hc as [H1 H2].
  apply Z.leb_le in H1, H2, H3.
  intros [= <-]. rewrite length_take, length_drop. lia.
Qed.

Lemma slice_returns (s : list byte) (lo hi : Z) :
  (0 ≤ lo)%Z → (lo ≤ hi)%Z → (hi ≤ Z.of_nat (length s))%Z →
  ∃ bs, slice s lo hi = Returned bs.
Proof.
  intros H1 H2 H3. unfold slice.
  apply Z.leb_le in H1, H2, H3. rewrite H1, H2, H3. simpl. eauto.
Qed.

(** The difference of the two bounds of the slice of [Bytes] is the
    length asked for, whenever the bounds are in order. *)
Lemma bounds_difference (address len base : Z) :
  (0 ≤ len < 2 ^ 64)%Z →
  (U.sub64 address base ≤ U.sub64 (U.add64 address len) base)%Z →
  (U.sub64 (U.add64 address len) base - U.sub64 address base = len)%Z.
Proof.
  unfold U.sub64, U.add64, U.wrap.
  change (2 ^ 64)%Z with 18446744073709551616%Z. intros Hlen Hle.
  rewrite Zminus_mod_idemp_l in *.
  replace (address + len - base)%Z with ((address - base) + len)%Z in * by lia.
  rewrite <- (Zplus_mod_idemp_l (address - base)) in *.
  pose proof (Z.mod_pos_bound (address - base) 18446744073709551616 eq_refl) as Hb.
  set (x := ((address - base) mod 18446744073709551616)%Z) in *. clearbody x.
  destruct (Z_lt_dec (x + len) 18446744073709551616) as [Hlt|Hge].
  - rewrite Z.mod_small in * by lia. lia.
  - exfalso.
    assert (Hm : ((x + len) mod 18446744073709551616 = x + len - 18446744073709551616)%Z).
    { symmetry. apply (Z.mod_unique _ _ 1); lia. }
    lia.
Qed.

(** [Bytes] never returns without an error a slice of another length
    than the one asked for, whatever the reader. *)
Lemma Bytes_no_short_read {H : Type} `{HH : fileHandler H} (f : GoFile H)
    (address len : Z) (bs : list byte) :
  (0 ≤ len < 2 ^ 64)%Z →
  Bytes f address len = Returned (bs, None) → Z.of_nat (length bs) = len.
Proof.
  intros Hlen. unfold Bytes.
  destruct (getSectionDataFromAddress (fh f) address) as [[base section] [e|]];
    [discriminate|].
  destruct (Z.of_nat (length section) <? U.sub64 (U.add64 address len) base)%Z;
    [discriminate|].
  destruct (slice section _ _) as [bs'|r] eqn:Hs; [|discriminate]. simpl.
  intros [= <-]. rewrite (slice_length _ _ _ _ Hs).
  apply bounds_difference; [done|].
  unfold slice in Hs.
  destruct ((0 <=? U.sub64 address base)%Z
            && (U.sub64 address base <=? U.sub64 (U.add64 address len) base)%Z
            && (U.sub64 (U.add64 address len) base <=? Z.of_nat (length section))%Z)
    eqn:Hc; [|discriminate].
  apply andb_true_iff in Hc as [Hc _]. apply andb_true_iff in Hc as [_ H2].
  by apply Z.leb_le.
Qed.

Lemma section_from_address_cases (ib : Z) (secs : list PE.Section_) (a : Z) :
  section_from_address ib secs a = (0%Z, [], Some ErrSectionDoesNotExist) ∨
  ∃ sec, sec ∈ secs ∧ PE.Offset sec ≠ 0%Z ∧ section_holds ib sec a = true ∧
         section_from_address ib secs a
         = (U.add64 ib (PE.VirtualAddress sec), (PE.Data_pair sec).1, (PE.Data_pair sec).2).
Proof.
  induction secs as [|s secs IH]; simpl; [by left|].
  destruct (Z.eqb_spec (PE.Offset s) 0) as [Hz|Hnz].
  - destruct IH as [IH|(sec & Hin & Hrest)]; [by left|].
    right. exists sec. split; [by right | done].
  - destruct (section_holds ib s a) eqn:Hh.
    + right. exists s. split; [by left|]. split; [done|]. split; [done|].
      by destruct (PE.Data_pair s).
    + destruct IH as [IH|(sec & Hin & Hrest)]; [by left|].
      right. exists sec. split; [by right | done].
Qed.

Lemma section_from_address_none (ib : Z) (secs : list PE.Section_) (a : Z) :
  (∀ s, s ∈ secs → PE.Offset s ≠ 0%Z → section_holds ib s a = false) →
  section_from_address ib secs a = (0%Z, [], Some ErrSectionDoesNotExist).
Proof.
  induction secs as [|s secs IH]; intros Hall; simpl; [done|].
  destruct (Z.eqb_spec (PE.Offset s) 0) as [Hz|Hnz].
  - apply IH. intros s' Hin. apply Hall. by right.
  - rewrite (Hall s) by (done || by left). apply IH. intros s' Hin. apply Hall. by right.
Qed.

(** [getSectionDataFromAddress] answers with the missing section when
    no section kept in the file holds the address, and else with the
    base, the data and the error of the section that holds it. *)
Lemma section_from_address_exact (ib : Z) (secs : list PE.Section_) (a : Z) :
  (no_holding_section ib secs a ∧
   section_from_address ib secs a = (0%Z, [], Some ErrSectionDoesNotExist)) ∨
  (∃ sec, holding_section ib secs a sec ∧
          section_from_address ib secs a
          = (U.add64 ib (PE.VirtualAddress sec),
             (PE.Data_pair sec).1, (PE.Data_pair sec).2)).
Proof.
  induction secs as [|s secs IH]; simpl.
  - left. split; [|done]. intros sec Hin. inversion Hin.
  - assert (Hskip : PE.Offset s = 0%Z ∨ section_holds ib s a = false →
              (no_holding_section ib (s :: secs) a ∧
               section_from_address ib secs a = (0%Z, [], Some ErrSectionDoesNotExist)) ∨
              (∃ sec, holding_section ib (s :: secs) a sec ∧
                      section_from_address ib secs a
                      = (U.add64 ib (PE.VirtualAddress sec),
                         (PE.Data_pair sec).1, (PE.Data_pair sec).2))).
    { intros Hs. destruct IH as [[Hnone Hres]|(sec & (i & Hi & Hoff & Hh & Hbefore) & Hres)].
      - left. split; [|done]. intros sec Hin Hoff.
        apply elem_of_cons in Hin as [->|Hin]; [|by apply Hnone].
        by destruct Hs.
      - right. exists sec. split; [|done]. exists (S i).
        split; [done|]. split; [done|]. split; [done|].
        intros j sec' Hj Hsec'. destruct j as [|j]; simpl in Hsec'.
        + by injection Hsec' as <-.
        + apply (Hbefore j sec'); [lia|done]. }
    destruct (Z.eqb_spec (PE.Offset s) 0) as [Hz|Hnz]; [by apply Hskip; left|].
    destruct (section_holds ib s a) eqn:Hh; [|by apply Hskip; right].
    right. exists s. split.
    + exists 0%nat. split; [done|]. split; [done|]. split; [done|].
      intros j sec' Hj. lia.
    + by destruct (PE.Data_pair s).
Qed.

Section PEBytes.

Variable searchSectionForTab : list byte -> ByteOrder -> list byte + error.
Variable parseBuildIDFromRaw : list byte -> string * option error.

Local Abbreviation peBytes :=
  (@Bytes peFile (peFile_fileHandler searchSectionForTab parseBuildIDFromRaw)).

(** C3, amended.  For a function whose entry is not after its end,
    [Bytes f.entry (f.end - f.entry)] on a PE image returns either a
    slice of exactly [f.end - f.entry] bytes, or an error, which is the
    missing section, "length out of bounds" when the range runs past
    the data of the section that holds [f.entry], or the error of reading
    that section; and for any address and length, a slice returned
    without an error has the length asked for.  The cases are told apart
    by the image: the missing section when no section kept in the file
    holds the entry; else, for the section that holds it, the error of
    reading it when it cannot be read, "length out of bounds" exactly
    when the end lies past its data, and otherwise the bytes of its data
    from the entry to the end. *)
Theorem Bytes_of_function_exact_or_error (f : GoFile peFile) (fn : Function) :
  (0 ≤ fn_Offset fn)%Z → (fn_Offset fn ≤ fn_End fn)%Z → (fn_End fn < 2 ^ 64)%Z →
  let n := U.sub64 (fn_End fn) (fn_Offset fn) in
  n = (fn_End fn - fn_Offset fn)%Z ∧
  ((no_holding_section (imageBase (fh f)) (PE.Sections (file (fh f))) (fn_Offset fn) ∧
    peBytes f (fn_Offset fn) n = Returned ([], Some ErrSectionDoesNotExist)) ∨
   (∃ sec,
      holding_section (imageBase (fh f)) (PE.Sections (file (fh f))) (fn_Offset fn) sec ∧
      let base := U.add64 (imageBase (fh f)) (PE.VirtualAddress sec) in
      match PE.Data sec with
      | inr e => peBytes f (fn_Offset fn) n = Returned ([], Some e)
      | inl d =>
          ((Z.of_nat (length d) < fn_End fn - base)%Z ∧
           peBytes f (fn_Offset fn) n = Returned ([], Some out_of_bounds)) ∨
          ((fn_End fn - base ≤ Z.of_nat (length d))%Z ∧
           ∃ bs, bs = take (Z.to_nat n) (drop (Z.to_nat (fn_Offset fn - base)) d) ∧
                 peBytes f (fn_Offset fn) n = Returned (bs, None) ∧
                 Z.of_nat (length bs) = n)
      end)) ∧
  (∀ address len bs, (0 ≤ len < 2 ^ 64)%Z →
     peBytes f address len = Returned (bs, None) → Z.of_nat (length bs) = len).
Proof.
  intros H0 Hle Hend n.
  assert (Hn : n = (fn_End fn - fn_Offset fn)%Z).
  { unfold n, U.sub64, U.wrap. apply Z.mod_small.
    change (2 ^ 64)%Z with 18446744073709551616%Z in *. lia. }
  split; [exact Hn|]. split; [|intros address len bs; apply Bytes_no_short_read].
  unfold Bytes. simpl. unfold pe_getSectionDataFromAddress.
  destruct (section_from_address_exact (imageBase (fh f)) (PE.Sections (file (fh f)))
              (fn_Offset fn)) as [[Hnone ->]|(sec & Hhold & ->)].
  - left. by split.
  - right. exists sec. split; [exact Hhold|]. cbv zeta.
    destruct Hhold as (i & Hi & Hoff & Hh & _).
    unfold PE.Data_pair. destruct (PE.Data sec) as [d|e] eqn:Hd; simpl; [|done].
    set (base := U.add64 (imageBase (fh f)) (PE.VirtualAddress sec)) in *.
    assert (Hbase : (0 ≤ base ≤ fn_Offset fn)%Z).
    { unfold section_holds in Hh. apply andb_true_iff in Hh as [Hh _].
      apply Z.leb_le in Hh. fold base in Hh. split; [|done].
      unfold base, U.add64, U.wrap. apply Z.mod_pos_bound. done. }
    assert (Hhi : U.sub64 (U.add64 (fn_Offset fn) n) base = (fn_End fn - base)%Z).
    { unfold U.sub64, U.add64, U.wrap. rewrite Hn.
      change (2 ^ 64)%Z with 18446744073709551616%Z in *.
      rewrite Zminus_mod_idemp_l.
      replace (fn_Offset fn + (fn_End fn - fn_Offset fn) - base)%Z
        with (fn_End fn - base)%Z by lia.
      apply Z.mod_small. lia. }
    assert (Hlo : U.sub64 (fn_Offset fn) base = (fn_Offset fn - base)%Z).
    { unfold U.sub64, U.wrap. change (2 ^ 64)%Z with 18446744073709551616%Z in *.
      apply Z.mod_small. lia. }
    rewrite Hhi, Hlo.
    destruct (Z.ltb_spec (Z.of_nat (length d)) (fn_End fn - base)) as [Hout|Hin'].
    + left. by split.
    + right. split; [done|]. unfold slice.
      destruct (Z.leb_spec 0 (fn_Offset fn - base)) as [_|]; [|lia].
      destruct (Z.leb_spec (fn_Offset fn - base) (fn_End fn - base)) as [_|]; [|lia].
      destruct (Z.leb_spec (fn_End fn - base) (Z.of_nat (length d))) as [_|]; [|lia].
      simpl. eexists. split; [reflexivity|].
      replace (fn_End fn - base - (fn_Offset fn - base))%Z with n by lia.
      split; [done|]. rewrite length_take, length_drop. lia.
Qed.

(** C7, amended.  When the data of a section has the size of its
    header and the sums do not overflow, the address [base + len(data)]
    is not in that section; when no other section kept in the file
    holds it, section lookup and [Bytes] both fail with the missing
    section error, for every length. *)
Theorem address_at_section_end_is_missing
    (f : GoFile peFile) (sec : PE.Section_) (d : list byte) :
  sec ∈ PE.Sections (file (fh f)) →
  PE.Data sec = inl d → Z.of_nat (length d) = PE.Size sec →
  (0 ≤ imageBase (fh f))%Z → (0 ≤ PE.VirtualAddress sec)%Z →
  (PE.VirtualAddress sec + PE.Size sec < 2 ^ 32)%Z →
  (imageBase (fh f) + PE.VirtualAddress sec + PE.Size sec < 2 ^ 64)%Z →
  let base := U.add64 (imageBase (fh f)) (PE.VirtualAddress sec) in
  let address := (base + Z.of_nat (length d))%Z in
  (∀ s, s ∈ PE.Sections (file (fh f)) → s ≠ sec → PE.Offset s ≠ 0%Z →
        section_holds (imageBase (fh f)) s address = false) →
  section_holds (imageBase (fh f)) sec address = false ∧
  pe_getSectionDataFromAddress (fh f) address = (0%Z, [], Some ErrSectionDoesNotExist) ∧
  ∀ len, peBytes f address len = Returned ([], Some ErrSectionDoesNotExist).
Proof.
  intros Hin Hd Hlen Hib Hva H32 H64 base address Hothers.
  assert (Hself : section_holds (imageBase (fh f)) sec address = false).
  { unfold section_holds. apply andb_false_iff. right. apply Z.ltb_ge.
    unfold address, base, U.add64, U.add32, U.wrap.
    change (2 ^ 32)%Z with 4294967296%Z in *.
    change (2 ^ 64)%Z with 18446744073709551616%Z in *.
    rewrite (Z.mod_small (PE.VirtualAddress sec + PE.Size sec)) by lia.
    rewrite !Z.mod_small by lia. lia. }
  assert (Hnone : pe_getSectionDataFromAddress (fh f) address
                  = (0%Z, [], Some ErrSectionDoesNotExist)).
  { apply section_from_address_none. intros s Hs Hoff.
    destruct (section_holds (imageBase (fh f)) s address) eqn:Hh; [|done].
    assert (Hne : s ≠ sec) by (intros ->; congruence).
    by rewrite (Hothers s Hs Hne Hoff) in Hh. }
  split; [done|]. split; [done|].
  intros len. unfold Bytes. simpl. by rewrite Hnone.
Qed.

End PEBytes.

(** C3, against the specification as worded: for a function that starts in the
    code of the sample image and ends past its 64 bytes, [Bytes] returns
    neither the bytes nor the missing-section error, but "length out of
    bounds"; and for a function whose end lies before its entry the
    [uint64] length wraps and [Bytes] returns neither bytes nor an error:
    the slice expression panics. *)
Lemma Bytes_of_function_out_of_bounds_counterexample :
  (fn_Offset SamplePE.fn_past_end ≤ fn_End SamplePE.fn_past_end)%Z ∧
  Bytes Sample.gofile (fn_Offset SamplePE.fn_past_end)
    (U.sub64 (fn_End SamplePE.fn_past_end) (fn_Offset SamplePE.fn_past_end))
  = Returned ([], Some (ErrNew "length out of bounds")) ∧
  ErrNew "length out of bounds" ≠ ErrSectionDoesNotExist ∧
  Bytes Sample.gofile (fn_Offset SamplePE.fn_inverted)
    (U.sub64 (fn_End SamplePE.fn_inverted) (fn_Offset SamplePE.fn_inverted))
  = Panicked "slice bounds out of range".
Proof.
  split; [vm_compute; discriminate|]. split; [vm_compute; reflexivity|].
  split; [discriminate | vm_compute; reflexivity].
Qed.

(** The 16 bytes of [main.main] in the sample image, and the 16 bytes
    that end with the data of the section. *)
Lemma Bytes_of_function_exact_or_error_witness :
  (∃ bs, Bytes Sample.gofile 0x401000 16 = Returned (bs, None) ∧
         Z.of_nat (length bs) = 16%Z) ∧
  (∃ bs, Bytes Sample.gofile 0x401030 16 = Returned (bs, None) ∧
         Z.of_nat (length bs) = 16%Z).
Proof.
  split.
  - destruct (Bytes_of_function_exact_or_error Sample.scanner Sample.parseBuildID
                Sample.gofile (mkFunction "main" 0x401000 0x401010 "main"))
      as (Hn & [[Hnone _]|(sec & (i & Hi & _ & _ & Hbefore) & Hres)] & _).
    + vm_compute. discriminate.
    + vm_compute. discriminate.
    + reflexivity.
    + exfalso. specialize (Hnone Sample.sec_text).
      assert (Hfalse : section_holds (imageBase Sample.pe) Sample.sec_text 0x401000 = false).
      { apply Hnone; [by left | discriminate]. }
      vm_compute in Hfalse. discriminate.
    + destruct i as [|i].
      * injection Hi as <-. destruct Hres as [[Hlt _]|[_ (bs & _ & Hb & Hl)]].
        -- vm_compute in Hlt. discriminate.
        -- exists bs. split; [exact Hb | exact Hl].
      * exfalso. destruct (Hbefore 0%nat Sample.sec_text) as [Hz|Hh].
        -- lia.
        -- reflexivity.
        -- vm_compute in Hz. discriminate.
        -- vm_compute in Hh. discriminate.
  - destruct (Bytes_of_function_exact_or_error Sample.scanner Sample.parseBuildID
                Sample.gofile (mkFunction "T" 0x401030 0x401040 "type..eq"))
      as (Hn & [[Hnone _]|(sec & (i & Hi & _ & _ & Hbefore) & Hres)] & _).
    + vm_compute. discriminate.
    + vm_compute. discriminate.
    + reflexivity.
    + exfalso. specialize (Hnone Sample.sec_text).
      assert (Hfalse : section_holds (imageBase Sample.pe) Sample.sec_text 0x401030 = false).
      { apply Hnone; [by left | discriminate]. }
      vm_compute in Hfalse. discriminate.
    + destruct i as [|i].
      * injection Hi as <-. destruct Hres as [[Hlt _]|[_ (bs & _ & Hb & Hl)]].
        -- vm_compute in Hlt. discriminate.
        -- exists bs. split; [exact Hb | exact Hl].
      * exfalso. destruct (Hbefore 0%nat Sample.sec_text) as [Hz|Hh].
        -- lia.
        -- reflexivity.
        -- vm_compute in Hz. discriminate.
        -- vm_compute in Hh. discriminate.
Defined.

(** C7, against the specification as worded: the code of the sample image is 64
    bytes at 0x401000; at the address 0x401040 section lookup and [Bytes]
    fail with the missing-section error, not with "length out of bounds";
    and when another section starts at that address, [Bytes] of length 0
    returns without an error. *)
Lemma address_at_section_end_counterexample :
  U.add64 (imageBase Sample.pe) (PE.VirtualAddress Sample.sec_text) = 0x401000%Z ∧
  PE.Data Sample.sec_text = inl Sample.text_data ∧
  length Sample.text_data = 64 ∧
  pe_getSectionDataFromAddress Sample.pe (0x401000 + 64)
  = (0%Z, [], Some ErrSectionDoesNotExist) ∧
  Bytes Sample.gofile (0x401000 + 64) 0 = Returned ([], Some ErrSectionDoesNotExist) ∧
  ErrSectionDoesNotExist ≠ ErrNew "length out of bounds" ∧
  Bytes (Sample.gofile_of SamplePE.pe_adjacent) (0x401000 + 64) 0 = Returned ([], None).
Proof.
  repeat split; try (vm_compute; reflexivity). discriminate.
Qed.

(** The end of the code of the sample image. *)
Lemma address_at_section_end_is_missing_witness :
  pe_getSectionDataFromAddress Sample.pe 0x401040
  = (0%Z, [], Some ErrSectionDoesNotExist) ∧
  Bytes Sample.gofile 0x401040 8 = Returned ([], Some ErrSectionDoesNotExist).
Proof.
  destruct (address_at_section_end_is_missing Sample.scanner Sample.parseBuildID
              Sample.gofile Sample.sec_text Sample.text_data)
    as (_ & Hsec & Hbytes).
  - by left.
  - reflexivity.
  - reflexivity.
  - vm_compute. discriminate.
  - vm_compute. discriminate.
  - vm_compute. reflexivity.
  - vm_compute. reflexivity.
  - intros s Hs Hne Hoff.
    apply elem_of_cons in Hs as [->|Hs]; [done|].
    apply elem_of_cons in Hs as [->|Hs]; [vm_compute; reflexivity|].
    apply elem_of_cons in Hs as [->|Hs]; [by destruct Hoff|].
    inversion Hs.
  - split; [exact Hsec | exact (Hbytes 8%Z)].
Defined.

(** ** The search for the line table in a PE image *)

Lemma SpecScan_scan_tail (magics : list (list byte)) (d t : list byte) :
  SpecScan.scan magics d = inl t →
  ∃ off : nat, (off ≤ length d)%nat ∧ t = drop off d ∧ SpecScan.header_at magics t = true.
Proof.
  induction d as [|b d IH]; simpl.
  - destruct (SpecScan.header_at magics []) eqn:Hh; [|discriminate].
    intros [= <-]. by exists 0.
  - destruct (SpecScan.header_at magics (b :: d)) eqn:Hh.
    + intros [= <-]. exists 0. split; [lia|]. by split.
    + intros Hs. destruct (IH Hs) as (off & Hle & -> & Hhd).
      exists (S off). split; [lia|]. by split.
Qed.

Section PCLNSearch.

Variable searchSectionForTab : list byte -> ByteOrder -> list byte + error.

Local Abbreviation scan := (scan_of searchSectionForTab).

Lemma search_sections_cons (p : peFile) (name : string) (rest : list string) :
  search_sections searchSectionForTab p (name :: rest) =
  match scan p name with
  | ScanFound sec d tab =>
      (U.add32 (PE.VirtualAddress sec)
         (U.wrap 32 (Z.of_nat (length d) - Z.of_nat (length tab))), tab, None)
  | ScanUnreadable e => (0%Z, [], Some e)
  | ScanAbsent | ScanNoHeader => search_sections searchSectionForTab p rest
  end.
Proof.
  unfold scan_of. simpl.
  destruct (PE.Section (file p) name) as [sec|]; [|done].
  destruct (PE.Data sec) as [d|e]; [|done].
  by destruct (searchSectionForTab d _).
Qed.

Lemma found_address_no_overflow (p : peFile) (sec : PE.Section_)
    (d tab : list byte) (off : nat) :
  tab = drop off d → (off ≤ length d)%nat →
  (0 ≤ imageBase p)%Z → (0 ≤ PE.VirtualAddress sec)%Z →
  (PE.VirtualAddress sec + Z.of_nat off < 2 ^ 32)%Z →
  (imageBase p + PE.VirtualAddress sec + Z.of_nat off < 2 ^ 64)%Z →
  found_address p sec d tab = (imageBase p + PE.VirtualAddress sec + Z.of_nat off)%Z.
Proof.
  intros -> Hoff Hib Hva H32 H64. unfold found_address, U.add64, U.add32, U.wrap.
  rewrite length_drop.
  change (2 ^ 32)%Z with 4294967296%Z in *.
  change (2 ^ 64)%Z with 18446744073709551616%Z in *.
  replace (Z.of_nat (length d) - Z.of_nat (length d - off))%Z with (Z.of_nat off) by lia.
  rewrite (Z.mod_small (Z.of_nat off)) by lia.
  rewrite (Z.mod_small (PE.VirtualAddress sec + Z.of_nat off)) by lia.
  rewrite Z.mod_small by lia. lia.
Qed.

(** C4, amended.  [getPCLNTABDataImpl] looks at [.rdata], then at
    [.text].  A section that is absent or in which the scanner finds no
    header is passed over; a section whose data cannot be read ends the
    search with the error of the read; the first section with a header
    gives the table the scanner returned, at the image base plus the
    [uint32] sum of the virtual address and of the offset of the table
    in the data; when both sections were passed over the error is the
    missing line table.  When the table is the tail of the data from
    offset [off] and the sums do not overflow, the address is
    [imageBase + sec.VirtualAddress + off]. *)
Theorem PE_pclntab_search (p : peFile) :
  getPCLNTABDataImpl searchSectionForTab p =
  match scan p ".rdata" with
  | ScanFound sec d tab => (found_address p sec d tab, tab, None)
  | ScanUnreadable e => (U.add64 (imageBase p) 0, [], Some e)
  | ScanAbsent | ScanNoHeader =>
      match scan p ".text" with
      | ScanFound sec d tab => (found_address p sec d tab, tab, None)
      | ScanUnreadable e => (U.add64 (imageBase p) 0, [], Some e)
      | ScanAbsent | ScanNoHeader => (U.add64 (imageBase p) 0, [], Some ErrNoPCLNTab)
      end
  end ∧
  ∀ (sec : PE.Section_) (d tab : list byte) (off : nat),
    tab = drop off d → (off ≤ length d)%nat →
    (0 ≤ imageBase p)%Z → (0 ≤ PE.VirtualAddress sec)%Z →
    (PE.VirtualAddress sec + Z.of_nat off < 2 ^ 32)%Z →
    (imageBase p + PE.VirtualAddress sec + Z.of_nat off < 2 ^ 64)%Z →
    found_address p sec d tab = (imageBase p + PE.VirtualAddress sec + Z.of_nat off)%Z.
Proof.
  split; [|apply found_address_no_overflow].
  unfold getPCLNTABDataImpl, searchForPCLNTab.
  rewrite search_sections_cons.
  destruct (scan p ".rdata") as [|e|  |sec d tab]; try done;
    rewrite search_sections_cons;
    destruct (scan p ".text") as [|e'| |sec' d' tab']; done.
Qed.

End PCLNSearch.

(** C4, against the specification as worded: in the sample image with read-only
    data that cannot be read, no section yields a header ([.text] holds
    none), and the search fails with the error of the read, not with the
    missing line table. *)
Lemma unreadable_rdata_counterexample :
  scan_of Sample.scanner SamplePE.pe_unreadable ".rdata" = ScanUnreadable (ErrOS 5) ∧
  scan_of Sample.scanner SamplePE.pe_unreadable ".text" = ScanNoHeader ∧
  searchForPCLNTab Sample.scanner SamplePE.pe_unreadable = (0%Z, [], Some (ErrOS 5)) ∧
  ErrOS 5 ≠ ErrNoPCLNTab.
Proof. repeat split; try (vm_compute; reflexivity). discriminate. Qed.

(** The sample image: the header lies at offset 0x200 of [.rdata]. *)
Lemma PE_pclntab_search_witness :
  getPCLNTABDataImpl Sample.scanner Sample.pe
  = ((0x400000 + 0x2000 + 0x200)%Z, Sample.header, None).
Proof.
  destruct (PE_pclntab_search Sample.scanner Sample.pe) as [Hsearch Haddr].
  rewrite Hsearch.
  change (scan_of Sample.scanner Sample.pe ".rdata")
    with (ScanFound Sample.sec_rdata Sample.rdata_data Sample.header).
  cbv beta iota.
  rewrite (Haddr Sample.sec_rdata Sample.rdata_data Sample.header 0x200).
  - reflexivity.
  - reflexivity.
  - vm_compute. lia.
  - vm_compute. discriminate.
  - vm_compute. discriminate.
  - vm_compute. reflexivity.
  - vm_compute. reflexivity.
Defined.

(** ** The symbol table of a PE image *)

Lemma collect_symbols_rejected (p : peFile) (ss : list PE.Symbol) :
  (∃ s, s ∈ ss ∧ rejected_symbol p s = true) →
  ∀ syms addrs, collect_symbols p ss syms addrs = None.
Proof.
  induction ss as [|s ss IH]; intros (s0 & Hin & Hrej) syms addrs.
  - inversion Hin.
  - simpl. apply elem_of_cons in Hin as [->|Hin].
    + unfold rejected_symbol in Hrej. apply andb_true_iff in Hrej as [Hsp Hinv].
      apply negb_true_iff in Hsp. by rewrite Hsp, Hinv.
    + destruct (is_special_section_number (PE.SectionNumber s)); [by apply IH; eauto|].
      destruct (invalid_section_number p (PE.SectionNumber s)); [done|].
      apply IH; eauto.
Qed.

Lemma collect_symbols_accepted (p : peFile) (ss : list PE.Symbol) :
  (∀ s, s ∈ ss → rejected_symbol p s = false) →
  ∀ syms addrs, ∃ syms' addrs',
    collect_symbols p ss syms addrs = Some (syms', addrs') ∧
    map symName syms' = map symName syms ++ map PE.sym_Name ss.
Proof.
  induction ss as [|s ss IH]; intros Hall syms addrs; simpl.
  - eexists _, _. split; [done|]. by rewrite app_nil_r.
  - assert (Hs : rejected_symbol p s = false) by (apply Hall; by left).
    assert (Hrest : ∀ s', s' ∈ ss → rejected_symbol p s' = false)
      by (intros s' Hin; apply Hall; by right).
    unfold rejected_symbol in Hs.
    destruct (is_special_section_number (PE.SectionNumber s)); simpl in Hs.
    + destruct (IH Hrest (syms ++ [mksymbol (PE.sym_Name s) (PE.sym_Value s) 0])
                  (addrs ++ [PE.sym_Value s])) as (syms' & addrs' & -> & Hn).
      eexists _, _. split; [done|]. rewrite Hn, map_app. simpl. by rewrite <- app_assoc.
    + rewrite Hs.
      match goal with
      | |- context [collect_symbols p ss (syms ++ [?sym]) ?a] =>
          destruct (IH Hrest (syms ++ [sym]) a) as (syms' & addrs' & -> & Hn)
      end.
      eexists _, _. split; [done|]. rewrite Hn, map_app. simpl. by rewrite <- app_assoc.
Qed.

Lemma symName_size_symbol (addrs : list Z) (sym : symbol) :
  symName (size_symbol addrs sym) = symName sym.
Proof. unfold size_symbol. by destruct (_ <? _)%Z. Qed.

Lemma fill_table_keeps (syms : list symbol) : ∀ (t : gmap string symbol) (name : string),
  is_Some (t !! name) → is_Some (fill_table syms t !! name).
Proof.
  induction syms as [|sym syms IH]; intros t name Hs; simpl; [done|].
  apply IH. destruct (decide (symName sym = name)) as [->|Hne].
  - rewrite lookup_insert_eq. eauto.
  - by rewrite lookup_insert_ne.
Qed.

Lemma fill_table_holds (syms : list symbol) : ∀ (t : gmap string symbol) (name : string),
  name ∈ map symName syms → is_Some (fill_table syms t !! name).
Proof.
  induction syms as [|sym syms IH]; intros t name Hin; simpl in *.
  - inversion Hin.
  - apply elem_of_cons in Hin as [->|Hin].
    + apply fill_table_keeps. rewrite lookup_insert_eq. eauto.
    + by apply IH.
Qed.

(** C6, amended.  On the first call of [initSymTab], a symbol whose
    section number is none of 0, -1 and -2 and is negative or larger than
    the number of sections makes the whole normalization fail: the error
    "invalid section number in symbol table" is returned and kept for
    later calls, no symbol is entered in the table, [hasSymbolTable]
    reports false with the error and [getSymbol] fails for every name.
    Without such a symbol no error is set and every symbol of the file is
    in the table. *)
Theorem initSymTab_rejects_invalid_section (p : peFile) :
  symtab_done (symtab p) = false →
  ((∃ s, s ∈ PE.Symbols (file p) ∧ rejected_symbol p s = true) →
   (initSymTab p).2 = Some invalid_section_error ∧
   table (symtab (initSymTab p).1) = table (symtab p) ∧
   initSymTab (initSymTab p).1 = ((initSymTab p).1, Some invalid_section_error) ∧
   (hasSymbolTable p).2 = (false, Some invalid_section_error) ∧
   ∀ name, (getSymbol p name).2 = (0%Z, 0%Z, Some invalid_section_error)) ∧
  ((∀ s, s ∈ PE.Symbols (file p) → rejected_symbol p s = false) →
   (initSymTab p).2 = symtab_err (symtab p) ∧
   ∀ s, s ∈ PE.Symbols (file p) →
        is_Some (table (symtab (initSymTab p).1) !! PE.sym_Name s)).
Proof.
  intros Hd. split.
  - intros Hrej.
    assert (Hinit : initSymTab p
                    = (set_symtab (mkSymbolTableOnce true (table (symtab p))
                                     (Some invalid_section_error)) p,
                       Some invalid_section_error)).
    { unfold initSymTab. by rewrite Hd, (collect_symbols_rejected p _ Hrej). }
    rewrite Hinit. simpl. split; [done|]. split; [done|]. split; [done|].
    unfold hasSymbolTable, getSymbol. rewrite Hinit. by split.
  - intros Hok.
    destruct (collect_symbols_accepted p _ Hok [] []) as (syms & addrs & Hc & Hn).
    unfold initSymTab. rewrite Hd, Hc. simpl. split; [done|].
    intros s Hs. apply fill_table_holds.
    rewrite <- list_fmap_compose.
    assert (Hext : map (symName ∘ size_symbol (Sort addrs)) syms = map symName syms).
    { apply map_ext. intros a. apply symName_size_symbol. }
    change (symName ∘ size_symbol (Sort addrs) <$> syms)
      with (map (symName ∘ size_symbol (Sort addrs)) syms).
    rewrite Hext, Hn. simpl. by apply list_elem_of_fmap_2.
Qed.

(** C6, against the specification as worded: in the sample image with a symbol of
    section number 7 among three sections, normalization returns the
    error and the table holds none of the two symbols in range. *)
Lemma invalid_section_number_counterexample :
  rejected_symbol SamplePE.pe_bad_symbol (PE.mkSymbol "broken" 0x10 7) = true ∧
  (initSymTab SamplePE.pe_bad_symbol).2
  = Some (ErrNew "invalid section number in symbol table") ∧
  table (symtab (initSymTab SamplePE.pe_bad_symbol).1) = ∅ ∧
  (hasSymbolTable SamplePE.pe_bad_symbol).2
  = (false, Some (ErrNew "invalid section number in symbol table")) ∧
  (getSymbol SamplePE.pe_bad_symbol "main.main").2
  = (0%Z, 0%Z, Some (ErrNew "invalid section number in symbol table")).
Proof. repeat split; vm_compute; reflexivity. Qed.

(** The two sample images: with the symbol out of range, and without. *)
Lemma initSymTab_rejects_invalid_section_witness :
  (hasSymbolTable SamplePE.pe_bad_symbol).2 = (false, Some invalid_section_error) ∧
  is_Some (table (symtab (initSymTab Sample.pe).1) !! "main.run").
Proof.
  destruct (initSymTab_rejects_invalid_section SamplePE.pe_bad_symbol eq_refl)
    as [Hbad _].
  destruct (initSymTab_rejects_invalid_section Sample.pe eq_refl) as [_ Hgood].
  destruct Hbad as (_ & _ & _ & Hhas & _).
  { exists (PE.mkSymbol "broken" 0x10 7). split; [right; by left | reflexivity]. }
  destruct Hgood as [_ Hall].
  { intros s Hs.
    apply elem_of_cons in Hs as [->|Hs]; [reflexivity|].
    apply elem_of_cons in Hs as [->|Hs]; [reflexivity|].
    apply elem_of_cons in Hs as [->|Hs]; [reflexivity|].
    inversion Hs. }
  split; [exact Hhas|].
  apply (Hall (PE.mkSymbol "main.run" 0x20 1)). right. right. by left.
Defined.

(** ** [openPE] and [Open] *)

(** A panic of the parser leaves [openPE]; were the function literal
    deferred, it would come back as the error. *)
Lemma openPE_panic_escapes (os_Open : string → list byte + error)
    (pe_NewFile : list byte → outcome (PE.File + error))
    (fp : string) (content : list byte) (r : string) :
  os_Open fp = inl content → pe_NewFile content = Panicked r →
  openPE os_Open pe_NewFile fp = Panicked r ∧
  openPE_deferred os_Open pe_NewFile fp
  = Returned (None, Some (ErrNew ("error when processing PE file, probably corrupt: " ++ r))).
Proof.
  intros Ho Hp. unfold openPE, openPE_deferred, openPE_body.
  rewrite Ho, Hp. simpl. done.
Qed.

(** A magic of at most four bytes matches the buffer of [Open] when it
    matches the file. *)
Lemma fileMagicMatch_buffer (magic : list byte) (a b c d : byte) (rest : list byte) :
  (length magic ≤ 4)%nat →
  fileMagicMatch [a; b; c; d] magic = fileMagicMatch (a :: b :: c :: d :: rest) magic.
Proof.
  intros Hlen. unfold fileMagicMatch.
  destruct magic as [|m1 [|m2 [|m3 [|m4 [|m5 ms]]]]]; simpl in *; try reflexivity.
  lia.
Qed.

Section OpenErrors.

Context {elfFile machoFile : Type}.
Context `{HE : fileHandler elfFile} `{HM : fileHandler machoFile}.
Variable os_Open : string -> list byte + error.
Variable pe_NewFile : list byte -> outcome (PE.File + error).
Variable openELF : string -> elfFile + error.
Variable openMachO : string -> machoFile + error.
Variable searchSectionForTab : list byte -> ByteOrder -> list byte + error.
Variable parseBuildIDFromRaw : list byte -> string * option error.
Variable extractBuildInfo : GoFile (anyHandler elfFile machoFile) -> BuildInfo + error.

Local Abbreviation open :=
  (Open os_Open pe_NewFile openELF openMachO searchSectionForTab parseBuildIDFromRaw
        extractBuildInfo).

(** C8, amended.  [Open] on a file of one to three bytes fails with
    [ErrNotEnoughBytesRead]; on an empty file the read itself fails and
    [Open] returns its error, [io.EOF]; on a file of at least four
    bytes that starts with none of the ELF, PE and Mach-O magics it
    fails with [ErrUnsupportedFile]. *)
Theorem Open_magic_errors (filePath : string) (content : list byte) :
  os_Open filePath = inl content →
  (content = [] → open filePath = Returned (inr EOF)) ∧
  ((0 < length content < 4)%nat → open filePath = Returned (inr ErrNotEnoughBytesRead)) ∧
  ((4 ≤ length content)%nat →
   fileMagicMatch content elfMagic = false →
   fileMagicMatch content peMagic = false →
   fileMagicMatch content machoMagic1 = false →
   fileMagicMatch content machoMagic2 = false →
   fileMagicMatch content machoMagic3 = false →
   fileMagicMatch content machoMagic4 = false →
   open filePath = Returned (inr ErrUnsupportedFile)).
Proof.
  intros Hopen. unfold Open. rewrite Hopen. split; [|split].
  - intros ->. reflexivity.
  - intros Hlen.
    destruct content as [|a [|b [|c [|d rest]]]]; simpl in Hlen; try lia; reflexivity.
  - intros Hlen Helf Hpe Hm1 Hm2 Hm3 Hm4.
    destruct content as [|a [|b [|c [|d rest]]]]; simpl in Hlen; try lia.
    change (file_Read (a :: b :: c :: d :: rest) maxMagicBufLen)
      with (4%Z, [a; b; c; d], @None error).
    cbv beta iota zeta. change (4 <? maxMagicBufLen)%Z with false. cbv iota.
    rewrite !(fileMagicMatch_buffer _ a b c d rest) by (simpl; lia).
    rewrite Helf, Hpe, Hm1, Hm2, Hm3, Hm4. reflexivity.
Qed.

(** A handle that [Open] returns is one on which no gate has run: its
field [pclntab] is nil. *)
Lemma finish_Open_fresh (h : anyHandler elfFile machoFile) :
  fresh (finish_Open searchSectionForTab parseBuildIDFromRaw extractBuildInfo h).
Proof.
  unfold finish_Open.
  destruct (getBuildID _) as [buildID [e|]];
    destruct (extractBuildInfo _) as [[[v|] mi]|e']; by repeat split.
Qed.

Lemma Open_returns_fresh (filePath : string) (g : GoFile (anyHandler elfFile machoFile)) :
  open filePath = Returned (inl g) → fresh g.
Proof.
  unfold Open. intros Hopen.
  destruct (os_Open filePath) as [content|e]; [|discriminate].
  destruct (file_Read content maxMagicBufLen) as [[n buf] [e|]]; [discriminate|].
  destruct (n <? maxMagicBufLen)%Z; [discriminate|].
  destruct (fileMagicMatch buf elfMagic).
  { destruct (openELF filePath); [|discriminate].
    inversion Hopen. apply finish_Open_fresh. }
  destruct (fileMagicMatch buf peMagic).
  { destruct (openPE os_Open pe_NewFile filePath) as [[[pe|] [e|]]|r];
      simpl in Hopen; try discriminate.
    inversion Hopen. apply finish_Open_fresh. }
  destruct (fileMagicMatch buf machoMagic1 || fileMagicMatch buf machoMagic2
            || fileMagicMatch buf machoMagic3 || fileMagicMatch buf machoMagic4);
    [|discriminate].
  destruct (openMachO filePath); [|discriminate].
  inversion Hopen. apply finish_Open_fresh.
Qed.

End OpenErrors.

(** C8, against the specification as worded: [Open] on the empty file returns
    [io.EOF], not [ErrNotEnoughBytesRead]. *)
Lemma Open_empty_file_counterexample :
  SampleOpen.os_Open "empty" = inl [] ∧
  SampleOpen.open "empty" = Returned (inr EOF) ∧
  EOF ≠ ErrNotEnoughBytesRead.
Proof. split; [reflexivity|]. split; [vm_compute; reflexivity | discriminate]. Qed.

(** The file of three bytes and the text file of the sample. *)
Lemma Open_magic_errors_witness :
  SampleOpen.open "short" = Returned (inr ErrNotEnoughBytesRead) ∧
  SampleOpen.open "notes.txt" = Returned (inr ErrUnsupportedFile).
Proof.
  destruct (@Open_magic_errors Empty_set Empty_set SampleOpen.no_reader
              SampleOpen.no_reader SampleOpen.os_Open SampleOpen.pe_NewFile
              SampleOpen.open_none SampleOpen.open_none Sample.scanner
              Sample.parseBuildID SampleOpen.extractBuildInfo
              "short" [0x4d; 0x5a; 0x90]%Z eq_refl) as (_ & Hshort & _).
  destruct (@Open_magic_errors Empty_set Empty_set SampleOpen.no_reader
              SampleOpen.no_reader SampleOpen.os_Open SampleOpen.pe_NewFile
              SampleOpen.open_none SampleOpen.open_none Sample.scanner
              Sample.parseBuildID SampleOpen.extractBuildInfo
              "notes.txt" [0x68; 0x65; 0x6c; 0x6c; 0x6f]%Z eq_refl) as (_ & _ & Htext).
  split.
  - apply Hshort. simpl. lia.
  - apply Htext; [simpl; lia | reflexivity..].
Defined.

(** * Further properties of the embedded code *)

(** ** The classifiers *)

Lemma SplitFirst_length (s sep : string) :
  (String.length (GoStrings.SplitFirst s sep) ≤ String.length s)%nat.
Proof.
  induction s as [|c s IH]; cbn [GoStrings.SplitFirst].
  - by destruct (String.prefix sep "").
  - destruct (String.prefix sep (String c s)); simpl; lia.
Qed.

Lemma SplitFirst_full (s sep : string) :
  String.length (GoStrings.SplitFirst s sep) = String.length s →
  GoStrings.SplitFirst s sep = s.
Proof.
  induction s as [|c s IH]; cbn [GoStrings.SplitFirst].
  - by destruct (String.prefix sep "").
  - destruct (String.prefix sep (String c s)); simpl; [discriminate|].
    intros Hlen. f_equal. apply IH. lia.
Qed.

Lemma prefix_char (d c : ascii) (t : string) :
  String.prefix (String d "") (String c t) = if ascii_dec d c then true else false.
Proof. simpl. destruct (ascii_dec d c); [by destruct t | done]. Qed.

(** The part before the first dot holds no dot: splitting it again
    changes nothing. *)
Lemma SplitFirst_dot_idem (s : string) :
  GoStrings.SplitFirst (GoStrings.SplitFirst s ".") "." = GoStrings.SplitFirst s ".".
Proof.
  induction s as [|c s IH]; [reflexivity|].
  cbn [GoStrings.SplitFirst].
  destruct (String.prefix "." (String c s)) eqn:Hp; [reflexivity|].
  cbn [GoStrings.SplitFirst].
  rewrite prefix_char in *. by rewrite Hp, IH.
Qed.

(** X1.  [IsStandardLibrary pkg] holds exactly when the table of the
    standard library holds [pkg] or the part of [pkg] before its first
    dot: the recursion never goes deeper than one call. *)
Theorem IsStandardLibrary_iff (stdPkgs : gset string) (pkg : string) :
  IsStandardLibrary stdPkgs pkg = true ↔
  pkg ∈ stdPkgs ∨ GoStrings.SplitFirst pkg "." ∈ stdPkgs.
Proof.
  rewrite IsStandardLibrary_equation. cbv zeta.
  destruct (bool_decide_reflect (pkg ∈ stdPkgs)) as [Hin|Hout]; [by split; [left|]|].
  destruct (Nat.ltb_spec (String.length (GoStrings.SplitFirst pkg "."))
              (String.length pkg)) as [Hlt|Hge].
  - rewrite IsStandardLibrary_equation. cbv zeta. rewrite SplitFirst_dot_idem.
    rewrite Nat.ltb_irrefl.
    destruct (bool_decide_reflect (GoStrings.SplitFirst pkg "." ∈ stdPkgs)) as [Hin|Hout'].
    + by split; [right|].
    + split; [done|]. by intros [?|?].
  - pose proof (SplitFirst_length pkg ".") as Hle.
    rewrite (SplitFirst_full pkg ".") by lia.
    split; [done|]. by intros [?|?].
Qed.

Lemma classify_deps_class (pkg : Package) (deps : list Module_) (class : PackageClass) :
  classify_deps pkg deps = Some class → class = ClassMain ∨ class = ClassVendor.
Proof.
  induction deps as [|dep deps IH]; simpl; [discriminate|].
  destruct (_ || _); [|exact IH].
  destruct (String.eqb _ _); intros [= <-]; auto.
Qed.

(** X2.  The module classifier never answers Unknown, and it answers
    Generated only for a package that [isGeneratedPackage] accepts. *)
Theorem ModClassify_never_unknown (stdPkgs : gset string) (c : ModPackageClassifier)
    (pkg : Package) :
  ModClassify stdPkgs c pkg ≠ ClassUnknown ∧
  (ModClassify stdPkgs c pkg = ClassGenerated → isGeneratedPackage pkg = true).
Proof.
  unfold ModClassify.
  destruct (IsStandardLibrary stdPkgs (Name pkg)); [by split|].
  destruct (String.eqb (Name pkg) "main"); [by split|].
  destruct (negb _ && _); [by split|].
  destruct (negb _ && _); [by split|].
  destruct (classify_deps pkg (bi_Deps (modInfo c))) as [class|] eqn:Hd.
  - destruct (classify_deps_class _ _ _ Hd) as [-> | ->]; by split.
  - destruct (isGeneratedPackage pkg); [by split|].
    destruct (_ || _); by split.
Qed.

(** X3.  When the main package has the filepath "command-line-arguments"
    the path classifier never answers Unknown. *)
Theorem Classify_command_line_arguments (stdPkgs : gset string)
    (c : PathPackageClassifier) (pkg : Package) :
  mainFilepath c = "command-line-arguments" →
  Classify stdPkgs c pkg ≠ ClassUnknown.
Proof.
  intros Hmain. unfold Classify.
  destruct (classify_before_folders stdPkgs c pkg) as [class|] eqn:Hb.
  - unfold classify_before_folders in Hb.
    repeat match type of Hb with
           | (if ?b then _ else _) = _ => destruct b
           | (let tmp := _ in _) = _ => cbv zeta in Hb
           end; by inversion Hb.
  - destruct (existsb _ _); [done|].
    unfold classify_after_folders. rewrite Hmain, String.eqb_refl.
    repeat match goal with
           | |- (if ?b then _ else _) ≠ _ => destruct b
           end; done.
Qed.

(** An otherwise unclassifiable package of a binary built from files. *)
Lemma Classify_command_line_arguments_witness :
  Classify Sample.stdPkgs (NewPathPackageClassifier "command-line-arguments")
    (mkPackage "helper" "/tmp/build/helper" [] []) ≠ ClassUnknown.
Proof.
  apply (Classify_command_line_arguments Sample.stdPkgs
           (NewPathPackageClassifier "command-line-arguments")
           (mkPackage "helper" "/tmp/build/helper" [] [])).
  reflexivity.
Defined.

(** ** The packages that [enumPackages] builds *)

Lemma functions_of_snoc q pre n :
  functions_of q (pre ++ [n]) =
  functions_of q pre ++
  (if String.eqb (GoSym.PackageName n) q && String.eqb (GoSym.ReceiverName n) ""
   then [to_function n] else []).
Proof.
  unfold functions_of. rewrite List.filter_app, map_app. simpl.
  by destruct (_ && _).
Qed.

Lemma methods_of_snoc q pre n :
  methods_of q (pre ++ [n]) =
  methods_of q pre ++
  (if String.eqb (GoSym.PackageName n) q && negb (String.eqb (GoSym.ReceiverName n) "")
   then [to_method n] else []).
Proof.
  unfold methods_of. rewrite List.filter_app, map_app. simpl.
  by destruct (_ && _).
Qed.

Lemma first_of_None_empty q pre :
  first_of q pre = None → functions_of q pre = [] ∧ methods_of q pre = [].
Proof.
  intros Hnone. pose proof (proj1 (first_of_None q pre) Hnone) as Hall.
  unfold functions_of, methods_of.
  induction pre as [|x pre IH]; [done|]. simpl.
  assert (Hx : String.eqb (GoSym.PackageName x) q = false).
  { apply String.eqb_neq. apply Hall. by left. }
  rewrite Hx. simpl. apply IH.
  - unfold first_of in *. simpl in Hnone. by rewrite Hx in Hnone.
  - intros n Hn. apply Hall. by right.
Qed.

Lemma add_symbol_content n name fp fns ms :
  add_symbol n (mkPackage name fp fns ms) =
  mkPackage name fp
    (fns ++ if String.eqb (GoSym.ReceiverName n) "" then [to_function n] else [])
    (ms ++ if negb (String.eqb (GoSym.ReceiverName n) "") then [to_method n] else []).
Proof.
  unfold add_symbol. simpl.
  destruct (String.eqb (GoSym.ReceiverName n) ""); simpl; by rewrite app_nil_r.
Qed.

Lemma enum_step_content tab pre st n :
  enum_inv tab pre st → enum_content tab pre st →
  enum_content tab (pre ++ [n]) (enum_step tab st n).
Proof.
  intros (Hlt & Hinj & Hfp) Hc q a.
  destruct (packages st !! GoSym.PackageName n) as [a0|] eqn:Hq.
  - rewrite (enum_step_seen _ _ _ _ Hq). simpl. intros Ha.
    destruct (Hc q a Ha) as (n0 & Hfo & Hp).
    exists n0. split; [by rewrite first_of_app, Hfo|].
    rewrite functions_of_snoc, methods_of_snoc.
    destruct (decide (a0 = a)) as [->|Hne].
    + assert (Hqn : GoSym.PackageName n = q) by (by eapply Hinj).
      rewrite list_lookup_alter_eq, Hp. simpl. rewrite add_symbol_content.
      rewrite Hqn, String.eqb_refl. by simpl.
    + assert (Hqn : String.eqb (GoSym.PackageName n) q = false).
      { apply String.eqb_neq. intros <-. congruence. }
      rewrite list_lookup_alter_ne, Hp by done. rewrite Hqn. simpl.
      by rewrite !app_nil_r.
  - rewrite (enum_step_new _ _ _ Hq). simpl. intros Ha.
    rewrite functions_of_snoc, methods_of_snoc, first_of_app.
    apply lookup_insert_Some in Ha as [[<- <-]|[Hne Ha]].
    + specialize (Hfp (GoSym.PackageName n)).
      destruct (first_of (GoSym.PackageName n) pre) as [n1|] eqn:Hfo.
      { destruct Hfp as (b & p & Hb & _). congruence. }
      destruct (first_of_None_empty _ _ Hfo) as [-> ->].
      exists n. split; [unfold first_of; simpl; by rewrite String.eqb_refl|].
      rewrite list_lookup_middle by done. rewrite add_symbol_content.
      rewrite String.eqb_refl. by simpl.
    + destruct (Hc q a Ha) as (n0 & Hfo & Hp). exists n0. rewrite Hfo.
      split; [done|].
      assert (Hqn : String.eqb (GoSym.PackageName n) q = false)
        by (by apply String.eqb_neq).
      rewrite Hqn. simpl. rewrite !app_nil_r.
      rewrite lookup_app_l by (by eapply Hlt). done.
Qed.

Lemma enum_loop_content tab l : ∀ pre st,
  enum_inv tab pre st → enum_content tab pre st →
  enum_content tab (pre ++ l) (enum_loop tab l st).
Proof.
  induction l as [|n l IH]; intros pre st Hinv Hc; simpl.
  - by rewrite app_nil_r.
  - replace (pre ++ n :: l) with ((pre ++ [n]) ++ l) by (by rewrite <- app_assoc).
    apply IH; [by apply enum_step_inv | by apply enum_step_content].
Qed.

Lemma enum_content_init tab h : enum_content tab [] (mkEnum ∅ [] h).
Proof. intros q a Hq. simpl in Hq. by rewrite lookup_empty in Hq. Qed.

(** The second loop of [enumPackages]. *)
Lemma class_list_append_class {H : Type} (c class : PackageClass) (p : nat) (f : GoFile H) :
  class_list c (append_class class p f) =
  class_list c f ++ if decide (class = c) then [p] else [].
Proof.
  destruct c, class; simpl; rewrite ?app_nil_r; try done;
    repeat (case_decide; try done); by rewrite ?app_nil_r.
Qed.

Lemma classify_step_spec {H : Type} (classify : Package → PackageClass)
    (f : GoFile H) (np : string * nat) (c : PackageClass) :
  heap (classify_step classify f np) = alter (set_Name np.1) np.2 (heap f) ∧
  class_list c (classify_step classify f np) =
  class_list c f ++
  if decide (classify <$> named_at (heap f) np = Some c) then [np.2] else [].
Proof.
  unfold classify_step, named_at. simpl.
  rewrite list_lookup_alter_eq.
  destruct (heap f !! np.2) as [pk|]; simpl.
  - split; [done|]. rewrite class_list_append_class.
    destruct c; simpl; repeat case_decide; try done; congruence.
  - split; [done|]. destruct c; simpl; by rewrite app_nil_r.
Qed.

Lemma classify_loop_heap_other {H : Type} (classify : Package → PackageClass)
    (l : list (string * nat)) (a : nat) : ∀ f : GoFile H,
  a ∉ l.*2 → heap (fold_left (classify_step classify) l f) !! a = heap f !! a.
Proof.
  induction l as [|np l IH]; intros f Hnot; simpl; [done|].
  rewrite fmap_cons in Hnot. apply not_elem_of_cons in Hnot as [Hne Hnot].
  rewrite IH by done.
  rewrite (proj1 (classify_step_spec classify f np ClassUnknown)).
  by rewrite list_lookup_alter_ne.
Qed.

Lemma classify_loop_spec {H : Type} (classify : Package → PackageClass)
    (h0 : list Package) (c : PackageClass) (l : list (string * nat)) :
  NoDup l.*2 → ∀ f : GoFile H,
  (∀ np, np ∈ l → heap f !! np.2 = h0 !! np.2) →
  (∀ np, np ∈ l →
     heap (fold_left (classify_step classify) l f) !! np.2 = named_at h0 np) ∧
  class_list c (fold_left (classify_step classify) l f) =
  class_list c f ++
  (filter (fun np => classify <$> named_at h0 np = Some c) l).*2.
Proof.
  induction l as [|np l IH]; intros Hnd f Hh; simpl.
  - split; [intros np Hin; inversion Hin | by rewrite app_nil_r].
  - rewrite fmap_cons in Hnd. apply NoDup_cons in Hnd as [Hnot Hnd].
    destruct (classify_step_spec classify f np c) as [Hheap Hclass].
    assert (Hh' : ∀ np', np' ∈ l →
                    heap (classify_step classify f np) !! np'.2 = h0 !! np'.2).
    { intros np' Hin. rewrite Hheap, list_lookup_alter_ne.
      - apply Hh. by right.
      - intros Heq. apply Hnot. rewrite Heq. by apply list_elem_of_fmap_2. }
    destruct (IH Hnd _ Hh') as [IHheap IHclass].
    assert (Hnamed : named_at (heap f) np = named_at h0 np).
    { unfold named_at. rewrite Hh; [done | by left]. }
    split.
    + intros np' Hin. apply elem_of_cons in Hin as [->|Hin]; [|by apply IHheap].
      rewrite classify_loop_heap_other by done.
      rewrite Hheap, list_lookup_alter_eq. unfold named_at.
      rewrite Hh; [done | by left].
    + rewrite IHclass, Hclass, Hnamed, <- app_assoc. f_equal.
      destruct (decide (classify <$> named_at h0 np = Some c)) as [Hyes|Hno].
      * by rewrite filter_cons_True.
      * by rewrite filter_cons_False.
Qed.

Lemma map_to_list_snd_NoDup (m : gmap string nat) :
  (∀ q1 q2 a, m !! q1 = Some a → m !! q2 = Some a → q1 = q2) →
  NoDup (map_to_list m).*2.
Proof.
  intros Hinj. apply NoDup_fmap_2_strong; [|apply NoDup_map_to_list].
  intros [q1 a1] [q2 a2] H1 H2 Heq. simpl in Heq. subst a2.
  apply elem_of_map_to_list in H1, H2. f_equal. by eapply Hinj.
Qed.

(** X4.  [enumPackages] records, for every package name [q] that a
    function of the line table carries, one package whose functions are
    the functions of [q] without receiver and whose methods are those
    with a receiver, each in the order of the table; its filepath comes
    from the first function of [q], and its name is [q] once the
    classification has run (it stays empty when [enumPackages] fails). *)
Theorem enumPackages_package_contents {H : Type} (stdPkgs : gset string)
    (tab : GoSym.Table) (f : GoFile H) (q : string) (n0 : GoSym.Func) :
  first_of q (GoSym.Funcs tab) = Some n0 →
  ∃ a, packages (enum_loop tab (GoSym.Funcs tab) (mkEnum ∅ [] (heap f))) !! q = Some a ∧
       heap (enumPackages stdPkgs tab f).1 !! a
       = Some (mkPackage
                 (match (enumPackages stdPkgs tab f).2 with None => q | Some _ => "" end)
                 (new_filepath (GoSym.fileLine tab (GoSym.Entry n0)).1)
                 (functions_of q (GoSym.Funcs tab)) (methods_of q (GoSym.Funcs tab))).
Proof.
  intros Hfo.
  pose proof (enum_loop_inv tab (GoSym.Funcs tab) [] _ (enum_inv_init tab (heap f)))
    as Hinv.
  pose proof (enum_loop_content tab (GoSym.Funcs tab) [] _ (enum_inv_init tab (heap f))
                (enum_content_init tab (heap f))) as Hc.
  simpl in Hinv, Hc. destruct Hinv as (Hlt & Hinj & Hfp).
  specialize (Hfp q). rewrite Hfo in Hfp. destruct Hfp as (a & p & Ha & _).
  destruct (Hc q a Ha) as (n1 & Hfo1 & Hp). rewrite Hfo in Hfo1. injection Hfo1 as <-.
  exists a. split; [exact Ha|].
  unfold enumPackages. simpl.
  destruct (choose_classifier _ _ _) as [classify|]; simpl; [|exact Hp].
  match goal with
  | |- heap (fold_left _ ?l ?f1) !! _ = _ =>
      destruct (classify_loop_spec classify (heap f1) ClassUnknown l
                  (map_to_list_snd_NoDup _ Hinj) f1 (fun _ _ => eq_refl)) as [Hheap _];
      pose proof (Hheap (q, a) (proj2 (elem_of_map_to_list _ _ _) Ha)) as Hqa
  end.
  change ((q, a).2) with a in Hqa. rewrite Hqa.
  unfold named_at. simpl. by rewrite Hp.
Qed.

(** Package [main] of the sample table: one function and one method. *)
Lemma enumPackages_package_contents_witness :
  heap (enumPackages Sample.stdPkgs Sample.tab Sample.gofile).1 !! 0
  = Some (mkPackage "main" "/home/u/proj/cmd"
            [mkFunction "main" 0x401000 0x401010 "main"]
            [mkMethod (mkFunction "run" 0x401020 0x401030 "main") "*T"]).
Proof.
  destruct (enumPackages_package_contents Sample.stdPkgs Sample.tab Sample.gofile
              "main" Sample.f_main eq_refl) as (a & Ha & Hp).
  vm_compute in Ha. injection Ha as <-. rewrite Hp. reflexivity.
Defined.

(** X5.  When [enumPackages] has a classifier, every package of the line
    table is appended to exactly one of the five slices of the handle,
    once: for each class the slice grows by pointers without repetition,
    and a pointer is among them exactly when it is the package of some
    name and the classifier gives that class to the package, name set. *)
Theorem enumPackages_one_class {H : Type} (stdPkgs : gset string)
    (tab : GoSym.Table) (f : GoFile H) (classify : Package → PackageClass)
    (c : PackageClass) :
  choose_classifier stdPkgs (gf_BuildInfo f)
    (enum_loop tab (GoSym.Funcs tab) (mkEnum ∅ [] (heap f))) = Some classify →
  (enumPackages stdPkgs tab f).2 = None ∧
  ∃ added,
    class_list c (enumPackages stdPkgs tab f).1 = class_list c f ++ added ∧
    NoDup added ∧
    ∀ a, a ∈ added ↔
         ∃ q pk, packages (enum_loop tab (GoSym.Funcs tab) (mkEnum ∅ [] (heap f)))
                   !! q = Some a ∧
                 heap (enumPackages stdPkgs tab f).1 !! a = Some pk ∧
                 classify pk = c.
Proof.
  intros Hcl.
  pose proof (enum_loop_inv tab (GoSym.Funcs tab) [] _ (enum_inv_init tab (heap f)))
    as (Hlt & Hinj & _).
  simpl in Hlt, Hinj.
  unfold enumPackages. simpl. rewrite Hcl. simpl. split; [done|].
  set (st := enum_loop tab (GoSym.Funcs tab) (mkEnum ∅ [] (heap f))) in *.
  set (f1 := set_heap (e_heap st) (log_event EvEnumPackages f)).
  pose proof (map_to_list_snd_NoDup _ Hinj) as Hnd.
  destruct (classify_loop_spec classify (heap f1) c (map_to_list (packages st))
              Hnd f1 (fun _ _ => eq_refl)) as [Hheap Hclass].
  exists (filter (fun np => classify <$> named_at (heap f1) np = Some c)
            (map_to_list (packages st))).*2.
  split; [by rewrite Hclass; destruct c|]. split.
  - eapply sublist_NoDup; [exact Hnd|]. apply fmap_sublist, sublist_filter.
  - intros a. rewrite list_elem_of_fmap. split.
    + intros ([q a'] & -> & Hin). apply list_elem_of_filter in Hin as [HP Hin].
      pose proof (Hheap _ Hin) as Hqa. change ((q, a').2) with a' in *.
      exists q. rewrite Hqa.
      destruct (named_at (heap f1) (q, a')) as [pk|]; [|done].
      exists pk. split; [by apply elem_of_map_to_list|]. split; [done|].
      simpl in HP. by injection HP.
    + intros (q & pk & Hq & Hpk & Hc).
      exists (q, a). split; [done|]. apply list_elem_of_filter.
      assert (Hin : (q, a) ∈ map_to_list (packages st)) by (by apply elem_of_map_to_list).
      split; [|done]. pose proof (Hheap _ Hin) as Hqa.
      change ((q, a).2) with a in Hqa. rewrite <- Hqa, Hpk. simpl. by rewrite Hc.
Qed.

(** The sample table: the slice of the main packages grows by pointers
    without repetition. *)
Lemma enumPackages_one_class_witness :
  (enumPackages Sample.stdPkgs Sample.tab Sample.gofile).2 = None ∧
  ∃ added, pkgs (enumPackages Sample.stdPkgs Sample.tab Sample.gofile).1 = [] ++ added ∧
           NoDup added.
Proof.
  destruct (enumPackages_one_class Sample.stdPkgs Sample.tab Sample.gofile
              (Classify Sample.stdPkgs (NewPathPackageClassifier "/home/u/proj/cmd"))
              ClassMain eq_refl) as (Herr & added & Hlist & Hnd & _).
  split; [exact Herr|]. exists added. split; [exact Hlist | exact Hnd].
Defined.

(** X6.  [enumPackages] succeeds exactly when the handle has module
    information or a function of the line table belongs to package
    [main]; its only error is "no main package found". *)
Theorem enumPackages_error_iff {H : Type} (stdPkgs : gset string)
    (tab : GoSym.Table) (f : GoFile H) :
  ((enumPackages stdPkgs tab f).2 = None ↔
   has_ModInfo (gf_BuildInfo f) = true ∨
   ∃ n, n ∈ GoSym.Funcs tab ∧ GoSym.PackageName n = "main") ∧
  ((enumPackages stdPkgs tab f).2 = None ∨
   (enumPackages stdPkgs tab f).2 = Some (ErrNew "no main package found")).
Proof.
  pose proof (enum_loop_inv tab (GoSym.Funcs tab) [] _ (enum_inv_init tab (heap f)))
    as (Hlt & _ & _).
  pose proof (enum_loop_dom tab (GoSym.Funcs tab) (heap f) "main") as Hdom.
  simpl in Hlt. unfold enumPackages. simpl.
  set (st := enum_loop tab (GoSym.Funcs tab) (mkEnum ∅ [] (heap f))) in *.
  destruct (has_ModInfo (gf_BuildInfo f)) eqn:Hbi.
  - assert (Hsome : ∃ cl, choose_classifier stdPkgs (gf_BuildInfo f) st = Some cl).
    { unfold choose_classifier, has_ModInfo in *.
      destruct (gf_BuildInfo f) as [[c [mi|]]|]; try discriminate. eauto. }
    destruct Hsome as [cl ->]. simpl. split; [|by left]. split; [by left | done].
  - rewrite (has_ModInfo_false_classifier _ _ _ Hbi).
    destruct (packages st !! "main") as [a|] eqn:Hmain.
    + destruct (lookup_lt_is_Some_2 (e_heap st) a (Hlt _ _ Hmain)) as [mp ->]. simpl.
      split; [|by left]. split; [|done]. intros _. right. apply Hdom. eauto.
    + simpl. split; [|by right]. split; [done|].
      intros [?|Hn]; [done|]. apply Hdom in Hn as [? ?]. done.
Qed.

(** ** The compiler version, the errors of the gates and [GetTypes] *)

Section VersionAndTypes.

Context {H : Type} `{HH : fileHandler H}.
Variable stdPkgs : gset string.
Variable extractModuledata : FileInfo -> H -> moduledata * option error.
Variable findGoCompilerVersion : GoFile H -> GoVersion + error.
Variable NewTable : list byte -> Z -> GoSym.Table + error.
Variable ResolveGoVersion : string -> option GoVersion.
Variable getTypes : FileInfo -> H -> moduledata -> gmap Z GoType + error.

Implicit Type f : GoFile H.

Local Abbreviation initMD := (initModuleData extractModuledata findGoCompilerVersion).
Local Abbreviation pclnTab := (PCLNTab extractModuledata findGoCompilerVersion NewTable).
Local Abbreviation initPkgs :=
  (initPackages stdPkgs extractModuledata findGoCompilerVersion NewTable).
Local Abbreviation getPackages :=
  (GetPackages stdPkgs extractModuledata findGoCompilerVersion NewTable).

(** X7.  After a [SetGoVersion] that resolves its string,
    [GetCompilerVersion] does not search the binary again and leaves the
    handle as it is; it returns the version that was set, unless an
    earlier search had failed: the error of that search is kept in the
    handle and is still what [GetCompilerVersion] returns. *)
Theorem SetGoVersion_then_GetCompilerVersion f (version : string) (gv : GoVersion) :
  ResolveGoVersion version = Some gv →
  (SetGoVersion ResolveGoVersion version f).2 = None ∧
  GetCompilerVersion findGoCompilerVersion (SetGoVersion ResolveGoVersion version f).1
  = ((SetGoVersion ResolveGoVersion version f).1,
     match versionError f with
     | Some e => (None, Some e)
     | None => (Some gv, None)
     end).
Proof.
  intros Hres. unfold SetGoVersion. rewrite Hres. split; [done|].
  destruct f as [bi fi]. destruct fi.
  unfold GetCompilerVersion, ensureCompilerVersion. simpl.
  by destruct versionError0.
Qed.

(** X8.  On a handle without version and without stored error, a search
    that finds the version stores it: [GetCompilerVersion] returns it,
    and a second call returns it again without searching; a search that
    fails stores its error, returns it and leaves the version unset. *)
Theorem GetCompilerVersion_caches f :
  goversion (gf_FileInfo f) = None → versionError f = None →
  match findGoCompilerVersion f with
  | inl v =>
      GetCompilerVersion findGoCompilerVersion f
      = (set_goversion (Some v) f, (Some v, None)) ∧
      ∀ search : GoFile H → GoVersion + error,
        GetCompilerVersion search (set_goversion (Some v) f)
        = (set_goversion (Some v) f, (Some v, None))
  | inr e =>
      GetCompilerVersion findGoCompilerVersion f
      = (set_versionError (Some e) f, (None, Some e)) ∧
      goversion (gf_FileInfo (set_versionError (Some e) f)) = None
  end.
Proof.
  intros Hv He. unfold GetCompilerVersion, ensureCompilerVersion,
    tryExtractCompilerVersion. rewrite Hv.
  destruct (findGoCompilerVersion f) as [v|e].
  - destruct f as [bi fi]. destruct fi. simpl in *. subst. done.
  - destruct f as [bi fi]. destruct fi. simpl in *. subst. done.
Qed.

Lemma ensureCompilerVersion_classes f (c : PackageClass) :
  class_list c (ensureCompilerVersion findGoCompilerVersion f).1 = class_list c f.
Proof.
  unfold ensureCompilerVersion, tryExtractCompilerVersion. simpl.
  destruct (goversion (gf_FileInfo f)); [done|].
  destruct (findGoCompilerVersion f); by destruct c.
Qed.

Lemma initModuleData_classes f (c : PackageClass) :
  class_list c (initMD f).1 = class_list c f.
Proof.
  unfold initModuleData. destruct (initModuleDataOnce f); [done|].
  pose proof (ensureCompilerVersion_classes f c) as Hc.
  set (f1 := (ensureCompilerVersion findGoCompilerVersion f).1) in *.
  destruct (extractModuledata _ _) as [md err]. simpl.
  rewrite <- Hc. by destruct c.
Qed.

(** X9.  On a handle where no gate has run, when the extraction of the
    moduledata fails, or when it succeeds and the reader finds no bytes
    of the line table, [GetPackages] returns that error and the slice of
    the main packages as it was; the line table is not parsed, no package
    is enumerated, and a second call returns the same. *)
Theorem GetPackages_first_error f (e : error) :
  fresh f →
  ((initMD f).2 = Some e ∨
   ((initMD f).2 = None ∧ (getPCLNTABData (fh f)).2 = Some e)) →
  (getPackages f).2 = (pkgs f, Some e) ∧
  trace (getPackages f).1 = [EvExtractModuledata] ∧
  pclntab (getPackages f).1 = None ∧
  getPackages (getPackages f).1 = getPackages f.
Proof.
  intros (Hp & Hm & Hl & Ht) Herr.
  destruct (initModuleData_run extractModuledata findGoCompilerVersion f Hm)
    as (_ & Htr & _ & Hl1 & Hfh).
  pose proof (initModuleData_classes f ClassMain) as Hcl.
  change (pkgs (initMD f).1 = pkgs f) in Hcl.
  rewrite Ht in Htr. change ([] ++ [EvExtractModuledata]) with [EvExtractModuledata] in Htr.
  assert (Hpcln : pclnTab f = ((initMD f).1, inr e)).
  { unfold PCLNTab. destruct (initMD f) as [f1 err]. simpl in *.
    destruct Herr as [-> | [-> Hd]]; [done|]. rewrite <- Hfh in Hd.
    destruct (getPCLNTABData (fh f1)) as [[a d] err]. simpl in Hd. by subst err. }
  assert (Hinit : initPkgs f
                  = (set_initPackagesOnce true (set_initPackagesError (Some e) (initMD f).1),
                     Some e)).
  { unfold initPackages. by rewrite Hp, Hpcln. }
  clear Herr Hpcln. set (g := (initMD f).1) in *. clearbody g.
  assert (Hget : getPackages f
                 = (set_initPackagesOnce true (set_initPackagesError (Some e) g),
                    (pkgs f, Some e))).
  { unfold GetPackages. rewrite Hinit. cbn [fst snd]. by rewrite <- Hcl. }
  rewrite Hget. cbn [fst snd]. split; [done|]. split; [exact Htr|].
  split; [by rewrite <- Hl, <- Hl1|].
  unfold GetPackages. rewrite initPackages_done by done. cbn [fst snd].
  by rewrite <- Hcl.
Qed.

(** X10.  [GetTypes] returns types only when the moduledata gate and
    the package gate have run and the package enumeration has not
    failed: a binary whose packages cannot be enumerated has no type
    list either.  The list it returns is [sortTypes] of a map that
    [getTypes] returned. *)
Theorem GetTypes_needs_packages f (ts : list GoType) :
  (GetTypes stdPkgs extractModuledata findGoCompilerVersion NewTable getTypes f).2
  = (ts, None) →
  let f' := (GetTypes stdPkgs extractModuledata findGoCompilerVersion NewTable
               getTypes f).1 in
  initModuleDataOnce f' = true ∧ initPackagesOnce f' = true ∧
  initPackagesError f' = None ∧
  ∃ fi h md t, getTypes fi h md = inl t ∧ ts = sortTypes t.
Proof.
  unfold GetTypes.
  destruct (ensureCompilerVersion findGoCompilerVersion f) as [f1 [e|]]; [discriminate|].
  pose proof (initModuleData_sets_done extractModuledata findGoCompilerVersion f1) as Hmd.
  destruct (initMD f1) as [f2 [e|]]; [discriminate|]. simpl in Hmd.
  destruct (getTypes (gf_FileInfo f2) (fh f2) (gf_moduledata f2)) as [t|e] eqn:Ht;
    [|discriminate].
  pose proof (initPackages_sets_done stdPkgs extractModuledata findGoCompilerVersion
                NewTable f2) as Hpk.
  pose proof (initPackages_snd stdPkgs extractModuledata findGoCompilerVersion
                NewTable f2) as Hsnd.
  destruct (PCLNTab_frame extractModuledata findGoCompilerVersion NewTable f2)
    as (Hmd' & _).
  assert (Hmd2 : initModuleDataOnce (initPkgs f2).1 = true).
  { unfold initPackages. destruct (initPackagesOnce f2); [done|].
    destruct (pclnTab f2) as [f3 [tab|e]]; simpl in *; [|done].
    destruct (enumPackages_gates stdPkgs tab (set_pclntab (Some tab) f3))
      as (_ & Hg & _).
    destruct (enumPackages stdPkgs tab (set_pclntab (Some tab) f3)) as [f4 err].
    simpl in *. by rewrite Hg. }
  destruct (initPkgs f2) as [f3 [e|]]; [discriminate|]. simpl in *.
  intros [= <-]. repeat split; try done. by exists (gf_FileInfo f2), (fh f2), (gf_moduledata f2), t.
Qed.

End VersionAndTypes.

(** The sample handle with a resolver that knows "go1.20". *)
Lemma SetGoVersion_then_GetCompilerVersion_witness :
  GetCompilerVersion Sample.findVersion
    (SetGoVersion (fun v => if String.eqb v "go1.20" then Some (mkGoVersion v) else None)
       "go1.20" Sample.gofile).1
  = ((SetGoVersion (fun v => if String.eqb v "go1.20" then Some (mkGoVersion v) else None)
        "go1.20" Sample.gofile).1,
     (Some (mkGoVersion "go1.20"), None)).
Proof.
  apply (SetGoVersion_then_GetCompilerVersion Sample.findVersion
           (fun v => if String.eqb v "go1.20" then Some (mkGoVersion v) else None)
           Sample.gofile "go1.20" (mkGoVersion "go1.20") eq_refl).
Defined.

(** The sample handle, whose search finds "go1.20". *)
Lemma GetCompilerVersion_caches_witness :
  GetCompilerVersion Sample.findVersion Sample.gofile
  = (set_goversion (Some (mkGoVersion "go1.20")) Sample.gofile,
     (Some (mkGoVersion "go1.20"), None)).
Proof.
  apply (GetCompilerVersion_caches Sample.findVersion Sample.gofile eq_refl eq_refl).
Defined.

(** The sample handle with a moduledata extractor that fails. *)
Lemma GetPackages_first_error_witness :
  (GetPackages Sample.stdPkgs (fun _ _ => (moduledata_zero, Some (ErrOS 7)))
     Sample.findVersion (Sample.NewTable Sample.tab) Sample.gofile).2
  = ([], Some (ErrOS 7)).
Proof.
  apply (GetPackages_first_error Sample.stdPkgs
           (fun _ _ => (moduledata_zero, Some (ErrOS 7)))
           Sample.findVersion (Sample.NewTable Sample.tab) Sample.gofile (ErrOS 7)).
  - by repeat split.
  - left. reflexivity.
Defined.

(** The sample handle with a type decoder that returns one type. *)
Lemma GetTypes_needs_packages_witness :
  initPackagesError
    (GetTypes Sample.stdPkgs Sample.extractModuledata Sample.findVersion
       (Sample.NewTable Sample.tab)
       (fun _ _ _ => inl {[ 0x500000%Z := mkGoType "main" "T" ]}) Sample.gofile).1
  = None.
Proof.
  apply (GetTypes_needs_packages Sample.stdPkgs Sample.extractModuledata
           Sample.findVersion (Sample.NewTable Sample.tab)
           (fun _ _ _ => inl {[ 0x500000%Z := mkGoType "main" "T" ]}) Sample.gofile
           [mkGoType "main" "T"]).
  vm_compute. reflexivity.
Defined.

(** ** The two sorts of the handle: [sortTypes] and [GetSourceFiles] *)

Lemma ltb_lt (a b : string) :
  String.ltb a b = true ↔ OrderedTypeEx.String_as_OT.lt a b.
Proof.
  unfold String.ltb. rewrite <- OrderedTypeEx.String_as_OT.cmp_lt.
  change (OrderedTypeEx.String_as_OT.cmp a b) with (String.compare a b).
  destruct (String.compare a b); split; congruence.
Qed.

Lemma ltb_trichotomy (a b : string) :
  String.ltb a b = true ∨ a = b ∨ String.ltb b a = true.
Proof.
  unfold String.ltb. rewrite (String.compare_antisym b a).
  destruct (String.compare a b) eqn:Hc; simpl; auto.
  right. left. by apply String.compare_eq_iff.
Qed.

Lemma ltb_irrefl (a : string) : String.ltb a a = false.
Proof.
  unfold String.ltb. pose proof (String.compare_antisym a a) as Ha.
  destruct (String.compare a a); simpl in Ha; congruence.
Qed.

Lemma ltb_trans (a b c : string) :
  String.ltb a b = true → String.ltb b c = true → String.ltb a c = true.
Proof. rewrite !ltb_lt. apply OrderedTypeEx.String_as_OT.lt_trans. Qed.

Lemma ltb_asym (a b : string) : String.ltb a b = true → String.ltb b a = false.
Proof.
  intros Hab. destruct (String.ltb b a) eqn:Hba; [|done].
  pose proof (ltb_trans _ _ _ Hab Hba) as Haa. by rewrite ltb_irrefl in Haa.
Qed.

Lemma ltb_negtrans (a b c : string) :
  String.ltb a b = false → String.ltb b c = false → String.ltb a c = false.
Proof.
  intros Hab Hbc. destruct (String.ltb a c) eqn:Hac; [|done].
  destruct (ltb_trichotomy b a) as [Hba|[->|Hba]]; [|congruence..].
  pose proof (ltb_trans _ _ _ Hba Hac). congruence.
Qed.

Lemma ordered_by_cons {A : Type} (less : A → A → bool) (x : A) (l : list A) :
  ordered_by less (x :: l) ↔ Forall (λ y, less y x = false) l ∧ ordered_by less l.
Proof.
  split.
  - intros Ho. split.
    + apply Forall_lookup. intros i y Hy. apply (Ho 0%nat (S i) x y); [lia|done|done].
    + intros i j a b Hij Ha Hb. apply (Ho (S i) (S j) a b); [lia|done|done].
  - intros [HF Ho] i j a b Hij Ha Hb. destruct j as [|j]; [lia|]. simpl in Hb.
    destruct i as [|i]; simpl in Ha.
    + injection Ha as <-. by eapply (proj1 (Forall_lookup _ _) HF).
    + apply (Ho i j a b); [lia|done|done].
Qed.

Lemma insert_by_perm {A : Type} (less : A → A → bool) (v : A) (l : list A) :
  insert_by less v l ≡ₚ v :: l.
Proof.
  induction l as [|x l IH]; simpl; [done|].
  destruct (less x v); [|done]. rewrite IH. apply Permutation_swap.
Qed.

Lemma sort_by_perm {A : Type} (less : A → A → bool) (l : list A) :
  sort_by less l ≡ₚ l.
Proof.
  induction l as [|x l IH]; simpl; [done|].
  change (fold_right (insert_by less) [] l) with (sort_by less l).
  by rewrite insert_by_perm, IH.
Qed.

Section SortBy.

Context {A : Type} (less : A → A → bool).
Hypothesis less_asym : ∀ a b, less a b = true → less b a = false.
Hypothesis less_negtrans : ∀ a b c, less a b = false → less b c = false → less a c = false.

Lemma insert_by_ordered (v : A) (l : list A) :
  ordered_by less l → ordered_by less (insert_by less v l).
Proof.
  induction l as [|x l IH]; intros Ho; simpl.
  - apply ordered_by_cons. split; [constructor|]. intros i j a b _ Ha. by destruct i.
  - apply ordered_by_cons in Ho as [HF Ho]. destruct (less x v) eqn:Hxv.
    + apply ordered_by_cons. split; [|by apply IH].
      rewrite insert_by_perm. constructor; [by apply less_asym|done].
    + apply ordered_by_cons. split; [|by apply ordered_by_cons].
      constructor; [done|]. eapply Forall_impl; [exact HF|].
      intros y Hy. simpl in Hy. by apply (less_negtrans y x v).
Qed.

Lemma sort_by_ordered (l : list A) : ordered_by less (sort_by less l).
Proof.
  induction l as [|x l IH]; simpl.
  - intros i j a b _ Ha. by destruct i.
  - by apply insert_by_ordered.
Qed.

End SortBy.

Lemma type_less_asym (a b : GoType) : type_less a b = true → type_less b a = false.
Proof.
  unfold type_less.
  destruct (String.eqb_spec (gt_PackagePath a) (gt_PackagePath b)) as [He|Hne].
  - rewrite He, String.eqb_refl. apply ltb_asym.
  - destruct (String.eqb_spec (gt_PackagePath b) (gt_PackagePath a)); [congruence|].
    apply ltb_asym.
Qed.

Lemma type_less_negtrans (a b c : GoType) :
  type_less a b = false → type_less b c = false → type_less a c = false.
Proof.
  unfold type_less.
  destruct (String.eqb_spec (gt_PackagePath a) (gt_PackagePath b)) as [Hab|Hab].
  - destruct (String.eqb_spec (gt_PackagePath b) (gt_PackagePath c)) as [Hbc|Hbc].
    + destruct (String.eqb_spec (gt_PackagePath a) (gt_PackagePath c)); [|congruence].
      apply ltb_negtrans.
    + destruct (String.eqb_spec (gt_PackagePath a) (gt_PackagePath c)); [congruence|].
      rewrite Hab. tauto.
  - destruct (String.eqb_spec (gt_PackagePath b) (gt_PackagePath c)) as [Hbc|Hbc].
    + destruct (String.eqb_spec (gt_PackagePath a) (gt_PackagePath c)); [congruence|].
      rewrite <- Hbc. tauto.
    + destruct (String.eqb_spec (gt_PackagePath a) (gt_PackagePath c)) as [Hac|Hac].
      * intros H1 H2. rewrite <- Hac in H2.
        destruct (ltb_trichotomy (gt_PackagePath a) (gt_PackagePath b)) as [?|[?|?]];
          congruence.
      * apply ltb_negtrans.
Qed.

(** X11.  [sortTypes] returns every type of the map once per address that
    holds it and nothing else, and no type of the result is followed by
    one that the comparison of [sortTypes] (package path first, then
    name) puts before it. *)
Theorem sortTypes_sorted (types : gmap Z GoType) :
  (∀ t, t ∈ sortTypes types ↔ ∃ a, types !! a = Some t) ∧
  length (sortTypes types) = size types ∧
  ordered_by type_less (sortTypes types).
Proof.
  unfold sortTypes. split; [|split].
  - intros t. rewrite sort_by_perm, list_elem_of_fmap. split.
    + intros ([a t'] & -> & Hin). exists a. by apply elem_of_map_to_list.
    + intros [a Ha]. exists (a, t). split; [done|]. by apply elem_of_map_to_list.
  - by rewrite sort_by_perm, length_fmap, length_map_to_list.
  - apply sort_by_ordered; [apply type_less_asym|apply type_less_negtrans].
Qed.

Lemma insert_by_name_insert_by (sf : SourceFile) (l : list SourceFile) :
  insert_by_name sf l = insert_by name_less sf l.
Proof. induction l as [|x l IH]; simpl; [done|]. by rewrite IH. Qed.

Lemma sort_by_name_sort_by (l : list SourceFile) : sort_by_name l = sort_by name_less l.
Proof.
  induction l as [|x l IH]; simpl; [done|].
  change (fold_right insert_by_name [] l) with (sort_by_name l).
  by rewrite IH, insert_by_name_insert_by.
Qed.

Lemma count_entries_perm (l l' : list SourceFile) :
  l ≡ₚ l' → count_entries l = count_entries l'.
Proof.
  unfold count_entries. induction 1; simpl; lia.
Qed.

Lemma count_entries_cons (x : SourceFile) (l : list SourceFile) :
  count_entries (x :: l) = (length (entries x) + count_entries l)%nat.
Proof. reflexivity. Qed.

Lemma count_entries_insert (m : gmap string SourceFile) (k : string) (v : SourceFile) :
  (count_entries (map_to_list (<[k := v]> m)).*2
   + match m !! k with Some old => length (entries old) | None => 0 end
   = count_entries (map_to_list m).*2 + length (entries v))%nat.
Proof.
  destruct (m !! k) as [old|] eqn:Hk.
  - rewrite <- (insert_delete_eq m k v).
    rewrite (count_entries_perm _ ((k, v) :: map_to_list (delete k m)).*2).
    2:{ apply fmap_Permutation, map_to_list_insert, lookup_delete_eq. }
    rewrite (count_entries_perm (map_to_list m).*2 ((k, old) :: map_to_list (delete k m)).*2).
    2:{ apply fmap_Permutation. symmetry. by apply map_to_list_delete. }
    rewrite !fmap_cons, !count_entries_cons. simpl. lia.
  - rewrite (count_entries_perm _ ((k, v) :: map_to_list m).*2).
    2:{ apply fmap_Permutation. by apply map_to_list_insert. }
    rewrite !fmap_cons, !count_entries_cons. simpl. lia.
Qed.

Section SourceFiles.

Context {H : Type}.
Variable findSourceLines : Z -> Z -> GoSym.Table -> Z * Z.

Implicit Type f : GoFile H.

Lemma source_file_step_count f tab name entry end_ (tmp : gmap string SourceFile) :
  pclntab f = Some tab →
  ∃ tmp', source_file_step findSourceLines f name entry end_ tmp = Returned tmp' ∧
          count_entries (map_to_list tmp').*2 = S (count_entries (map_to_list tmp).*2) ∧
          ((∀ k sf, tmp !! k = Some sf → entries sf ≠ []) →
           ∀ k sf, tmp' !! k = Some sf → entries sf ≠ []).
Proof.
  intros Hsome. unfold source_file_step, source_lines. rewrite Hsome. simpl.
  eexists. split; [done|]. split.
  - match goal with
    | |- context [<[?k := ?v]> tmp] => pose proof (count_entries_insert tmp k v) as Hc
    end.
    unfold getSourceFile in *. simpl in Hc.
    destruct (tmp !! _) as [old|]; simpl in *; rewrite ?length_app in Hc; simpl in Hc; lia.
  - intros Hinv k sf Hk.
    apply lookup_insert_Some in Hk as [[_ <-]|[_ Hk]]; [|by apply (Hinv k)].
    simpl. intros Hnil. by apply app_eq_nil in Hnil as [_ ?].
Qed.

Lemma loop_functions_count f tab (fns : list Function) : ∀ tmp,
  pclntab f = Some tab →
  ∃ tmp', loop_functions findSourceLines f fns tmp = Returned tmp' ∧
          count_entries (map_to_list tmp').*2
          = (count_entries (map_to_list tmp).*2 + length fns)%nat ∧
          ((∀ k sf, tmp !! k = Some sf → entries sf ≠ []) →
           ∀ k sf, tmp' !! k = Some sf → entries sf ≠ []).
Proof.
  induction fns as [|fn fns IH]; intros tmp Hsome; simpl.
  - exists tmp. split; [done|]. split; [lia|done].
  - destruct (source_file_step_count f tab (fn_Name fn) (fn_Offset fn) (fn_End fn)
                tmp Hsome) as (tmp1 & -> & Hc1 & Hi1).
    simpl. destruct (IH tmp1 Hsome) as (tmp' & -> & Hc & Hi).
    exists tmp'. split; [done|]. split; [lia|]. intros Hinv. by apply Hi, Hi1.
Qed.

Lemma loop_methods_count f tab (ms : list Method) : ∀ tmp,
  pclntab f = Some tab →
  ∃ tmp', loop_methods findSourceLines f ms tmp = Returned tmp' ∧
          count_entries (map_to_list tmp').*2
          = (count_entries (map_to_list tmp).*2 + length ms)%nat ∧
          ((∀ k sf, tmp !! k = Some sf → entries sf ≠ []) →
           ∀ k sf, tmp' !! k = Some sf → entries sf ≠ []).
Proof.
  induction ms as [|m ms IH]; intros tmp Hsome; simpl.
  - exists tmp. split; [done|]. split; [lia|done].
  - destruct (source_file_step_count f tab (m_Receiver m ++ fn_Name (m_Function m))
                (fn_Offset (m_Function m)) (fn_End (m_Function m))
                tmp Hsome) as (tmp1 & -> & Hc1 & Hi1).
    simpl. destruct (IH tmp1 Hsome) as (tmp' & -> & Hc & Hi).
    exists tmp'. split; [done|]. split; [lia|]. intros Hinv. by apply Hi, Hi1.
Qed.

(** X12.  On a handle that holds a line table, [GetSourceFiles] returns
    a list of source files that has one entry for every function and one
    for every method of the package, no file without entry, and no file
    followed by one of a smaller name. *)
Theorem GetSourceFiles_counts_and_order f (tab : GoSym.Table) (p : Package) :
  pclntab f = Some tab →
  ∃ l, GetSourceFiles findSourceLines f p = Returned l ∧
       count_entries l = (length (Functions p) + length (Methods p))%nat ∧
       (∀ sf, sf ∈ l → entries sf ≠ []) ∧
       ordered_by name_less l.
Proof.
  intros Hsome. unfold GetSourceFiles.
  destruct (loop_functions_count f tab (Functions p) ∅ Hsome) as (tmp1 & -> & Hc1 & Hi1).
  simpl.
  destruct (loop_methods_count f tab (Methods p) tmp1 Hsome) as (tmp2 & -> & Hc2 & Hi2).
  simpl. eexists. split; [done|]. rewrite sort_by_name_sort_by. split; [|split].
  - rewrite (count_entries_perm _ _ (sort_by_perm name_less _)), Hc2, Hc1.
    by rewrite map_to_list_empty.
  - intros sf. rewrite sort_by_perm, list_elem_of_fmap.
    intros ([k sf'] & -> & Hin). apply elem_of_map_to_list in Hin.
    apply (Hi2 (Hi1 ltac:(intros ? ?; by rewrite lookup_empty)) k sf' Hin).
  - apply sort_by_ordered.
    + intros a b. apply ltb_asym.
    + intros a b c. apply ltb_negtrans.
Qed.

End SourceFiles.

(** ** Ranges of bytes and the sections of a PE image *)

Lemma sub64_add64 (address len base : Z) :
  U.sub64 (U.add64 address len) base = U.wrap 64 (U.sub64 address base + len).
Proof.
  unfold U.sub64, U.add64, U.wrap.
  rewrite Zminus_mod_idemp_l, Zplus_mod_idemp_l. f_equal. lia.
Qed.

(** X13.  When [Bytes] returns the [n1 + n2] bytes at an address, it
    returns for the length [n1] at the same address the first [n1] of
    them: a shorter read never fails where a longer one succeeds, and
    never reads other bytes. *)
Theorem Bytes_prefix {H : Type} `{HH : fileHandler H} (f : GoFile H)
    (address n1 n2 : Z) (bs : list byte) :
  (0 ≤ n1)%Z → (0 ≤ n2)%Z → (n1 + n2 < 2 ^ 64)%Z →
  Bytes f address (n1 + n2) = Returned (bs, None) →
  Bytes f address n1 = Returned (take (Z.to_nat n1) bs, None).
Proof.
  intros Hn1 Hn2 Hlt. unfold Bytes.
  destruct (getSectionDataFromAddress (fh f) address) as [[base section] [e|]];
    [discriminate|].
  rewrite !sub64_add64. set (lo := U.sub64 address base).
  assert (Hlo : (0 ≤ lo < 2 ^ 64)%Z) by (apply Z.mod_pos_bound; lia).
  destruct (Z.ltb_spec (Z.of_nat (length section)) (U.wrap 64 (lo + (n1 + n2))))
    as [|Hhi]; [discriminate|].
  unfold slice.
  destruct (Z.leb_spec 0 lo) as [_|]; [|lia].
  destruct (Z.leb_spec lo (U.wrap 64 (lo + (n1 + n2)))) as [Hle|]; [|discriminate].
  destruct (Z.leb_spec (U.wrap 64 (lo + (n1 + n2))) (Z.of_nat (length section)))
    as [_|]; [|lia].
  simpl. intros [= <-].
  assert (Hnowrap : (lo + (n1 + n2) < 2 ^ 64)%Z).
  { destruct (Z.lt_ge_cases (lo + (n1 + n2)) (2 ^ 64)) as [|Hge]; [done|].
    exfalso. unfold U.wrap in Hle.
    assert (Heq : ((lo + (n1 + n2)) mod 2 ^ 64 = lo + (n1 + n2) - 2 ^ 64)%Z).
    { symmetry. apply (Z.mod_unique_pos _ _ 1); lia. }
    lia. }
  assert (Hw : U.wrap 64 (lo + (n1 + n2)) = (lo + (n1 + n2))%Z)
    by (apply Z.mod_small; lia).
  assert (Hw1 : U.wrap 64 (lo + n1) = (lo + n1)%Z) by (apply Z.mod_small; lia).
  rewrite Hw in *. rewrite Hw1.
  destruct (Z.ltb_spec (Z.of_nat (length section)) (lo + n1)) as [|_]; [lia|].
  destruct (Z.leb_spec lo (lo + n1)) as [_|]; [|lia].
  destruct (Z.leb_spec (lo + n1) (Z.of_nat (length section))) as [_|]; [|lia].
  simpl. rewrite take_take. do 3 f_equal. lia.
Qed.

(** X14.  [getSectionDataFromAddress] of the PE reader answers with the
    first section, in the order of the section table, that is backed by
    the file (its offset is not 0) and whose range holds the address; a
    section that exists only in memory is never the answer, and when no
    section backed by the file holds the address the answer is the
    missing section. *)
Theorem getSectionDataFromAddress_first_match (p : peFile) (address : Z) :
  ((∀ sec, sec ∈ PE.Sections (file p) → PE.Offset sec ≠ 0%Z →
           section_holds (imageBase p) sec address = false) →
   pe_getSectionDataFromAddress p address = (0%Z, [], Some ErrSectionDoesNotExist)) ∧
  (∀ i sec, PE.Sections (file p) !! i = Some sec →
     PE.Offset sec ≠ 0%Z → section_holds (imageBase p) sec address = true →
     (∀ j sec', (j < i)%nat → PE.Sections (file p) !! j = Some sec' →
                PE.Offset sec' = 0%Z ∨ section_holds (imageBase p) sec' address = false) →
     pe_getSectionDataFromAddress p address
     = (U.add64 (imageBase p) (PE.VirtualAddress sec),
        (PE.Data_pair sec).1, (PE.Data_pair sec).2)).
Proof.
  unfold pe_getSectionDataFromAddress.
  generalize (PE.Sections (file p)) as secs. generalize (imageBase p) as ib.
  intros ib secs. split.
  - induction secs as [|s secs IH]; intros Hall; simpl; [done|].
    destruct (Z.eqb_spec (PE.Offset s) 0) as [Hz|Hnz].
    + apply IH. intros sec Hin. apply Hall. by right.
    + rewrite (Hall s) by (done || by left). apply IH. intros sec Hin. apply Hall. by right.
  - induction secs as [|s secs IH]; intros i sec Hi Hoff Hh Hbefore; [done|].
    destruct i as [|i]; simpl in *.
    + injection Hi as ->. destruct (Z.eqb_spec (PE.Offset sec) 0) as [|_]; [done|].
      rewrite Hh. by destruct (PE.Data_pair sec).
    + assert (Hs : PE.Offset s = 0%Z ∨ section_holds ib s address = false)
        by (apply (Hbefore 0%nat s); [lia|done]).
      assert (Hrest : section_from_address ib secs address
                      = (U.add64 ib (PE.VirtualAddress sec),
                         (PE.Data_pair sec).1, (PE.Data_pair sec).2)).
      { apply (IH i sec Hi Hoff Hh). intros j sec' Hj Hsec'.
        apply (Hbefore (S j) sec'); [lia|done]. }
      destruct (Z.eqb_spec (PE.Offset s) 0) as [|Hnz]; [done|].
      destruct Hs as [Hz| ->]; done.
Qed.

Lemma find_first {A : Type} (P : A → bool) (l : list A) : ∀ (i : nat) (x : A),
  l !! i = Some x → P x = true →
  (∀ j y, (j < i)%nat → l !! j = Some y → P y = false) →
  List.find P l = Some x.
Proof.
  induction l as [|a l IH]; intros i x Hi Hx Hbefore; [done|].
  destruct i as [|i]; simpl in *.
  - injection Hi as ->. by rewrite Hx.
  - rewrite (Hbefore 0%nat a) by (lia || done).
    apply (IH i x Hi Hx). intros j y Hj Hy. apply (Hbefore (S j) y); [lia|done].
Qed.

(** X15.  The lookups of the PE reader agree: [getCodeSection] is
    [getSectionData] of ".text", [getRData] returns the data and the
    error of [getSectionData] of ".rdata", and the address that
    [getSectionData] returns for a name, handed to
    [getSectionDataFromAddress], gives the same answer when the section
    is backed by the file, holds its own first address, and no section
    before it carries the name or is backed by the file and holds that
    address. *)
Theorem PE_lookups_agree (p : peFile) :
  pe_getCodeSection p = pe_getSectionData p ".text" ∧
  pe_getRData p = ((pe_getSectionData p ".rdata").1.2, (pe_getSectionData p ".rdata").2) ∧
  ∀ i sec,
    let base := U.add64 (imageBase p) (PE.VirtualAddress sec) in
    PE.Sections (file p) !! i = Some sec →
    PE.Offset sec ≠ 0%Z → section_holds (imageBase p) sec base = true →
    (∀ j sec', (j < i)%nat → PE.Sections (file p) !! j = Some sec' →
       String.eqb (PE.sec_Name sec') (PE.sec_Name sec) = false ∧
       (PE.Offset sec' = 0%Z ∨ section_holds (imageBase p) sec' base = false)) →
    (pe_getSectionData p (PE.sec_Name sec)).1.1 = base ∧
    pe_getSectionDataFromAddress p base = pe_getSectionData p (PE.sec_Name sec).
Proof.
  split; [done|]. split.
  - unfold pe_getRData, pe_getSectionData.
    destruct (PE.Section (file p) ".rdata") as [sec|]; [|done].
    by destruct (PE.Data_pair sec).
  - intros i sec base Hi Hoff Hh Hbefore.
    assert (Hname : pe_getSectionData p (PE.sec_Name sec)
                    = (base, (PE.Data_pair sec).1, (PE.Data_pair sec).2)).
    { unfold pe_getSectionData, PE.Section.
      rewrite (find_first _ _ i sec Hi (String.eqb_refl _)
                 (λ j y Hj Hy, proj1 (Hbefore j y Hj Hy))).
      by destruct (PE.Data_pair sec). }
    rewrite Hname. split; [done|].
    assert (Haddr : pe_getSectionDataFromAddress p base
                    = (base, (PE.Data_pair sec).1, (PE.Data_pair sec).2)); [|done].
    unfold pe_getSectionDataFromAddress.
    revert Hi Hbefore. generalize (PE.Sections (file p)) as secs. intros secs.
    revert i. induction secs as [|s secs IH]; intros i Hi Hbefore; [done|].
    destruct i as [|i]; simpl in *.
    + injection Hi as ->. destruct (Z.eqb_spec (PE.Offset sec) 0) as [|_]; [done|].
      fold base. rewrite Hh. by destruct (PE.Data_pair sec).
    + destruct (Hbefore 0%nat s ltac:(lia) eq_refl) as [_ Hs].
      assert (Hrest : section_from_address (imageBase p) secs base
                      = (base, (PE.Data_pair sec).1, (PE.Data_pair sec).2)).
      { apply (IH i Hi). intros j sec' Hj Hsec'.
        apply (Hbefore (S j) sec'); [lia|done]. }
      destruct (Z.eqb_spec (PE.Offset s) 0) as [|Hnz]; [done|].
      destruct Hs as [Hz| ->]; done.
Qed.

(** ** The normalized symbol table of a PE image *)

Lemma collect_symbols_values (p : peFile) (ss : list PE.Symbol) :
  (∀ s, s ∈ ss → rejected_symbol p s = false) →
  ∀ syms addrs,
    collect_symbols p ss syms addrs
    = Some (syms ++ map (λ s, mksymbol (PE.sym_Name s) (biased_value p s) 0) ss,
            addrs ++ map (biased_value p) ss).
Proof.
  induction ss as [|s ss IH]; intros Hall syms addrs; simpl.
  - by rewrite !app_nil_r.
  - assert (Hs : rejected_symbol p s = false) by (apply Hall; by left).
    assert (Hrest : ∀ s', s' ∈ ss → rejected_symbol p s' = false)
      by (intros s' Hin; apply Hall; by right).
    unfold rejected_symbol in Hs. unfold biased_value at 1 3.
    destruct (is_special_section_number (PE.SectionNumber s)); simpl in Hs.
    + rewrite (IH Hrest). by rewrite <- !app_assoc.
    + rewrite Hs, (IH Hrest). by rewrite <- !app_assoc.
Qed.

Lemma insert_sorted_insert_by (x : Z) (l : list Z) :
  insert_sorted x l = insert_by Z.ltb x l.
Proof.
  induction l as [|y l IH]; simpl; [done|]. rewrite IH.
  destruct (Z.leb_spec x y), (Z.ltb_spec y x); (done || lia).
Qed.

Lemma Sort_sort_by (l : list Z) : Sort l = sort_by Z.ltb l.
Proof.
  induction l as [|x l IH]; simpl; [done|].
  change (fold_right insert_sorted [] l) with (Sort l).
  by rewrite IH, insert_sorted_insert_by.
Qed.

Lemma Sort_perm (l : list Z) : Sort l ≡ₚ l.
Proof. rewrite Sort_sort_by. apply sort_by_perm. Qed.

Lemma Sort_ordered (l : list Z) : ordered_by Z.ltb (Sort l).
Proof.
  rewrite Sort_sort_by. apply sort_by_ordered.
  - intros a b. rewrite Z.ltb_lt, Z.ltb_ge. lia.
  - intros a b c. rewrite !Z.ltb_ge. lia.
Qed.

Lemma search_loop_spec (f : Z → bool) (n : Z) :
  (∀ x y, (0 ≤ x)%Z → (x ≤ y)%Z → (y < n)%Z → f x = true → f y = true) →
  ∀ (fuel : nat) (i j : Z),
    (0 ≤ i)%Z → (i ≤ j)%Z → (j ≤ n)%Z → (j - i < Z.of_nat fuel)%Z →
    (∀ x, (0 ≤ x < i)%Z → f x = false) →
    (∀ x, (j ≤ x < n)%Z → f x = true) →
    let r := search_loop fuel i j f in
    (0 ≤ r ≤ n)%Z ∧ (∀ x, (0 ≤ x < r)%Z → f x = false) ∧
    (∀ x, (r ≤ x < n)%Z → f x = true).
Proof.
  intros Hmono. induction fuel as [|fuel IH]; intros i j H0 Hij Hjn Hfuel Hlo Hhi;
    [lia|].
  simpl. destruct (Z.ltb_spec i j) as [Hlt|Hge].
  - rewrite Z.shiftr_div_pow2 by lia. change (2 ^ 1)%Z with 2%Z.
    assert (Hh : (i ≤ (i + j) / 2 < j)%Z).
    { split; [apply Z.div_le_lower_bound; lia | apply Z.div_lt_upper_bound; lia]. }
    set (h := ((i + j) / 2)%Z) in *. destruct (f h) eqn:Hfh; simpl.
    + apply IH; try lia; [done|]. intros x Hx. apply (Hmono h x); (lia || done).
    + apply IH; try lia; [|done]. intros x Hx.
      destruct (f x) eqn:Hfx; [|done]. rewrite <- Hfh. symmetry.
      apply (Hmono x h); (lia || done).
  - assert (i = j) as -> by lia. split; [lia|]. split; [done|done].
Qed.

Lemma Search_spec (f : Z → bool) (n : Z) :
  (0 ≤ n)%Z →
  (∀ x y, (0 ≤ x)%Z → (x ≤ y)%Z → (y < n)%Z → f x = true → f y = true) →
  (0 ≤ Search n f ≤ n)%Z ∧ (∀ x, (0 ≤ x < Search n f)%Z → f x = false) ∧
  (∀ x, (Search n f ≤ x < n)%Z → f x = true).
Proof.
  intros Hn Hmono. unfold Search.
  apply (search_loop_spec f n Hmono); try lia; intros x Hx; lia.
Qed.

Lemma least_above_spec (v : Z) (l : list Z) :
  match least_above v l with
  | Some m => m ∈ l ∧ (v < m)%Z ∧ ∀ a, a ∈ l → (v < a)%Z → (m ≤ a)%Z
  | None => ∀ a, a ∈ l → (a ≤ v)%Z
  end.
Proof.
  induction l as [|x l IH]; simpl.
  - intros a Ha. inversion Ha.
  - change (fold_right _ None l) with (least_above v l).
    destruct (Z.ltb_spec v x) as [Hlt|Hge]; destruct (least_above v l) as [m|].
    + destruct IH as (Hin & Hvm & Hmin). destruct (Z.min_spec x m) as [[? ->]|[? ->]].
      * split; [by left|]. split; [done|]. intros a Ha Hva.
        apply elem_of_cons in Ha as [->|Ha]; [lia|]. specialize (Hmin a Ha Hva). lia.
      * split; [by right|]. split; [done|]. intros a Ha Hva.
        apply elem_of_cons in Ha as [->|Ha]; [lia|]. by apply Hmin.
    + split; [by left|]. split; [done|]. intros a Ha Hva.
      apply elem_of_cons in Ha as [->|Ha]; [lia|]. specialize (IH a Ha). lia.
    + destruct IH as (Hin & Hvm & Hmin). split; [by right|]. split; [done|].
      intros a Ha Hva. apply elem_of_cons in Ha as [->|Ha]; [lia|]. by apply Hmin.
    + intros a Ha. apply elem_of_cons in Ha as [->|Ha]; [lia|]. by apply IH.
Qed.

Lemma least_above_unique (v : Z) (l : list Z) (m : Z) :
  m ∈ l → (v < m)%Z → (∀ a, a ∈ l → (v < a)%Z → (m ≤ a)%Z) →
  least_above v l = Some m.
Proof.
  intros Hin Hvm Hmin. pose proof (least_above_spec v l) as Hs.
  destruct (least_above v l) as [m'|].
  - destruct Hs as (Hin' & Hvm' & Hmin'). f_equal.
    specialize (Hmin m' Hin' Hvm'). specialize (Hmin' m Hin Hvm). lia.
  - specialize (Hs m Hin). lia.
Qed.

Lemma least_above_none (v : Z) (l : list Z) :
  (∀ a, a ∈ l → (a ≤ v)%Z) → least_above v l = None.
Proof.
  intros Hall. pose proof (least_above_spec v l) as Hs.
  destruct (least_above v l) as [m|]; [|done].
  destruct Hs as (Hin & Hvm & _). specialize (Hall m Hin). lia.
Qed.

Lemma least_above_perm (v : Z) (l l' : list Z) :
  l ≡ₚ l' → least_above v l = least_above v l'.
Proof.
  intros Hp. pose proof (least_above_spec v l') as Hs.
  destruct (least_above v l') as [m|].
  - destruct Hs as (Hin & Hvm & Hmin). apply least_above_unique.
    + by rewrite Hp.
    + done.
    + intros a Ha. apply Hmin. by rewrite <- Hp.
  - apply least_above_none. intros a Ha. apply Hs. by rewrite <- Hp.
Qed.

(** The second loop of [initSymTab] on sorted addresses: the size is the
    distance to the least address above the symbol. *)
Lemma size_symbol_spec (addrs : list Z) (sym : symbol) :
  ordered_by Z.ltb addrs →
  size_symbol addrs sym
  = mksymbol (symName sym) (symValue sym)
      match least_above (symValue sym) addrs with
      | Some a => U.sub64 a (symValue sym)
      | None => symSize sym
      end.
Proof.
  intros Hord. unfold size_symbol.
  set (n := Z.of_nat (length addrs)).
  set (f := fun x => (symValue sym <? nth (Z.to_nat x) addrs 0)%Z).
  assert (Hnth : ∀ x, (0 ≤ x < n)%Z → addrs !! Z.to_nat x = Some (nth (Z.to_nat x) addrs 0%Z)).
  { intros x Hx. rewrite nth_lookup.
    destruct (lookup_lt_is_Some_2 addrs (Z.to_nat x)) as [a ->]; [lia|done]. }
  assert (Hmono : ∀ x y, (0 ≤ x)%Z → (x ≤ y)%Z → (y < n)%Z → f x = true → f y = true).
  { intros x y H0 Hxy Hyn Hfx. unfold f in *. apply Z.ltb_lt in Hfx. apply Z.ltb_lt.
    destruct (decide (x = y)) as [->|Hne]; [done|].
    pose proof (Hord (Z.to_nat x) (Z.to_nat y) _ _ ltac:(lia)
                  (Hnth x ltac:(lia)) (Hnth y ltac:(lia))) as Hle.
    apply Z.ltb_ge in Hle. lia. }
  destruct (Search_spec f n ltac:(lia) Hmono) as (Hr & Hbelow & Habove).
  fold f. set (r := Search n f) in *.
  destruct (Z.ltb_spec r n) as [Hlt|Hge].
  - rewrite (least_above_unique (symValue sym) addrs (nth (Z.to_nat r) addrs 0%Z)); [done|..].
    + eapply list_elem_of_lookup_2. apply Hnth. lia.
    + apply Z.ltb_lt. apply (Habove r). lia.
    + intros a Ha Hva. apply list_elem_of_lookup_1 in Ha as [k Hk].
      pose proof (lookup_lt_Some _ _ _ Hk) as Hklen.
      assert (Hka : nth k addrs 0%Z = a) by (by rewrite nth_lookup, Hk).
      destruct (decide (Z.of_nat k < r)%Z) as [Hkr|Hkr].
      * pose proof (Hbelow (Z.of_nat k) ltac:(lia)) as Hf. unfold f in Hf.
        rewrite Nat2Z.id, Hka in Hf. apply Z.ltb_ge in Hf. lia.
      * destruct (decide (Z.of_nat k = r)) as [Heq|Hne].
        { rewrite <- Heq, Nat2Z.id, Hka. lia. }
        pose proof (Hord (Z.to_nat r) k _ _ ltac:(lia) (Hnth r ltac:(lia)) Hk) as Hle.
        apply Z.ltb_ge in Hle. lia.
  - rewrite least_above_none; [by destruct sym|].
    intros a Ha. apply list_elem_of_lookup_1 in Ha as [k Hk].
    pose proof (lookup_lt_Some _ _ _ Hk) as Hklen.
    pose proof (Hbelow (Z.of_nat k) ltac:(lia)) as Hf. unfold f in Hf.
    rewrite Nat2Z.id, nth_lookup, Hk in Hf. simpl in Hf. by apply Z.ltb_ge in Hf.
Qed.

Lemma fill_table_snoc (syms : list symbol) (sym : symbol) (t : gmap string symbol) :
  fill_table (syms ++ [sym]) t = <[symName sym := sym]> (fill_table syms t).
Proof. unfold fill_table. by rewrite fold_left_app. Qed.

(** The third loop of [initSymTab]: a later symbol of a name replaces an
    earlier one. *)
Lemma fill_table_lookup (syms : list symbol) (t : gmap string symbol) (name : string) :
  fill_table syms t !! name
  = match List.find (fun sym => String.eqb (symName sym) name) (rev syms) with
    | Some sym => Some sym
    | None => t !! name
    end.
Proof.
  induction syms as [|sym syms IH] using rev_ind; [done|].
  rewrite fill_table_snoc, rev_app_distr. simpl.
  destruct (String.eqb_spec (symName sym) name) as [->|Hne].
  - by rewrite lookup_insert_eq.
  - by rewrite lookup_insert_ne.
Qed.

Lemma find_map {A B : Type} (P : B → bool) (g : A → B) (l : list A) :
  List.find P (map g l) = g <$> List.find (fun a => P (g a)) l.
Proof.
  induction l as [|a l IH]; simpl; [done|]. by destruct (P (g a)).
Qed.

(** X16.  On the first call of [initSymTab] on a reader whose table is
    empty and without error, when no symbol is rejected: [getSymbol] of a
    name that no symbol carries fails with [ErrSymbolNotFound]; for a
    name that symbols carry it returns the value of the last of them,
    raised by the image base and the virtual address of its section
    unless its section number is 0, -1 or -2, and as size the distance
    to the least value of a symbol above it, 0 when there is none.
    [hasSymbolTable] reports whether the file has a symbol. *)
Theorem getSymbol_value_and_size (p : peFile) (name : string) :
  symtab_done (symtab p) = false → table (symtab p) = ∅ →
  symtab_err (symtab p) = None →
  (∀ s, s ∈ PE.Symbols (file p) → rejected_symbol p s = false) →
  (getSymbol p name).2
  = match last_named name (PE.Symbols (file p)) with
    | None => (0%Z, 0%Z, Some ErrSymbolNotFound)
    | Some s =>
        (biased_value p s,
         match least_above (biased_value p s)
                 (map (biased_value p) (PE.Symbols (file p))) with
         | Some a => U.sub64 a (biased_value p s)
         | None => 0%Z
         end, None)
    end ∧
  (hasSymbolTable p).2
  = (match PE.Symbols (file p) with [] => false | _ => true end, None).
Proof.
  intros Hd Ht He Hok.
  set (ss := PE.Symbols (file p)) in *.
  set (addrs := Sort (map (biased_value p) ss)).
  set (g := λ s, size_symbol addrs (mksymbol (PE.sym_Name s) (biased_value p s) 0)).
  assert (Hinit : initSymTab p
                  = (set_symtab (mkSymbolTableOnce true (fill_table (map g ss) ∅) None) p,
                     None)).
  { unfold initSymTab. rewrite Hd. fold ss.
    rewrite (collect_symbols_values p ss Hok [] []). simpl.
    rewrite Ht, He. fold addrs. by rewrite map_map. }
  assert (Hlook : ∀ nm, fill_table (map g ss) ∅ !! nm = g <$> last_named nm ss).
  { intros nm. rewrite fill_table_lookup, <- map_rev, find_map, lookup_empty.
    unfold last_named.
    assert (Hext : ∀ l, find (λ a, String.eqb (symName (g a)) nm) l
                        = find (λ s, String.eqb (PE.sym_Name s) nm) l).
    { intros l. induction l as [|a l IH]; simpl; [done|].
      unfold g at 1. by rewrite symName_size_symbol, IH. }
    rewrite Hext. by destruct (find _ _). }
  split.
  - unfold getSymbol. rewrite Hinit. simpl. rewrite Hlook.
    destruct (last_named name ss) as [s|]; [|done]. simpl.
    unfold g. rewrite size_symbol_spec by apply Sort_ordered. simpl.
    unfold addrs. by rewrite (least_above_perm _ _ _ (Sort_perm _)).
  - unfold hasSymbolTable. rewrite Hinit. simpl. f_equal.
    destruct ss as [|s ss'] eqn:Hss.
    + apply bool_decide_eq_false. change (fill_table (map g []) ∅) with (∅ : gmap string symbol).
      rewrite map_size_empty. lia.
    + apply bool_decide_eq_true.
      assert (Hsome : is_Some (fill_table (map g (s :: ss')) ∅ !! PE.sym_Name s)).
      { apply fill_table_holds.
        change (PE.sym_Name s ∈ symName (g s) :: map symName (map g ss')).
        unfold g at 1. rewrite symName_size_symbol. by left. }
      pose proof (map_size_ne_0_lookup_2 _ _ Hsome). lia.
Qed.

(** ** [openPE] and [Open] on a PE file *)

(** X17.  When [openPE] returns, it returns either an error and no
    reader, or a reader and no error; the reader then has the path it
    was opened with, the image base of the optional header of the parsed
    file, which is a 32-bit or a 64-bit one, and two gates that have not
    run. *)
Theorem openPE_reader_or_error (os_Open : string → list byte + error)
    (pe_NewFile : list byte → outcome (PE.File + error))
    (fp : string) (res : openPE_results) :
  openPE os_Open pe_NewFile fp = Returned res →
  match res with
  | (Some p, None) =>
      osFile p = fp ∧ symtab p = newSymbolTableOnce ∧ pcln p = newPclnTabOnce ∧
      (PE.Header (file p) = PE.OptionalHeader32 (imageBase p) ∨
       PE.Header (file p) = PE.OptionalHeader64 (imageBase p)) ∧
      ∃ content, os_Open fp = inl content ∧ pe_NewFile content = Returned (inl (file p))
  | (None, Some _) => True
  | _ => False
  end.
Proof.
  unfold openPE, openPE_body.
  destruct (os_Open fp) as [content|e]; [|by intros [= <-]].
  destruct (pe_NewFile content) as [[f|e]|r] eqn:Hp; simpl; [| by intros [= <-] | done].
  destruct (PE.Header f) eqn:Hh; intros [= <-]; simpl; [| |done].
  - repeat split; try done; [by left|]. by exists content.
  - repeat split; try done; [by right|]. by exists content.
Qed.

Lemma openPE_reader_or_error_witness :
  imageBase Sample.pe = 0x400000%Z ∧
  PE.Header (file Sample.pe) = PE.OptionalHeader64 0x400000.
Proof.
  pose proof (openPE_reader_or_error SampleOpenPE.os_Open SampleOpenPE.pe_NewFile
                "sample.exe" (Some Sample.pe, None) eq_refl) as (_ & _ & _ & Hh & _).
  split; [reflexivity|]. destruct Hh as [Hh|Hh]; [vm_compute in Hh; discriminate Hh | exact Hh].
Defined.

Lemma peMagic_not_elfMagic (content : list byte) :
  fileMagicMatch content peMagic = true → fileMagicMatch content elfMagic = false.
Proof.
  unfold fileMagicMatch, peMagic, elfMagic.
  destruct content as [|a content]; [done|]. cbn [GoBytes.HasPrefix].
  intros Hpe. apply andb_true_iff in Hpe as [Ha _]. apply Z.eqb_eq in Ha. by subst a.
Qed.

Section OpenPEFile.

Context {elfFile machoFile : Type}.
Context `{HE : fileHandler elfFile} `{HM : fileHandler machoFile}.
Variable os_Open : string -> list byte + error.
Variable pe_NewFile : list byte -> outcome (PE.File + error).
Variable openELF : string -> elfFile + error.
Variable openMachO : string -> machoFile + error.
Variable searchSectionForTab : list byte -> ByteOrder -> list byte + error.
Variable parseBuildIDFromRaw : list byte -> string * option error.
Variable extractBuildInfo : GoFile (anyHandler elfFile machoFile) -> BuildInfo + error.

Local Abbreviation open :=
  (Open os_Open pe_NewFile openELF openMachO searchSectionForTab parseBuildIDFromRaw
        extractBuildInfo).

(** X18.  On a file of at least four bytes that starts with the PE
    magic, [Open] panics when [pe.NewFile] panics, fails with the wrapped
    error of [pe.NewFile] or with "unknown optional header type", and
    otherwise returns a handle on the PE reader of the parsed file, for
    Windows and little-endian, on which no gate has run: a build ID or a
    build info that cannot be read does not make [Open] fail, and the
    ELF and Mach-O openers are not called. *)
Theorem Open_PE_file (filePath : string) (content : list byte) :
  os_Open filePath = inl content → (4 ≤ length content)%nat →
  fileMagicMatch content peMagic = true →
  match pe_NewFile content with
  | Panicked r => open filePath = Panicked r
  | Returned (inr e) =>
      open filePath = Returned (inr (ErrWrap "error when parsing the PE file: " e))
  | Returned (inl f) =>
      match PE.Header f with
      | PE.OptionalHeaderNone =>
          open filePath = Returned (inr (ErrNew "unknown optional header type"))
      | PE.OptionalHeader32 ib | PE.OptionalHeader64 ib =>
          ∃ g, open filePath = Returned (inl g) ∧
               fh g = HandlerPE (mkpeFile f filePath ib newPclnTabOnce newSymbolTableOnce) ∧
               OS (gf_FileInfo g) = "windows" ∧
               fi_ByteOrder (gf_FileInfo g) = LittleEndian ∧
               fresh g
      end
  end.
Proof.
  intros Hopen Hlen Hpe. pose proof (peMagic_not_elfMagic content Hpe) as Helf.
  unfold Open. rewrite Hopen.
  destruct content as [|a [|b [|c [|d rest]]]]; simpl in Hlen; try lia.
  change (file_Read (a :: b :: c :: d :: rest) maxMagicBufLen)
    with (4%Z, [a; b; c; d], @None error).
  cbv beta iota zeta. change (4 <? maxMagicBufLen)%Z with false. cbv iota.
  rewrite !(fileMagicMatch_buffer _ a b c d rest) by (simpl; lia).
  rewrite Helf, Hpe. unfold openPE, openPE_body. rewrite Hopen.
  destruct (pe_NewFile (a :: b :: c :: d :: rest)) as [[f|e]|r]; simpl; [|done|done].
  destruct (PE.Header f) as [ib|ib|]; simpl; [| |done].
  - eexists. split; [done|].
    match goal with
    | |- context [finish_Open ?s ?q ?x ?h] =>
        pose proof (finish_Open_fresh s q x h) as Hfresh;
        set (g := finish_Open s q x h) in *
    end.
    assert (Hg : fh g = HandlerPE (mkpeFile f filePath ib newPclnTabOnce newSymbolTableOnce)
                 ∧ OS (gf_FileInfo g) = "windows"
                 ∧ fi_ByteOrder (gf_FileInfo g) = LittleEndian).
    { unfold g, finish_Open. simpl.
      destruct (pe_getBuildID _ _) as [buildID [e|]];
        destruct (extractBuildInfo _) as [[[v|] mi]|e']; simpl;
        unfold pe_getFileInfo; by destruct (_ =? _)%Z. }
    destruct Hg as (? & ? & ?). do 3 (split; [done|]). exact Hfresh.
  - eexists. split; [done|].
    match goal with
    | |- context [finish_Open ?s ?q ?x ?h] =>
        pose proof (finish_Open_fresh s q x h) as Hfresh;
        set (g := finish_Open s q x h) in *
    end.
    assert (Hg : fh g = HandlerPE (mkpeFile f filePath ib newPclnTabOnce newSymbolTableOnce)
                 ∧ OS (gf_FileInfo g) = "windows"
                 ∧ fi_ByteOrder (gf_FileInfo g) = LittleEndian).
    { unfold g, finish_Open. simpl.
      destruct (pe_getBuildID _ _) as [buildID [e|]];
        destruct (extractBuildInfo _) as [[[v|] mi]|e']; simpl;
        unfold pe_getFileInfo; by destruct (_ =? _)%Z. }
    destruct Hg as (? & ? & ?). do 3 (split; [done|]). exact Hfresh.
Qed.

End OpenPEFile.

(** The sample image behind a file that starts with "MZ". *)
Lemma Open_PE_file_witness :
  ∃ g, SampleOpenPE.open "sample.exe" = Returned (inl g) ∧
       fh g = HandlerPE Sample.pe ∧ OS (gf_FileInfo g) = "windows" ∧
       fi_ByteOrder (gf_FileInfo g) = LittleEndian ∧ fresh g.
Proof.
  apply (@Open_PE_file Empty_set Empty_set SampleOpen.no_reader SampleOpen.no_reader
           SampleOpenPE.os_Open SampleOpenPE.pe_NewFile SampleOpen.open_none
           SampleOpen.open_none Sample.scanner Sample.parseBuildID
           SampleOpen.extractBuildInfo "sample.exe" SampleOpenPE.image eq_refl).
  - simpl. lia.
  - reflexivity.
Defined.

(** ** The further statements on the sample inputs *)

(** The package [main] of the sample table: one function and one method. *)
Lemma GetSourceFiles_counts_and_order_witness :
  ∃ l, GetSourceFiles Sample.findSourceLines
         (set_pclntab (Some Sample.tab) Sample.gofile)
         (mkPackage "main" "/home/u/proj/cmd" [to_function Sample.f_main]
                    [to_method Sample.f_run])
       = Returned l ∧
       count_entries l = 2%nat ∧
       (∀ sf, sf ∈ l → entries sf ≠ []) ∧
       ordered_by name_less l.
Proof.
  apply (GetSourceFiles_counts_and_order Sample.findSourceLines
           (set_pclntab (Some Sample.tab) Sample.gofile) Sample.tab
           (mkPackage "main" "/home/u/proj/cmd" [to_function Sample.f_main]
                      [to_method Sample.f_run])).
  reflexivity.
Defined.

(** Eight bytes of the code of the sample image, then the first four. *)
Lemma Bytes_prefix_witness :
  Bytes Sample.gofile 0x401000 4
  = Returned (take (Z.to_nat 4) (replicate 8 0x90%Z), None).
Proof.
  apply (Bytes_prefix Sample.gofile 0x401000 4 4 (replicate 8 0x90%Z)).
  - lia.
  - lia.
  - reflexivity.
  - vm_compute. reflexivity.
Defined.

(** The symbol [main.run] of the sample image. *)
Lemma getSymbol_value_and_size_witness :
  (getSymbol Sample.pe "main.run").2 = (0x401020, 0xff0, None)%Z ∧
  (hasSymbolTable Sample.pe).2 = (true, None).
Proof.
  apply (getSymbol_value_and_size Sample.pe "main.run").
  - reflexivity.
  - reflexivity.
  - reflexivity.
  - intros s Hs. repeat (apply elem_of_cons in Hs as [->|Hs]; [reflexivity|]).
    inversion Hs.
Defined.

(** ** The five lists of packages *)

Lemma filter_classes_perm {A : Type} (cls : A → option PackageClass) (l : list A) :
  (∀ x, x ∈ l → is_Some (cls x)) →
  filter (λ x, cls x = Some ClassMain) l ++ filter (λ x, cls x = Some ClassVendor) l ++
  filter (λ x, cls x = Some ClassSTD) l ++ filter (λ x, cls x = Some ClassGenerated) l ++
  filter (λ x, cls x = Some ClassUnknown) l ≡ₚ l.
Proof.
  induction l as [|x l IH]; intros Hall; [done|].
  assert (IH' := IH (λ y Hy, Hall y (list_elem_of_further _ _ _ Hy))).
  destruct (Hall x (list_elem_of_here _ _)) as [c Hc].
  destruct c;
    repeat match goal with
           | |- context [filter ?P (x :: l)] =>
               first [ rewrite (filter_cons_True P x l) by (simpl; congruence)
                     | rewrite (filter_cons_False P x l) by (simpl; congruence) ]
           end;
    rewrite <- ?app_comm_cons, <- ?Permutation_middle; apply perm_skip, IH'.
Qed.

Section Getters.

Context {H : Type} `{HH : fileHandler H}.
Variable stdPkgs : gset string.
Variable extractModuledata : FileInfo -> H -> moduledata * option error.
Variable findGoCompilerVersion : GoFile H -> GoVersion + error.
Variable NewTable : list byte -> Z -> GoSym.Table + error.

Implicit Type f : GoFile H.

Local Abbreviation initMD := (initModuleData extractModuledata findGoCompilerVersion).
Local Abbreviation pclnTab := (PCLNTab extractModuledata findGoCompilerVersion NewTable).
Local Abbreviation initPkgs :=
  (initPackages stdPkgs extractModuledata findGoCompilerVersion NewTable).
Local Abbreviation getters :=
  [GetPackages stdPkgs extractModuledata findGoCompilerVersion NewTable;
   GetVendors stdPkgs extractModuledata findGoCompilerVersion NewTable;
   GetSTDLib stdPkgs extractModuledata findGoCompilerVersion NewTable;
   GetGeneratedPackages stdPkgs extractModuledata findGoCompilerVersion NewTable;
   GetUnknown stdPkgs extractModuledata findGoCompilerVersion NewTable].

Lemma PCLNTab_classes f (c : PackageClass) :
  class_list c (pclnTab f).1 = class_list c f.
Proof.
  pose proof (initModuleData_classes extractModuledata findGoCompilerVersion f c) as Hc.
  unfold PCLNTab. destruct (initMD f) as [f1 [e|]]; simpl in *; [done|].
  destruct (getPCLNTABData (fh f1)) as [[a data] [e|]]; simpl; [done|].
  rewrite <- Hc. by destruct c.
Qed.

(** X19.  On a handle whose five package lists are empty and whose
    package gate has not run, when [initPackages] succeeds the five
    getters [GetPackages], [GetVendors], [GetSTDLib],
    [GetGeneratedPackages] and [GetUnknown] together return every
    package once: no pointer is returned twice, the packages returned
    carry pairwise different names, and a name is the name of a package
    returned exactly when a function of the line table carries it. *)
Theorem getters_partition f :
  initPackagesOnce f = false → (∀ c, class_list c f = []) →
  (initPkgs f).2 = None →
  ∃ tab,
    pclntab (initPkgs f).1 = Some tab ∧
    NoDup (all_packages getters f) ∧
    (∀ a b pa pb, a ∈ all_packages getters f → b ∈ all_packages getters f →
       heap (initPkgs f).1 !! a = Some pa → heap (initPkgs f).1 !! b = Some pb →
       Name pa = Name pb → a = b) ∧
    (∀ q, (∃ n, n ∈ GoSym.Funcs tab ∧ GoSym.PackageName n = q) ↔
          ∃ a pk, a ∈ all_packages getters f ∧
                  heap (initPkgs f).1 !! a = Some pk ∧ Name pk = q).
Proof.
  intros Hd Hempty Herr.
  assert (Hall : all_packages getters f
                 = class_list ClassMain (initPkgs f).1 ++
                   class_list ClassVendor (initPkgs f).1 ++
                   class_list ClassSTD (initPkgs f).1 ++
                   class_list ClassGenerated (initPkgs f).1 ++
                   class_list ClassUnknown (initPkgs f).1).
  { unfold all_packages, GetPackages, GetVendors, GetSTDLib, GetGeneratedPackages,
      GetUnknown. simpl. destruct (initPkgs f) as [f' err]. simpl. by rewrite app_nil_r. }
  rewrite Hall. clear Hall. revert Herr.
  unfold initPackages. rewrite Hd.
  pose proof (λ c, PCLNTab_classes f c) as Hcl.
  destruct (pclnTab f) as [f1 [tab|e]]; simpl in Hcl |- *; [|discriminate].
  set (f2 := set_pclntab (Some tab) f1).
  assert (Hcl2 : ∀ c, class_list c f2 = []).
  { intros c. rewrite <- (Hempty c), <- (Hcl c). by destruct c. }
  assert (Hp2 : pclntab f2 = Some tab) by done.
  clearbody f2. clear Hcl Hempty Hd f f1.
  pose proof (enum_loop_inv tab (GoSym.Funcs tab) [] _
                (enum_inv_init tab (heap (log_event EvEnumPackages f2))))
    as (Hlt & Hinj & _).
  pose proof (enum_loop_dom tab (GoSym.Funcs tab) (heap (log_event EvEnumPackages f2)))
    as Hdom.
  destruct (enumPackages_gates stdPkgs tab f2) as (_ & _ & _ & Hpcln).
  unfold enumPackages in *. cbv zeta in *.
  set (st := enum_loop tab (GoSym.Funcs tab) (mkEnum ∅ [] (heap (log_event EvEnumPackages f2))))
    in *.
  set (f3 := set_heap (e_heap st) (log_event EvEnumPackages f2)) in *.
  destruct (choose_classifier stdPkgs (gf_BuildInfo f3) st) as [classify|];
    [|discriminate].
  intros _. cbn [fst snd] in *.
  set (l := map_to_list (packages st)) in *.
  pose proof (map_to_list_snd_NoDup _ Hinj) as Hnd. fold l in Hnd.
  assert (Hspec : ∀ c,
            (∀ np, np ∈ l → heap (fold_left (classify_step classify) l f3) !! np.2
                            = named_at (heap f3) np) ∧
            class_list c (fold_left (classify_step classify) l f3)
            = (filter (λ np, classify <$> named_at (heap f3) np = Some c) l).*2).
  { intros c.
    destruct (classify_loop_spec classify (heap f3) c l Hnd f3 (λ _ _, eq_refl))
      as [Hheap ->].
    split; [done|]. replace (class_list c f3) with (@nil nat); [done|].
    rewrite <- (Hcl2 c). by destruct c. }
  set (f4 := fold_left (classify_step classify) l f3) in *.
  assert (Hnamed : ∀ np, np ∈ l → ∃ pk, named_at (heap f3) np = Some pk ∧ Name pk = np.1).
  { intros [q a] Hin. apply elem_of_map_to_list in Hin.
    destruct (lookup_lt_is_Some_2 (e_heap st) a (Hlt q a Hin)) as [pk Hpk].
    exists (set_Name q pk). unfold named_at. simpl. by rewrite Hpk. }
  assert (Hperm : class_list ClassMain f4 ++ class_list ClassVendor f4 ++
                  class_list ClassSTD f4 ++ class_list ClassGenerated f4 ++
                  class_list ClassUnknown f4 ≡ₚ l.*2).
  { rewrite !(proj2 (Hspec _)), <- !fmap_app. apply fmap_Permutation.
    apply (filter_classes_perm (λ np, classify <$> named_at (heap f3) np)).
    intros np Hin. destruct (Hnamed np Hin) as (pk & -> & _). by eexists. }
  exists tab.
  change (pclntab (set_initPackagesError None f4)) with (pclntab f4).
  change (heap (set_initPackagesError None f4)) with (heap f4).
  change (pkgs (set_initPackagesError None f4)) with (class_list ClassMain f4).
  change (vendors (set_initPackagesError None f4)) with (class_list ClassVendor f4).
  change (gf_stdPkgs (set_initPackagesError None f4)) with (class_list ClassSTD f4).
  change (generated (set_initPackagesError None f4)) with (class_list ClassGenerated f4).
  change (unknown (set_initPackagesError None f4)) with (class_list ClassUnknown f4).
  split; [by rewrite Hpcln|]. split; [by rewrite Hperm|]. split.
  - intros a b pa pb Ha Hb Hpa Hpb Hname. rewrite Hperm in Ha, Hb.
    apply list_elem_of_fmap in Ha as ([qa a'] & -> & Ha).
    apply list_elem_of_fmap in Hb as ([qb b'] & -> & Hb).
    rewrite (proj1 (Hspec ClassMain) _ Ha) in Hpa.
    rewrite (proj1 (Hspec ClassMain) _ Hb) in Hpb.
    destruct (Hnamed _ Ha) as (pk1 & H1 & Hn1). destruct (Hnamed _ Hb) as (pk2 & H2 & Hn2).
    rewrite H1 in Hpa. rewrite H2 in Hpb. injection Hpa as <-. injection Hpb as <-.
    simpl in *. assert (qa = qb) as -> by congruence.
    apply elem_of_map_to_list in Ha, Hb. congruence.
  - intros q. rewrite <- Hdom. split.
    + intros [a Ha]. apply elem_of_map_to_list in Ha. fold l in Ha.
      destruct (Hnamed _ Ha) as (pk & Hpk & Hn). exists a, pk.
      split; [rewrite Hperm; by apply (list_elem_of_fmap_2 snd l (q, a))|].
      split; [|done]. by rewrite <- Hpk, <- (proj1 (Hspec ClassMain) _ Ha).
    + intros (a & pk & Ha & Hpk & Hn). rewrite Hperm in Ha.
      apply list_elem_of_fmap in Ha as ([q' a'] & -> & Ha).
      rewrite (proj1 (Hspec ClassMain) _ Ha) in Hpk.
      destruct (Hnamed _ Ha) as (pk' & Hpk' & Hn'). rewrite Hpk' in Hpk.
      injection Hpk as <-. cbn [fst] in Hn'. assert (q' = q) as -> by congruence.
      unfold l in Ha. apply elem_of_map_to_list in Ha. by exists a'.
Qed.

End Getters.

(** The sample handle: the five getters return no pointer twice. *)
Lemma getters_partition_witness :
  NoDup (all_packages
           [GetPackages Sample.stdPkgs Sample.extractModuledata Sample.findVersion
              (Sample.NewTable Sample.tab);
            GetVendors Sample.stdPkgs Sample.extractModuledata Sample.findVersion
              (Sample.NewTable Sample.tab);
            GetSTDLib Sample.stdPkgs Sample.extractModuledata Sample.findVersion
              (Sample.NewTable Sample.tab);
            GetGeneratedPackages Sample.stdPkgs Sample.extractModuledata Sample.findVersion
              (Sample.NewTable Sample.tab);
            GetUnknown Sample.stdPkgs Sample.extractModuledata Sample.findVersion
              (Sample.NewTable Sample.tab)]
           Sample.gofile).
Proof.
  pose proof (getters_partition Sample.stdPkgs Sample.extractModuledata Sample.findVersion
                (Sample.NewTable Sample.tab) Sample.gofile) as Hthm.
  destruct Hthm as (tab & _ & Hnd & _).
  - reflexivity.
  - intros c. destruct c; reflexivity.
  - vm_compute. reflexivity.
  - exact Hnd.
Defined.

(** The sample image: an address in the code is answered by [.text], an
    address in [.bss], which exists only in memory, by no section. *)
Lemma getSectionDataFromAddress_first_match_witness :
  pe_getSectionDataFromAddress Sample.pe 0x401010
  = (0x401000%Z, Sample.text_data, None) ∧
  pe_getSectionDataFromAddress Sample.pe 0x403010
  = (0%Z, [], Some ErrSectionDoesNotExist).
Proof.
  destruct (getSectionDataFromAddress_first_match Sample.pe 0x401010) as [_ Hcode].
  destruct (getSectionDataFromAddress_first_match Sample.pe 0x403010) as [Hbss _].
  split.
  - apply (Hcode 0%nat Sample.sec_text).
    + reflexivity.
    + discriminate.
    + reflexivity.
    + intros j sec' Hj. lia.
  - apply Hbss. intros sec Hin Hoff.
    repeat (apply elem_of_cons in Hin as [->|Hin]; [try reflexivity|]).
    + exfalso. apply Hoff. reflexivity.
    + inversion Hin.
Defined.

(** The sample image: the address of [.text] leads back to [.text]. *)
Lemma PE_lookups_agree_witness :
  (pe_getSectionData Sample.pe ".text").1.1 = 0x401000%Z ∧
  pe_getSectionDataFromAddress Sample.pe 0x401000 = pe_getSectionData Sample.pe ".text".
Proof.
  destruct (PE_lookups_agree Sample.pe) as (_ & _ & Hround).
  apply (Hround 0%nat Sample.sec_text).
  - reflexivity.
  - discriminate.
  - reflexivity.
  - intros j sec' Hj. lia.
Defined.

(** ** A panic of the PE parser *)

Section OpenPEPanic.

Context {elfFile machoFile : Type}.
Context `{HE : fileHandler elfFile} `{HM : fileHandler machoFile}.
Variable os_Open : string -> list byte + error.
Variable pe_NewFile : list byte -> outcome (PE.File + error).
Variable openELF : string -> elfFile + error.
Variable openMachO : string -> machoFile + error.
Variable searchSectionForTab : list byte -> ByteOrder -> list byte + error.
Variable parseBuildIDFromRaw : list byte -> string * option error.
Variable extractBuildInfo : GoFile (anyHandler elfFile machoFile) -> BuildInfo + error.

Local Abbreviation open :=
  (Open os_Open pe_NewFile openELF openMachO searchSectionForTab parseBuildIDFromRaw
        extractBuildInfo).

(** C1.  Whatever the file system and the parser: on a file on which
    [pe.NewFile] panics, [openPE] returns nothing, neither a reader nor
    an error; the panic leaves [openPE], because the function literal
    that calls [recover] is started with [go] and is not deferred, and
    it leaves [Open] when the file has at least four bytes and starts
    with the PE magic.  Deferred, as the comment of [openPE] describes
    it, the literal would make [openPE] return the panic as the error
    "error when processing PE file, probably corrupt". *)
Theorem openPE_does_not_recover (filePath : string) (content : list byte) (r : string) :
  os_Open filePath = inl content → pe_NewFile content = Panicked r →
  openPE os_Open pe_NewFile filePath = Panicked r ∧
  (∀ res, openPE os_Open pe_NewFile filePath ≠ Returned res) ∧
  openPE_deferred os_Open pe_NewFile filePath
  = Returned (None,
              Some (ErrNew ("error when processing PE file, probably corrupt: " ++ r))) ∧
  ((4 ≤ length content)%nat → fileMagicMatch content peMagic = true →
   open filePath = Panicked r).
Proof.
  intros Hopen Hpanic.
  destruct (openPE_panic_escapes os_Open pe_NewFile filePath content r Hopen Hpanic)
    as [Hgo Hdefer].
  split; [exact Hgo|]. split; [by rewrite Hgo|]. split; [exact Hdefer|].
  intros Hlen Hpe. pose proof (peMagic_not_elfMagic content Hpe) as Helf.
  unfold Open. rewrite Hopen.
  destruct content as [|a [|b [|c [|d rest]]]]; simpl in Hlen; try lia.
  change (file_Read (a :: b :: c :: d :: rest) maxMagicBufLen)
    with (4%Z, [a; b; c; d], @None error).
  cbv beta iota zeta. change (4 <? maxMagicBufLen)%Z with false. cbv iota.
  rewrite !(fileMagicMatch_buffer _ a b c d rest) by (simpl; lia).
  rewrite Helf, Hpe, Hgo. reflexivity.
Qed.

End OpenPEPanic.

(** The sample file system with the parser that panics on its first
    file. *)
Lemma openPE_does_not_recover_witness :
  openPE SampleOpen.os_Open SampleOpen.pe_NewFile "corrupt.exe"
  = Panicked SampleOpen.parser_panic ∧
  SampleOpen.open "corrupt.exe" = Panicked SampleOpen.parser_panic ∧
  openPE_deferred SampleOpen.os_Open SampleOpen.pe_NewFile "corrupt.exe"
  = Returned (None,
              Some (ErrNew ("error when processing PE file, probably corrupt: "
                            ++ SampleOpen.parser_panic))).
Proof.
  destruct (@openPE_does_not_recover Empty_set Empty_set SampleOpen.no_reader
              SampleOpen.no_reader SampleOpen.os_Open SampleOpen.pe_NewFile
              SampleOpen.open_none SampleOpen.open_none Sample.scanner
              Sample.parseBuildID SampleOpen.extractBuildInfo
              "corrupt.exe" SampleOpen.corrupt_pe SampleOpen.parser_panic
              eq_refl eq_refl) as (Hgo & _ & Hdefer & Hopen).
  split; [exact Hgo|]. split; [|exact Hdefer].
  apply Hopen; [simpl; lia | reflexivity].
Defined.
